(** * m8flow SMTP connector: [send_email.py]

    A shallow embedding of
    [connectors/m8flow-connector-smtp/src/connector_smtp/commands/send_email.py]
    and the properties of its limit resolver, path guard, attachment loader,
    recipient resolver and [SendHTMLEmail.execute].

    Conventions of the embedding.
    - A Python [str] is a [string]; a character is a code point below 256.
    - A Python [int] is a [Z]; [bytes] is a [list Z] of values below 256.
    - A Python exception is a value [Exn cls msg]; a function that can raise
      returns a [result].  The f-string messages of the module are kept as
      structured values (their text formats floats and [repr]s).
    - Everything the module asks of the interpreter, the operating system,
      the header parser of the [email] package and the SMTP server is a
      field of the record [Host].  [os.path] is [posixpath]: the connector
      runs in a container.
    - The standard library is that of CPython 3.11: the strict mode of
      [binascii.a2b_base64] and the header check of
      [email.policy.EmailPolicy] are transcribed from it. *)

From Stdlib Require Import ZArith Ascii String List Lia Bool.
From Stdlib Require DecimalString DecimalN.
From stdpp Require Import base option list gmap strings.

Set Warnings "-clear-no-such-hyp".

Local Open Scope Z_scope.

(** ** Python strings *)

Module PyStr.

(** [str.isspace] of one character, for code points below 256:
    TAB..CR, FS..US, SPACE, NEL and NBSP. *)
Definition isspace (c : ascii) : bool :=
  let n := N_of_ascii c in
  ((9 <=? n) && (n <=? 13) || (28 <=? n) && (n <=? 32)
   || (n =? 133) || (n =? 160))%N.

Definition len (s : string) : Z := Z.of_nat (String.length s).

Definition startswith (s p : string) : bool := String.prefix p s.

(** [c in s] for a one-character [c]. *)
Fixpoint contains (c : ascii) (s : string) : bool :=
  match s with
  | EmptyString => false
  | String a s' => Ascii.eqb a c || contains c s'
  end.

(** [s[:n]] *)
Fixpoint take (n : nat) (s : string) : string :=
  match n, s with
  | S n', String a s' => String a (take n' s')
  | _, _ => EmptyString
  end.

(** [s.endswith(p)] *)
Fixpoint endswith (s p : string) : bool :=
  String.eqb s p ||
  match s with
  | EmptyString => false
  | String _ s' => endswith s' p
  end.

Fixpoint lstrip (s : string) : string :=
  match s with
  | EmptyString => EmptyString
  | String a s' => if isspace a then lstrip s' else s
  end.

Fixpoint rstrip (s : string) : string :=
  match s with
  | EmptyString => EmptyString
  | String a s' =>
      match rstrip s' with
      | EmptyString => if isspace a then EmptyString else String a EmptyString
      | r => String a r
      end
  end.

(** [s.strip()] *)
Definition strip (s : string) : string := rstrip (lstrip s).

(** [s.replace(a, b)] for one-character [a] and [b]. *)
Fixpoint replace (a b : ascii) (s : string) : string :=
  match s with
  | EmptyString => EmptyString
  | String c s' => String (if Ascii.eqb c a then b else c) (replace a b s')
  end.

(** [s.split(sep)] for a one-character [sep]: the pieces between the
    separators, empty pieces included; never the empty list. *)
Fixpoint split (sep : ascii) (s : string) : list string :=
  match s with
  | EmptyString => [EmptyString]
  | String c s' =>
      if Ascii.eqb c sep then EmptyString :: split sep s'
      else match split sep s' with
           | p :: ps => String c p :: ps
           | [] => [String c EmptyString]
           end
  end.

(** [s.split()]: the maximal runs of non-whitespace characters; [cur] is
    the run being read, if one has begun. *)
Fixpoint split_ws_go (cur : option string) (s : string) : list string :=
  match s with
  | EmptyString => option_list cur
  | String c s' =>
      if isspace c
      then option_list cur ++ split_ws_go None s'
      else split_ws_go
             (Some (default EmptyString cur +:+ String c EmptyString)) s'
  end.
Definition split_ws (s : string) : list string := split_ws_go None s.

(** [sep.join(l)] *)
Definition join (sep : string) (l : list string) : string :=
  String.concat sep l.

(** Truth value of a [str]. *)
Definition truthy (s : string) : bool := negb (String.eqb s EmptyString).

(** The line boundaries of [str.splitlines] among the code points below
    256: LF, VT, FF, CR, FS, GS, RS and NEL. *)
Definition is_linebreak (c : ascii) : bool :=
  let n := N_of_ascii c in
  ((10 <=? n) && (n <=? 13) || (28 <=? n) && (n <=? 30) || (n =? 133))%N.

(** [s.splitlines()]: the lines of [s] without their terminators.  CR LF is
    one terminator, and a terminator at the very end opens no further
    line. *)
Fixpoint splitlines (s : string) : list string :=
  match s with
  | EmptyString => []
  | String c s' =>
      if is_linebreak c then
        EmptyString ::
          (if Ascii.eqb c "013"
           then match s' with
                | String d s'' =>
                    if Ascii.eqb d "010" then splitlines s''
                    else splitlines s'
                | EmptyString => []
                end
           else splitlines s')
      else match splitlines s' with
           | [] => [String c EmptyString]
           | l :: ls => String c l :: ls
           end
  end.

(** [s.isascii()] *)
Fixpoint isascii (s : string) : bool :=
  match s with
  | EmptyString => true
  | String c s' => (N_of_ascii c <? 128)%N && isascii s'
  end.

End PyStr.

(** ** Exceptions *)

Inductive exc_class : Type :=
| ValueError
| FileNotFoundError
| IndexError
| BinasciiError                      (* binascii.Error, [__name__] "Error" *)
| LibraryError (name : string).      (* raised by the OS or a library *)

Definition class_name (c : exc_class) : string :=
  match c with
  | ValueError => "ValueError"
  | FileNotFoundError => "FileNotFoundError"
  | IndexError => "IndexError"
  | BinasciiError => "Error"
  | LibraryError n => n
  end.

(** What [str(exc)] says, one constructor per message of the module.
    [LibraryMessage] is the text of an exception raised by the interpreter,
    the operating system or a library; its wording is indicative. *)
Inductive message : Type :=
| PathNotAString                                   (* line 105 *)
| WindowsOrUNCPath (allowed_root path : string)    (* line 110 *)
| NotAbsolute (allowed_root path : string)         (* line 115 *)
| PathInvalid (path : string)                      (* line 124 *)
| OutsideRoot (allowed_root path : string)         (* line 127 *)
| AttachmentTooLarge (name : string) (size limit : Z)  (* line 155 *)
| MissingFilename (index : nat)                    (* line 180 *)
| NoSuchFile (safe_path : string)                  (* line 189 *)
| InvalidBase64 (filename : string) (detail : message) (* line 211 *)
| MissingSource (filename : string)                (* line 217 *)
| NoRecipients                                     (* line 309 *)
| LibraryMessage (text : string).

Record exn : Type := Exn { exn_class : exc_class; exn_message : message }.

Inductive result (A : Type) : Type :=
| Ok (a : A)
| Err (e : exn).
Arguments Ok {A} a.
Arguments Err {A} e.

Definition rbind {A B} (r : result A) (k : A → result B) : result B :=
  match r with
  | Ok a => k a
  | Err e => Err e
  end.

(** [try: r except Exception: h] *)
Definition try_except {A} (r : result A) (h : exn → result A) : result A :=
  match r with
  | Ok a => Ok a
  | Err e => h e
  end.

#[global] Instance exc_class_eq_dec : EqDecision exc_class.
Proof. solve_decision. Defined.

(** ** The builtin [int(str)] *)

Module PyInt.

Definition digit (c : ascii) : option Z :=
  let n := N_of_ascii c in
  if ((48 <=? n) && (n <=? 57))%N then Some (Z.of_N n - 48) else None.

(** Decimal digits with single underscores between them; returns the
    value and the number of digits. *)
Fixpoint digits (acc : Z) (count : nat) (after_digit : bool) (s : string)
  : option (Z * nat) :=
  match s with
  | EmptyString => if after_digit then Some (acc, count) else None
  | String c s' =>
      if Ascii.eqb c "_"
      then if after_digit then digits acc count false s' else None
      else match digit c with
           | Some d => digits (10 * acc + d) (S count) true s'
           | None => None
           end
  end.

Definition invalid_literal : exn :=
  Exn ValueError (LibraryMessage "invalid literal for int() with base 10").
Definition too_many_digits : exn :=
  Exn ValueError
    (LibraryMessage "Exceeds the limit for integer string conversion").

(** [int(s)] in base 10.  [max_str_digits] is
    [sys.get_int_max_str_digits()]: 4300 unless configured, and 0 switches
    the limit off. *)
Definition int (max_str_digits : nat) (s : string) : result Z :=
  let t := PyStr.strip s in
  let '(negative, body) :=
    match t with
    | String "-" r => (true, r)
    | String "+" r => (false, r)
    | _ => (false, t)
    end in
  match digits 0 0 false body with
  | None => Err invalid_literal
  | Some (v, n) =>
      if (0 <? max_str_digits)%nat && (max_str_digits <? n)%nat
      then Err too_many_digits
      else Ok (if negative then - v else v)
  end.

End PyInt.

(** [str(n)] for [n >= 0]: the decimal numeral of [n]. *)
Definition decimal (n : N) : string :=
  DecimalString.NilEmpty.string_of_uint (N.to_uint n).

(** ** Values, messages and the host *)

(** A value found in an attachment dictionary: [None], a [str], or any other
    object, of which the module only uses the truth value and [str(...)]. *)
Inductive pyval : Type :=
| PNone
| PStr (s : string)
| PObj (truth : bool) (text : string).

Definition truthy (v : pyval) : bool :=
  match v with
  | PNone => false
  | PStr s => PyStr.truthy s
  | PObj b _ => b
  end.

(** [str(v)] *)
Definition py_str (v : pyval) : string :=
  match v with
  | PNone => "None"
  | PStr s => s
  | PObj _ t => t
  end.

(** [d.get(k)] *)
Definition dict_get (d : gmap string pyval) (k : string) : pyval :=
  default PNone (d !! k).

(** Truth value of an optional [str] argument. *)
Definition opt_truthy (o : option string) : bool :=
  match o with
  | Some s => PyStr.truthy s
  | None => false
  end.

Record Part : Type := {
  part_payload : list Z;
  part_maintype : string;
  part_subtype : string;
  part_filename : string;
}.

(** An [EmailMessage] as what has been set on it: the header fields in the
    order of assignment, the plain body, the alternatives and the
    attachments.  The headers the [email] package derives on its own (the
    MIME headers of the parts) are not part of the record. *)
Record EmailMessage : Type := {
  headers : list (string * string);
  content : string;
  alternatives : list (string * string);
  parts : list Part;
}.

Definition empty_message : EmailMessage :=
  {| headers := []; content := ""; alternatives := []; parts := [] |}.

(** The message with one more header field, body, alternative or part. *)
Definition with_header (name value : string) (m : EmailMessage)
  : EmailMessage :=
  {| headers := headers m ++ [(name, value)]; content := content m;
     alternatives := alternatives m; parts := parts m |}.

(** [message.set_content(body)] and [message.add_alternative(body,
    subtype=...)] for a [str]: the package encodes the text as UTF-8 and
    sets headers of its own; neither raises for a text of the embedding. *)
Definition set_content (body : string) (m : EmailMessage) : EmailMessage :=
  {| headers := headers m; content := body;
     alternatives := alternatives m; parts := parts m |}.

Definition add_alternative (body subtype : string) (m : EmailMessage)
  : EmailMessage :=
  {| headers := headers m; content := content m;
     alternatives := alternatives m ++ [(subtype, body)]; parts := parts m |}.

(** [self.attach(part)] *)
Definition attach (p : Part) (m : EmailMessage) : EmailMessage :=
  {| headers := headers m; content := content m;
     alternatives := alternatives m; parts := parts m ++ [p] |}.

(** What one invocation observes of its surroundings.  The file system
    answers are independent of each other: the size [getsize] reports and the
    bytes [read_bytes] returns need not agree. *)
Record Host : Type := {
  environ : gmap string string;                    (* os.environ *)
  int_max_str_digits : nat;                        (* sys.get_int_max_str_digits() *)
  realpath : string → result string;               (* os.path.realpath *)
  isfile : string → bool;                          (* os.path.isfile *)
  getsize : string → result Z;                     (* os.path.getsize *)
  read_bytes : string → result (list Z);           (* open(p, "rb").read() *)
  guess_type : string → option string;             (* mimetypes.guess_type(f)[0] *)
  header_factory : string → string → option exn;   (* policy.header_factory(name, value) *)
  net_connect : string → Z → Z → option exn;       (* SMTP(host, port, timeout=t) *)
  net_starttls : option exn;                       (* smtp.starttls(context=...) *)
  net_login : string → string → option exn;        (* smtp.login(user, password) *)
  net_send_message : EmailMessage → list string → option exn;
  net_quit : option exn;                           (* leaving the [with] block *)
}.

(** ** The [email] package: header values *)

Module Email.

Definition line_break_error : exn :=
  Exn ValueError
    (LibraryMessage
       "Header values may not contain linefeed or carriage return characters").

(** [EmailPolicy.header_store_parse(name, value)] for a [str] value: a value
    of more than one line is refused, then the header parser runs.  The
    parser is written not to raise, yet it does for some malformed values
    (an address that ends in a line feed, an unclosed angle bracket): what
    it raises is the host's. *)
Definition header_store_parse (h : Host) (name value : string) : result unit :=
  if (1 <? length (PyStr.splitlines value))%nat then Err line_break_error
  else match header_factory h name value with
       | Some e => Err e
       | None => Ok tt
       end.

(** [email.utils.quote(s)]: backslashes and double quotes are escaped. *)
Fixpoint quote (s : string) : string :=
  match s with
  | EmptyString => EmptyString
  | String c s' =>
      if Ascii.eqb c "092" || Ascii.eqb c "034"
      then String "092" (String c (quote s'))
      else String c (quote s')
  end.

Definition hex_digit (n : N) : ascii :=
  ascii_of_N (if (n <? 10)%N then 48 + n else 55 + n).

(** [%XX] for the byte [b] *)
Definition percent (b : N) : string :=
  String "%" (String (hex_digit (b / 16))
                (String (hex_digit (b mod 16)) EmptyString)).

(** The bytes [urllib.parse.quote] never escapes: letters, digits and
    [_.-~]. *)
Definition always_safe (n : N) : bool :=
  ((65 <=? n) && (n <=? 90) || (97 <=? n) && (n <=? 122)
   || (48 <=? n) && (n <=? 57)
   || (n =? 95) || (n =? 46) || (n =? 45) || (n =? 126))%N.

(** [urllib.parse.quote(s, safe='', encoding='utf-8')]: a code point from
    128 on is two bytes in UTF-8. *)
Fixpoint url_quote (s : string) : string :=
  match s with
  | EmptyString => EmptyString
  | String c s' =>
      let n := N_of_ascii c in
      (if (n <? 128)%N
       then if always_safe n then String c EmptyString else percent n
       else percent (192 + n / 64) +:+ percent (128 + n mod 64))
      +:+ url_quote s'
  end.

(** [_formatparam(param, value, quote=True)] for a [str] value: quoted, or
    encoded after RFC 2231 when it is not ASCII. *)
Definition _formatparam (param value : string) : string :=
  if negb (PyStr.truthy value) then param
  else if PyStr.isascii value
  then param +:+ "=" +:+ String "034" (quote value +:+ String "034" EmptyString)
  else param +:+ "*=utf-8''" +:+ url_quote value.

(** The headers that [add_attachment(payload, maintype=..., subtype=...,
    filename=...)] stores on the new part from its arguments, in order:
    [Content-Type] ([_prepare_set]) and [Content-Disposition] with the file
    name ([_finalize_set], [set_param]).  The headers it stores with
    constant values are always accepted. *)
Definition part_headers (p : Part) : list (string * string) :=
  [("Content-Type", part_maintype p +:+ "/" +:+ part_subtype p);
   ("Content-Disposition",
    "attachment; " +:+ _formatparam "filename" (part_filename p))].

Fixpoint store_headers (h : Host) (l : list (string * string)) : result unit :=
  match l with
  | [] => Ok tt
  | (name, value) :: l' =>
      rbind (header_store_parse h name value) (λ _, store_headers h l')
  end.

End Email.

(** ** Limits and timeouts (lines 19-63) *)

Definition ALLOWED_ATTACHMENTS_DIR_ENV : string :=
  "M8FLOW_CONNECTOR_SMTP_ATTACHMENTS_USER_ACCESS_DIR".

(** The module constant, read from the environment when the module loads. *)
Definition ALLOWED_ATTACHMENTS_DIR (h : Host) : string :=
  default "/attachments" (environ h !! ALLOWED_ATTACHMENTS_DIR_ENV).

Definition HARD_ATTACHMENTS_LIMIT_MB : Z := 100.
Definition DEFAULT_ATTACHMENTS_LIMIT_MB : Z := 100.
Definition ATTACHMENTS_LIMIT_ENV : string :=
  "M8FLOW_CONNECTOR_SMTP_ATTACHMENTS_LIMIT_IN_MB".

Definition DEFAULT_SMTP_TIMEOUT_SECONDS : Z := 30.
Definition SMTP_TIMEOUT_ENV : string := "M8FLOW_CONNECTOR_SMTP_TIMEOUT_SECONDS".

Definition _env_int (h : Host) (name : string) (default : Z) : result Z :=
  match environ h !! name with
  | None => Ok default
  | Some raw =>
      if String.eqb (PyStr.strip raw) "" then Ok default
      else try_except (PyInt.int (int_max_str_digits h) (PyStr.strip raw))
                      (λ _, Ok default)
  end.

Definition _get_attachments_limit_bytes (h : Host) : result Z :=
  rbind (_env_int h ATTACHMENTS_LIMIT_ENV DEFAULT_ATTACHMENTS_LIMIT_MB)
    (λ requested_mb,
       let requested_mb :=
         if requested_mb <=? 0 then DEFAULT_ATTACHMENTS_LIMIT_MB
         else requested_mb in
       let effective_mb := Z.min requested_mb HARD_ATTACHMENTS_LIMIT_MB in
       Ok (effective_mb * 1024 * 1024)).

Definition _get_smtp_timeout_seconds (h : Host) : result Z :=
  rbind (_env_int h SMTP_TIMEOUT_ENV DEFAULT_SMTP_TIMEOUT_SECONDS)
    (λ timeout,
       let timeout :=
         if timeout <=? 0 then DEFAULT_SMTP_TIMEOUT_SECONDS else timeout in
       Ok timeout).

(** ** [posixpath] *)

Module PosixPath.

(** [os.path.isabs] *)
Definition isabs (p : string) : bool := PyStr.startswith p "/".

(** How Python orders two lists of strings. *)
Fixpoint list_compare (l1 l2 : list string) : comparison :=
  match l1, l2 with
  | [], [] => Eq
  | [], _ :: _ => Lt
  | _ :: _, [] => Gt
  | x :: l1', y :: l2' =>
      match String.compare x y with
      | Eq => list_compare l1' l2'
      | c => c
      end
  end.

(** [min([a, b])] and [max([a, b])]: the first one wins a tie. *)
Definition min2 (a b : list string) : list string :=
  match list_compare b a with Lt => b | _ => a end.
Definition max2 (a b : list string) : list string :=
  match list_compare b a with Gt => b | _ => a end.

(** [[c for c in path.split(sep) if c and c != curdir]] *)
Definition components (p : string) : list string :=
  filter (λ c, c ≠ "" ∧ c ≠ ".") (PyStr.split "/" p).

Definition index_error : exn :=
  Exn IndexError (LibraryMessage "list index out of range").
Definition mixed_paths : exn :=
  Exn ValueError (LibraryMessage "Can't mix absolute and relative paths").

(** The loop [for i, c in enumerate(s1): if c != s2[i]: ...]: the index at
    which it breaks, if it does; [s2[i]] raises when [s2] is too short. *)
Fixpoint first_mismatch (i : nat) (s1 s2 : list string)
  : result (option nat) :=
  match s1 with
  | [] => Ok None
  | c :: s1' =>
      match s2 with
      | [] => Err index_error
      | d :: s2' =>
          if String.eqb c d then first_mismatch (S i) s1' s2'
          else Ok (Some i)
      end
  end.

(** [os.path.commonpath([p1, p2])] *)
Definition commonpath (p1 p2 : string) : result string :=
  if negb (Bool.eqb (isabs p1) (isabs p2)) then Err mixed_paths
  else
    let s1 := min2 (components p1) (components p2) in
    let s2 := max2 (components p1) (components p2) in
    rbind (first_mismatch 0 s1 s2)
      (λ m,
         let common := match m with Some i => take i s1 | None => s1 end in
         let prefix := if isabs p1 then "/" else "" in
         Ok (prefix +:+ PyStr.join "/" common)).

(** [os.path.realpath] on a file system without symbolic links, with the
    working directory [cwd] given by its components: empty and [.]
    components are dropped and [..] steps to the parent (the root is its
    own parent). *)
Definition walk_step (stack : list string) (name : string) : list string :=
  if String.eqb name "" || String.eqb name "." then stack
  else if String.eqb name ".." then removelast stack
  else stack ++ [name].

Definition lexical_realpath (cwd : list string) (p : string) : result string :=
  if PyStr.contains "000" p
  then Err (Exn ValueError (LibraryMessage "embedded null byte"))
  else Ok ("/" +:+ PyStr.join "/"
             (fold_left walk_step (PyStr.split "/" p)
                (if isabs p then [] else cwd))).

End PosixPath.

(** ** Path guard (lines 96-131) *)

(** [except ValueError]: [binascii.Error] derives from [ValueError]. *)
Definition is_ValueError (c : exc_class) : bool :=
  match c with
  | ValueError | BinasciiError => true
  | _ => false
  end.

Definition _resolve_and_validate_attachment_path (h : Host)
    (path_value : string) : result string :=
  if negb (PyStr.truthy path_value) then Err (Exn ValueError PathNotAString)
  else
    rbind (realpath h (ALLOWED_ATTACHMENTS_DIR h)) (λ allowed_root,
    if PyStr.contains ":" (PyStr.take 3 path_value)
       || PyStr.startswith path_value "\\"
    then Err (Exn ValueError (WindowsOrUNCPath allowed_root path_value))
    else if negb (PosixPath.isabs path_value)
    then Err (Exn ValueError (NotAbsolute allowed_root path_value))
    else
      rbind (realpath h path_value) (λ candidate,
      rbind (try_except (PosixPath.commonpath allowed_root candidate)
               (λ e, if is_ValueError (exn_class e)
                     then Err (Exn ValueError (PathInvalid path_value))
                     else Err e))
        (λ common,
           if negb (String.eqb common allowed_root)
           then Err (Exn ValueError (OutsideRoot allowed_root path_value))
           else Ok candidate))).

(** ** Base64 *)

Module Base64.

(** [table_a2b_base64]: the value of a character of the standard
    alphabet. *)
Definition value (c : ascii) : option Z :=
  let n := Z.of_N (N_of_ascii c) in
  if (65 <=? n) && (n <=? 90) then Some (n - 65)
  else if (97 <=? n) && (n <=? 122) then Some (n - 71)
  else if (48 <=? n) && (n <=? 57) then Some (n + 4)
  else if n =? 43 then Some 62
  else if n =? 47 then Some 63
  else None.

(** The text as [bytes]: [s.encode("ascii")]. *)
Fixpoint is_ascii (s : string) : bool :=
  match s with
  | EmptyString => true
  | String c s' => (N_of_ascii c <? 128)%N && is_ascii s'
  end.

Definition not_ascii : exn :=
  Exn ValueError
    (LibraryMessage "string argument should contain only ASCII characters").

Definition binascii_error (text : string) : exn :=
  Exn BinasciiError (LibraryMessage text).

Definition leading_padding : exn :=
  binascii_error "Leading padding not allowed".
Definition excess_data : exn :=
  binascii_error "Excess data after padding".
Definition only_base64 : exn :=
  binascii_error "Only base64 data is allowed".
Definition discontinuous_padding : exn :=
  binascii_error "Discontinuous padding not allowed".
Definition incorrect_padding : exn :=
  binascii_error "Incorrect padding".
Definition one_more (data_characters : Z) : exn :=
  binascii_error
    ("Invalid base64-encoded string: number of data characters ("
     +:+ decimal (Z.to_N data_characters)
     +:+ ") cannot be 1 more than a multiple of 4").

(** A value stored in an [unsigned char]. *)
Definition byte (x : Z) : Z := Z.land x 255.

(** The loop of [binascii.a2b_base64(data, strict_mode=True)] over the
    rest [s] of the data, with its variables [quad_pos], [leftchar], [pads]
    and [padding_started], and the bytes [out] written so far.  A [=] ends
    the data once it completes a group that has two or three characters;
    before that it is skipped, also after a complete group; no character
    of the alphabet may follow one. *)
Fixpoint a2b_loop (s : string) (quad_pos : nat) (leftchar : Z) (pads : nat)
    (padding_started : bool) (out : list Z) : result (list Z) :=
  match s with
  | EmptyString =>
      match quad_pos with
      | 0%nat => Ok out
      | 1%nat => Err (one_more (Z.of_nat (length out) `div` 3 * 4 + 1))
      | _ => Err incorrect_padding
      end
  | String this_ch rest =>
      if Ascii.eqb this_ch "="
      then
        if (2 <=? quad_pos)%nat
        then
          if (4 <=? quad_pos + S pads)%nat
          then if negb (String.eqb rest "") then Err excess_data else Ok out
          else a2b_loop rest quad_pos leftchar (S pads) true out
        else a2b_loop rest quad_pos leftchar pads true out
      else
        match value this_ch with
        | None => Err only_base64
        | Some v =>
            if padding_started then Err discontinuous_padding
            else
              match quad_pos with
              | 0%nat => a2b_loop rest 1 v 0 false out
              | 1%nat =>
                  a2b_loop rest 2 (Z.land v 15) 0 false
                    (out ++ [byte (Z.lor (Z.shiftl leftchar 2) (Z.shiftr v 4))])
              | 2%nat =>
                  a2b_loop rest 3 (Z.land v 3) 0 false
                    (out ++ [byte (Z.lor (Z.shiftl leftchar 4) (Z.shiftr v 2))])
              | _ =>
                  a2b_loop rest 0 0 0 false
                    (out ++ [byte (Z.lor (Z.shiftl leftchar 6) v)])
              end
        end
  end.

(** [binascii.a2b_base64(data, strict_mode=True)] *)
Definition a2b_base64 (s : string) : result (list Z) :=
  match s with
  | String "=" _ => Err leading_padding
  | _ => a2b_loop s 0 0 0 false []
  end.

(** [base64.b64decode(s, validate=True)] for a [str] argument. *)
Definition b64decode (s : string) : result (list Z) :=
  if negb (is_ascii s) then Err not_ascii else a2b_base64 s.

End Base64.

(** ** Size estimate and limit (lines 134-158) *)

Definition _estimated_base64_decoded_size (b64_text : string) : Z :=
  let s := PyStr.join "" (PyStr.split_ws b64_text) in
  if negb (PyStr.truthy s) then 0
  else
    let padding :=
      if PyStr.endswith s "==" then 2
      else if PyStr.endswith s "=" then 1
      else 0 in
    (PyStr.len s * 3) `div` 4 - padding.

Definition _enforce_attachment_limit (name : string) (size_bytes limit_bytes : Z)
  : result unit :=
  if limit_bytes <? size_bytes
  then Err (Exn ValueError (AttachmentTooLarge name size_bytes limit_bytes))
  else Ok tt.

(** ** Recipients (lines 66-80) *)

Definition _split_recipients (value : option string) : list string :=
  if negb (opt_truthy value) then []
  else
    let raw := PyStr.replace ";" "," (default "" value) in
    filter (λ p, p ≠ "") (PyStr.strip <$> PyStr.split "," raw).

Fixpoint dedupe_loop (seen : gset string) (out : list string)
    (items : list string) : list string :=
  match items with
  | [] => out
  | x :: items' =>
      if decide (x ∈ seen) then dedupe_loop seen out items'
      else dedupe_loop ({[x]} ∪ seen) (out ++ [x]) items'
  end.

Definition _dedupe_keep_order (items : list string) : list string :=
  dedupe_loop ∅ [] items.

(** ** Content type (lines 83-93) *)

(** [s.split("/", 1)] when [s] has a [/]. *)
Fixpoint split_once (sep : ascii) (s : string) : option (string * string) :=
  match s with
  | EmptyString => None
  | String c s' =>
      if Ascii.eqb c sep then Some (EmptyString, s')
      else (λ '(a, b), (String c a, b)) <$> split_once sep s'
  end.

Definition _guess_content_type (h : Host) (filename : string)
    (explicit : option string) : string * string :=
  match explicit ≫= split_once "/" with
  | Some (maintype, subtype) => (maintype, subtype)
  | None =>
      match guess_type h filename ≫= split_once "/" with
      | Some (maintype, subtype) => (maintype, subtype)
      | None => ("application", "octet-stream")
      end
  end.

(** ** Effects *)

(** What the invocation does to the file system and the network, in order. *)
Inductive event : Type :=
| FsIsFile (path : string)
| FsGetSize (path : string)
| FsRead (path : string)
| NetConnect (host : string) (port timeout : Z)
| NetStartTLS
| NetLogin (user password : string)
| NetSendMessage (m : EmailMessage) (to_addrs : list string)
| NetQuit.

Definition is_network (ev : event) : bool :=
  match ev with
  | FsIsFile _ | FsGetSize _ | FsRead _ => false
  | _ => true
  end.

(** The entries of the [logs] list, one constructor per [logs.append]. *)
Inductive log_entry : Type :=
| LogAllowedDir (dir : string)                     (* line 281 *)
| LogSizeLimit (limit_bytes : Z)                   (* line 282 *)
| LogAttached (filename maintype subtype : string) (size : Z) (* line 292 *)
| LogAttachmentError (msg : message)               (* line 294 *)
| LogWillSend (timeout : Z)                        (* line 318 *)
| LogWillStartTLS                                  (* line 321 *)
| LogWillLogin                                     (* line 325 *)
| LogDidLogin                                      (* line 327 *)
| LogDidSend (recipients : nat)                    (* line 330 *)
| LogDidError (msg : message).                     (* line 332 *)

(** The literal text an entry starts with. *)
Definition log_prefix (l : log_entry) : string :=
  match l with
  | LogAllowedDir _ => "attachments allowed dir: "
  | LogSizeLimit _ => "attachments size limit: "
  | LogAttached _ _ _ _ => "attached: "
  | LogAttachmentError _ => "attachment error: "
  | LogWillSend _ => "will send (smtp timeout: "
  | LogWillStartTLS => "will starttls"
  | LogWillLogin => "will login"
  | LogDidLogin => "did login"
  | LogDidSend _ => "did send to "
  | LogDidError _ => "did error: "
  end.

(** The mutable state of one [execute]: the [logs] list, the [message]
    under construction, and the events so far.  It survives an exception. *)
Record State : Type := {
  logs : list log_entry;
  message_of : EmailMessage;
  trace : list event;
}.

Definition M (A : Type) : Type := State → result A * State.

#[global] Instance M_ret : MRet M := λ A a st, (Ok a, st).
#[global] Instance M_bind : MBind M := λ A B k m st,
  match m st with
  | (Ok a, st') => k a st'
  | (Err e, st') => (Err e, st')
  end.

Definition raise {A} (e : exn) : M A := λ st, (Err e, st).

Definition lift {A} (r : result A) : M A := λ st, (r, st).

Definition emit (ev : event) : M unit := λ st,
  (Ok tt, {| logs := logs st; message_of := message_of st;
             trace := trace st ++ [ev] |}).

(** [logs.append(l)] *)
Definition log (l : log_entry) : M unit := λ st,
  (Ok tt, {| logs := logs st ++ [l]; message_of := message_of st;
             trace := trace st |}).

Definition get_message : M EmailMessage := λ st, (Ok (message_of st), st).

Definition update_message (f : EmailMessage → EmailMessage) : M unit := λ st,
  (Ok tt, {| logs := logs st; message_of := f (message_of st);
             trace := trace st |}).

(** A call that succeeds or raises. *)
Definition call (ev : event) (outcome : option exn) : M unit :=
  emit ev;; match outcome with Some e => raise e | None => mret tt end.

(** [message[name] = value].  [execute] assigns each name once, so the
    limit on the number of headers of one name is never met. *)
Definition set_header (h : Host) (name value : string) : M unit :=
  lift (Email.header_store_parse h name value);;
  update_message (with_header name value).

(** [message.add_attachment(payload, maintype=..., subtype=...,
    filename=...)]: the headers of the new part are stored, then the part
    is attached. *)
Definition add_attachment (h : Host) (p : Part) : M unit :=
  lift (Email.store_headers h (Email.part_headers p));;
  update_message (attach p).

(** ** Attachment loader (lines 161-217) *)

(** [str(att.get("filename") or "").strip()] *)
Definition filename_of (att : gmap string pyval) : string :=
  let v := dict_get att "filename" in
  PyStr.strip (py_str (if truthy v then v else PStr "")).

(** [str(content_type) if content_type else None] *)
Definition content_type_of (att : gmap string pyval) : option string :=
  let content_type := dict_get att "content_type" in
  if truthy content_type then Some (py_str content_type) else None.

Definition _read_attachment_bytes (h : Host) (att : gmap string pyval)
    (index : nat) (limit_bytes : Z) : M (string * list Z * option string) :=
  let filename := filename_of att in
  if negb (PyStr.truthy filename)
  then raise (Exn ValueError (MissingFilename index))
  else
    let path := dict_get att "path" in
    let content_b64 := dict_get att "content_base64" in
    if truthy path then
      safe_path ← lift (_resolve_and_validate_attachment_path h (py_str path));
      emit (FsIsFile safe_path);;
      if negb (isfile h safe_path)
      then raise (Exn FileNotFoundError (NoSuchFile safe_path))
      else
        emit (FsGetSize safe_path);;
        size ← lift (getsize h safe_path);
        lift (_enforce_attachment_limit filename size limit_bytes);;
        emit (FsRead safe_path);;
        payload ← lift (read_bytes h safe_path);
        lift (_enforce_attachment_limit filename
                (Z.of_nat (length payload)) limit_bytes);;
        mret (filename, payload, content_type_of att)
    else if truthy content_b64 then
      let est := _estimated_base64_decoded_size (py_str content_b64) in
      lift (_enforce_attachment_limit filename est limit_bytes);;
      payload ← lift (try_except (Base64.b64decode (py_str content_b64))
                        (λ exc, match exn_class exc with
                                | BinasciiError =>
                                    Err (Exn ValueError
                                           (InvalidBase64 filename
                                              (exn_message exc)))
                                | _ => Err exc
                                end));
      lift (_enforce_attachment_limit filename
              (Z.of_nat (length payload)) limit_bytes);;
      mret (filename, payload, content_type_of att)
    else raise (Exn ValueError (MissingSource filename)).

(** ** [SendHTMLEmail] (lines 220-341) *)

(** The object after [__init__]; [attachments] is [attachments or []]. *)
Record SendHTMLEmail : Type := {
  smtp_host : string;
  smtp_port : Z;
  smtp_user : option string;
  smtp_password : option string;
  smtp_starttls : option bool;
  email_subject : string;
  email_body : string;
  email_body_html : option string;
  email_to : string;
  email_cc : option string;
  email_bcc : option string;
  email_from : string;
  email_reply_to : option string;
  attachments : list (gmap string pyval);
}.

Record CommandErrorDict : Type := {
  error_code : string;
  error_message : message;
}.

Record ConnectorProxyResponseDict : Type := {
  command_response : string * string;        (* body, mimetype *)
  error : option CommandErrorDict;
  command_response_version : Z;
  spiff__logs : list log_entry;
}.

Definition error_of (exc : exn) : CommandErrorDict :=
  {| error_code := class_name (exn_class exc);
     error_message := exn_message exc |}.

Definition response (err : option CommandErrorDict) (l : list log_entry)
  : ConnectorProxyResponseDict :=
  {| command_response := ("{}", "application/json"); error := err;
     command_response_version := 2; spiff__logs := l |}.

(** Lines 263-277, which no [try] encloses. *)
Definition build_message (h : Host) (self : SendHTMLEmail) : M unit :=
  set_header h "Subject" (email_subject self);;
  set_header h "From" (email_from self);;
  set_header h "To" (email_to self);;
  (if opt_truthy (email_cc self)
   then set_header h "Cc" (default "" (email_cc self)) else mret tt);;
  (if opt_truthy (email_reply_to self)
   then set_header h "Reply-To" (default "" (email_reply_to self))
   else mret tt);;
  update_message (set_content (email_body self));;
  (if opt_truthy (email_body_html self)
   then update_message
          (add_alternative (default "" (email_body_html self)) "html")
   else mret tt).

(** The loop of lines 283-292, from index [i]. *)
Fixpoint attach_loop (h : Host) (limit_bytes : Z) (i : nat)
    (atts : list (gmap string pyval)) : M unit :=
  match atts with
  | [] => mret tt
  | att :: atts' =>
      '(filename, payload, explicit_ct) ←
        _read_attachment_bytes h att i limit_bytes;
      let '(maintype, subtype) := _guess_content_type h filename explicit_ct in
      add_attachment h
        {| part_payload := payload; part_maintype := maintype;
           part_subtype := subtype; part_filename := filename |};;
      log (LogAttached filename maintype subtype (Z.of_nat (length payload)));;
      attach_loop h limit_bytes (S i) atts'
  end.

(** The body of the first [try] (lines 281-292). *)
Definition attachment_stage (h : Host) (self : SendHTMLEmail)
    (limit_bytes : Z) : M unit :=
  allowed ← lift (realpath h (ALLOWED_ATTACHMENTS_DIR h));
  log (LogAllowedDir allowed);;
  log (LogSizeLimit limit_bytes);;
  attach_loop h limit_bytes 0 (attachments self).

(** Lines 303-306. *)
Definition envelope_recipients (self : SendHTMLEmail) : list string :=
  let to_list := _split_recipients (Some (email_to self)) in
  let cc_list := _split_recipients (email_cc self) in
  let bcc_list := _split_recipients (email_bcc self) in
  _dedupe_keep_order (to_list ++ cc_list ++ bcc_list).

(** [with SMTP(host, port, timeout=t) as smtp: body]: the constructor
    connects when [host] is not empty, the body runs, and [__exit__] quits
    whatever the body did; what [__exit__] raises replaces what the body
    raised. *)
Definition then_quit (h : Host) (body : M unit) : M unit := λ st,
  let '(r, st') := body st in
  match call NetQuit (net_quit h) st' with
  | (Ok _, st'') => (r, st'')
  | (Err e, st'') => (Err e, st'')
  end.

Definition with_SMTP (h : Host) (host : string) (port timeout : Z)
    (body : M unit) : M unit :=
  (if PyStr.truthy host
   then call (NetConnect host port timeout) (net_connect h host port timeout)
   else mret tt);;
  then_quit h body.

(** The body of the second [try] (lines 318-330). *)
Definition delivery_stage (h : Host) (self : SendHTMLEmail)
    (smtp_timeout : Z) (recipients : list string) : M unit :=
  log (LogWillSend smtp_timeout);;
  with_SMTP h (smtp_host self) (smtp_port self) smtp_timeout
    ((if default false (smtp_starttls self)
      then log LogWillStartTLS;; call NetStartTLS (net_starttls h)
      else mret tt);;
     (if opt_truthy (smtp_user self) && opt_truthy (smtp_password self)
      then
        let user := default "" (smtp_user self) in
        let password := default "" (smtp_password self) in
        log LogWillLogin;;
        call (NetLogin user password) (net_login h user password);;
        log LogDidLogin
      else mret tt);;
     message ← get_message;
     call (NetSendMessage message recipients)
          (net_send_message h message recipients);;
     log (LogDidSend (length recipients))).

(** The state when [execute] begins: no log entry, [EmailMessage()], no
    event. *)
Definition blank_state : State :=
  {| logs := []; message_of := empty_message; trace := [] |}.

(** [execute]: the response it returns, or the exception it lets through,
    and the state it leaves. *)
Definition execute (h : Host) (self : SendHTMLEmail)
  : result ConnectorProxyResponseDict * State :=
  match _get_attachments_limit_bytes h with
  | Err e => (Err e, blank_state)
  | Ok limit_bytes =>
  match _get_smtp_timeout_seconds h with
  | Err e => (Err e, blank_state)
  | Ok smtp_timeout =>
  match build_message h self blank_state with
  | (Err e, st1) => (Err e, st1)
  | (Ok _, st1) =>
  match attachment_stage h self limit_bytes st1 with
  | (Err exc, st2) =>
      let '(_, st3) := log (LogAttachmentError (exn_message exc)) st2 in
      (Ok (response (Some (error_of exc)) (logs st3)), st3)
  | (Ok _, st2) =>
      let recipients := envelope_recipients self in
      match recipients with
      | [] =>
          (Ok (response
                 (Some {| error_code := "ValueError";
                          error_message := NoRecipients |})
                 (logs st2)), st2)
      | _ :: _ =>
          match delivery_stage h self smtp_timeout recipients st2 with
          | (Err exc, st3) =>
              let '(_, st4) := log (LogDidError (exn_message exc)) st3 in
              (Ok (response (Some (error_of exc)) (logs st4)), st4)
          | (Ok _, st3) => (Ok (response None (logs st3)), st3)
          end
      end
  end
  end
  end
  end.

(** * Vocabulary of the properties *)

(** ** Strings *)

(** Every character is whitespace. *)
Fixpoint blank (s : string) : bool :=
  match s with
  | EmptyString => true
  | String c s' => PyStr.isspace c && blank s'
  end.

(** A string that is empty or starts with a character that is not
    whitespace. *)
Definition no_leading_space (s : string) : Prop :=
  match s with
  | EmptyString => True
  | String c _ => PyStr.isspace c = false
  end.

(** The text without its whitespace characters. *)
Fixpoint remove_whitespace (s : string) : string :=
  match s with
  | EmptyString => EmptyString
  | String c s' =>
      if PyStr.isspace c then remove_whitespace s'
      else String c (remove_whitespace s')
  end.

(** 2 for a text that ends with [==], 1 for one that ends with a single
    [=], else 0. *)
Definition padding_count (s : string) : Z :=
  if PyStr.endswith s "==" then 2
  else if PyStr.endswith s "=" then 1
  else 0.

Fixpoint zeros (n : nat) : string :=
  match n with
  | O => ""
  | S n' => String "0" (zeros n')
  end.

(** ** Base64 texts *)

(** A character of the base64 alphabet. *)
Definition is_data (c : ascii) : bool :=
  match Base64.value c with Some _ => true | None => false end.

(** [n] padding characters. *)
Fixpoint pad_chars (n : nat) : string :=
  match n with
  | O => ""
  | S n' => String "=" (pad_chars n')
  end.

(** The number of padding characters of [s]. *)
Fixpoint count_pad (s : string) : nat :=
  match s with
  | EmptyString => 0
  | String c s' => (if Ascii.eqb c "=" then 1 else 0) + count_pad s'
  end.

(** Correct padding: the text is padded to a multiple of four characters,
    with at most two padding characters. *)
Definition correctly_padded (s : string) : Prop :=
  PyStr.len s `mod` 4 = 0 ∧ (count_pad s ≤ 2)%nat.

(** The number of bytes that [k] characters of the alphabet stand for. *)
Definition decoded_length (k : Z) : Z :=
  3 * (k `div` 4) + Z.max 0 (k `mod` 4 - 1).

(** ** Settings *)

(** The integer a setting holds: the setting is present, is not blank, and
    reads as an integer. *)
Definition configured (h : Host) (name : string) : option Z :=
  match environ h !! name with
  | None => None
  | Some raw =>
      if blank raw then None
      else match PyInt.int (int_max_str_digits h) raw with
           | Ok v => Some v
           | Err _ => None
           end
  end.

(** The requested value: the configured one, or the default when the
    setting is absent, blank, not numeric, or not above zero. *)
Definition requested (h : Host) (name : string) (dflt : Z) : Z :=
  match configured h name with
  | Some v => if v <=? 0 then dflt else v
  | None => dflt
  end.

(** ** Recipients *)

(** The pieces of [s] between the characters that satisfy [is_sep]. *)
Fixpoint split_on (is_sep : ascii → bool) (s : string) : list string :=
  match s with
  | EmptyString => [EmptyString]
  | String c s' =>
      if is_sep c then EmptyString :: split_on is_sep s'
      else match split_on is_sep s' with
           | p :: ps => String c p :: ps
           | [] => [String c EmptyString]
           end
  end.

(** The recipients a field names: split on [,] and [;], each piece trimmed,
    the empty ones dropped. *)
Definition field_tokens (field : option string) : list string :=
  match field with
  | None => []
  | Some value =>
      filter (λ p, p ≠ "")
        (PyStr.strip <$>
           split_on (λ c, Ascii.eqb c "," || Ascii.eqb c ";") value)
  end.

(** What the loop of [_dedupe_keep_order] still appends, given the set of
    the items it has seen. *)
Fixpoint unseen (seen : gset string) (items : list string) : list string :=
  match items with
  | [] => []
  | x :: items' =>
      if decide (x ∈ seen) then unseen seen items'
      else x :: unseen ({[x]} ∪ seen) items'
  end.

(** ** Paths *)

Definition component_like (p : string) : Prop :=
  PyStr.contains "/" p = false ∧ p ≠ "".

(** The longest common prefix of two lists of components. *)
Fixpoint common_prefix (l1 l2 : list string) : list string :=
  match l1, l2 with
  | x :: l1', y :: l2' =>
      if String.eqb x y then x :: common_prefix l1' l2' else []
  | _, _ => []
  end.

(** A canonical path: the separator followed by its components, joined by
    single separators. *)
Definition canonical (p : string) : Prop :=
  p = "/" +:+ PyStr.join "/" (PosixPath.components p).

(** [candidate] is [root] or lies under it: it is absolute and its
    components begin with those of [root]. *)
Definition equal_or_nested (root candidate : string) : Prop :=
  PosixPath.isabs candidate = true ∧
  PosixPath.components root `prefix_of` PosixPath.components candidate.

(** ** States, logs and events *)

Definition fs_only (evs : list event) : Prop :=
  Forall (λ ev, is_network ev = false) evs.

Definition attachment_log (l : log_entry) : Prop :=
  match l with
  | LogAllowedDir _ | LogSizeLimit _ | LogAttached _ _ _ _ => True
  | _ => False
  end.

(** What the attachment stage may do: keep the headers, append its own log
    entries, and touch the file system only. *)
Definition attachment_step (st st' : State) : Prop :=
  headers (message_of st') = headers (message_of st) ∧
  (∃ ls, logs st' = logs st ++ ls ∧ Forall attachment_log ls) ∧
  (∃ evs, trace st' = trace st ++ evs ∧ fs_only evs).

(** The state after the events [evs]. *)
Definition after_events (st : State) (evs : list event) : State :=
  {| logs := logs st; message_of := message_of st;
     trace := trace st ++ evs |}.

Definition too_large (name : string) (size limit : Z) : exn :=
  Exn ValueError (AttachmentTooLarge name size limit).

(** What the loader returns for one attachment. *)
Definition load_result (h : Host) (att : gmap string pyval) (index : nat)
    (limit : Z) : result (string * list Z * option string) :=
  (_read_attachment_bytes h att index limit blank_state).1.

Definition is_Ok {A} (r : result A) : Prop :=
  match r with Ok _ => True | Err _ => False end.

(** What processing one attachment gives (lines 284-291): the part that
    [add_attachment] attaches, or the exception of the loader or of
    [add_attachment]. *)
Definition attach_result (h : Host) (att : gmap string pyval) (index : nat)
    (limit : Z) : result Part :=
  rbind (load_result h att index limit)
    (λ '(filename, payload, explicit_ct),
       let '(maintype, subtype) :=
         _guess_content_type h filename explicit_ct in
       let p := {| part_payload := payload; part_maintype := maintype;
                   part_subtype := subtype; part_filename := filename |} in
       rbind (Email.store_headers h (Email.part_headers p)) (λ _, Ok p)).

Definition no_recipients_error : CommandErrorDict :=
  {| error_code := "ValueError"; error_message := NoRecipients |}.

(** The header fields [execute] assigns, in order. *)
Definition expected_headers (self : SendHTMLEmail) : list (string * string) :=
  [("Subject", email_subject self); ("From", email_from self);
   ("To", email_to self)]
  ++ (if opt_truthy (email_cc self)
      then [("Cc", default "" (email_cc self))] else [])
  ++ (if opt_truthy (email_reply_to self)
      then [("Reply-To", default "" (email_reply_to self))] else []).

Definition header_names (m : EmailMessage) : list string :=
  fst <$> headers m.

(** The message when lines 263-277 have run without an exception. *)
Definition assembled_message (self : SendHTMLEmail) : EmailMessage :=
  {| headers := expected_headers self;
     content := email_body self;
     alternatives :=
       (if opt_truthy (email_body_html self)
        then [("html", default "" (email_body_html self))] else []);
     parts := [] |}.

(** The state when the first [try] is entered. *)
Definition initial_state (self : SendHTMLEmail) : State :=
  {| logs := []; message_of := assembled_message self; trace := [] |}.

(** The [email] package accepts the header fields of the message: each
    value has at most one line, and the header parser raises nothing for
    it. *)
Definition headers_accepted (h : Host) (self : SendHTMLEmail) : Prop :=
  Forall (λ nv, Email.header_store_parse h nv.1 nv.2 = Ok tt)
         (expected_headers self).

(** The same command with another [email_bcc]. *)
Definition with_bcc (bcc : option string) (self : SendHTMLEmail)
  : SendHTMLEmail :=
  {| smtp_host := smtp_host self; smtp_port := smtp_port self;
     smtp_user := smtp_user self; smtp_password := smtp_password self;
     smtp_starttls := smtp_starttls self;
     email_subject := email_subject self; email_body := email_body self;
     email_body_html := email_body_html self;
     email_to := email_to self; email_cc := email_cc self;
     email_bcc := bcc;
     email_from := email_from self; email_reply_to := email_reply_to self;
     attachments := attachments self |}.

(** ** Hosts and commands to compute with *)

Definition no_such_file : exn :=
  Exn FileNotFoundError (LibraryMessage "No such file or directory").

(** A host without symbolic links whose regular files are [files], whose
    working directory is the root, whose header parser raises nothing, and
    whose SMTP server accepts everything. *)
Definition sim_host (max_digits : nat) (env : gmap string string)
    (files : gmap string (list Z)) : Host :=
  {| environ := env;
     int_max_str_digits := max_digits;
     realpath := PosixPath.lexical_realpath [];
     isfile := λ p, bool_decide (is_Some (files !! p));
     getsize := λ p, match files !! p with
                     | Some b => Ok (Z.of_nat (length b))
                     | None => Err no_such_file
                     end;
     read_bytes := λ p, match files !! p with
                        | Some b => Ok b
                        | None => Err no_such_file
                        end;
     guess_type := λ _, None;
     header_factory := λ _ _, None;
     net_connect := λ _ _ _, None;
     net_starttls := None;
     net_login := λ _ _, None;
     net_send_message := λ _ _, None;
     net_quit := None |}.

Definition sample_command : SendHTMLEmail :=
  {| smtp_host := "mail.example"; smtp_port := 587;
     smtp_user := Some "user"; smtp_password := Some "secret";
     smtp_starttls := Some true;
     email_subject := "Report"; email_body := "See attachment.";
     email_body_html := None;
     email_to := "a@x,a@x"; email_cc := Some "a@x"; email_bcc := Some "b@y";
     email_from := "noreply@x"; email_reply_to := None;
     attachments := [] |}.

(** Scenario B: a path outside the default root, on a host without
    symbolic links. *)
Definition scenario_B : SendHTMLEmail :=
  {| smtp_host := "mail.example"; smtp_port := 25;
     smtp_user := None; smtp_password := None; smtp_starttls := None;
     email_subject := "Report"; email_body := "See attachment.";
     email_body_html := None;
     email_to := "a@x"; email_cc := None; email_bcc := None;
     email_from := "noreply@x"; email_reply_to := None;
     attachments :=
       [ {[ "filename" := PStr "passwd"; "path" := PStr "/etc/passwd" ]} ] |}.

(** An invocation without recipients whose only attachment names a file
    that does not exist. *)
Definition no_recipients_missing_file : SendHTMLEmail :=
  {| smtp_host := "mail.example"; smtp_port := 25;
     smtp_user := None; smtp_password := None; smtp_starttls := None;
     email_subject := "Report"; email_body := "See attachment.";
     email_body_html := None;
     email_to := ""; email_cc := Some ""; email_bcc := Some "";
     email_from := "noreply@x"; email_reply_to := None;
     attachments :=
       [ {[ "filename" := PStr "report.pdf";
            "path" := PStr "/attachments/report.pdf" ]} ] |}.

Definition no_recipients_command : SendHTMLEmail :=
  {| smtp_host := "mail.example"; smtp_port := 25;
     smtp_user := None; smtp_password := None; smtp_starttls := None;
     email_subject := "Report"; email_body := "Nothing attached.";
     email_body_html := None;
     email_to := ""; email_cc := Some ""; email_bcc := Some "";
     email_from := "noreply@x"; email_reply_to := None;
     attachments := [] |}.

(** The same command with a To of white space around a line feed. *)
Definition line_break_in_to (self : SendHTMLEmail) : SendHTMLEmail :=
  {| smtp_host := smtp_host self; smtp_port := smtp_port self;
     smtp_user := smtp_user self; smtp_password := smtp_password self;
     smtp_starttls := smtp_starttls self;
     email_subject := email_subject self; email_body := email_body self;
     email_body_html := email_body_html self;
     email_to := String " " (String "010" " ");
     email_cc := email_cc self; email_bcc := email_bcc self;
     email_from := email_from self; email_reply_to := email_reply_to self;
     attachments := attachments self |}.

Definition two_byte_file : gmap string (list Z) :=
  {[ "/attachments/a.txt" := [104; 105] ]}.

Definition two_byte_attachment : gmap string pyval :=
  {[ "filename" := PStr "a.txt"; "path" := PStr "/attachments/a.txt" ]}.

(** A dictionary that gives both sources; the inline one does not decode. *)
Definition both_sources : gmap string pyval :=
  {[ "filename" := PStr "a.txt"; "path" := PStr "/attachments/a.txt";
     "content_base64" := PStr "not base64" ]}.

(** ** Further vocabulary *)

(** Every character of [s] satisfies [P]. *)
Fixpoint all_chars (P : ascii → bool) (s : string) : bool :=
  match s with
  | EmptyString => true
  | String c s' => P c && all_chars P s'
  end.

(** The characters that separate recipients. *)
Definition is_separator (c : ascii) : bool :=
  Ascii.eqb c "," || Ascii.eqb c ";".

(** A recipient as [_split_recipients] returns them: not empty, trimmed,
    without a separator. *)
Definition clean_token (t : string) : Prop :=
  t ≠ "" ∧ PyStr.strip t = t ∧ all_chars (λ c, negb (is_separator c)) t = true.

(** The log entry for an attached part (line 292). *)
Definition attached_log (p : Part) : log_entry :=
  LogAttached (part_filename p) (part_maintype p) (part_subtype p)
    (Z.of_nat (length (part_payload p))).

(** The part [execute] attaches for the descriptor [att] at [index]: what
    the loader returns for it, typed by [_guess_content_type], with headers
    that [add_attachment] has accepted. *)
Definition part_for (h : Host) (limit : Z) (index : nat)
    (att : gmap string pyval) (p : Part) : Prop :=
  attach_result h att index limit = Ok p ∧
  load_result h att index limit
    = Ok (part_filename p, part_payload p, content_type_of att) ∧
  part_filename p = filename_of att ∧
  (part_maintype p, part_subtype p)
    = _guess_content_type h (part_filename p) (content_type_of att) ∧
  Z.of_nat (length (part_payload p)) ≤ limit.

(** ** Sessions *)

(** The events that carry the credentials or the message. *)
Definition carries_secret (ev : event) : bool :=
  match ev with
  | NetLogin _ _ | NetSendMessage _ _ => true
  | _ => false
  end.

(** No credentials and no message appear in [evs] before a STARTTLS;
    [upgraded] tells whether one has been seen already. *)
Fixpoint secrets_after_tls (upgraded : bool) (evs : list event) : bool :=
  match evs with
  | [] => true
  | NetStartTLS :: evs' => secrets_after_tls true evs'
  | ev :: evs' =>
      (negb (carries_secret ev) || upgraded) && secrets_after_tls upgraded evs'
  end.

(** An SMTP server that accepts whatever it is asked. *)
Definition accepts_everything (h : Host) : Prop :=
  (∀ host port timeout, net_connect h host port timeout = None) ∧
  net_starttls h = None ∧
  (∀ user password, net_login h user password = None) ∧
  (∀ m to_addrs, net_send_message h m to_addrs = None) ∧
  net_quit h = None.

(** [execute] upgrades the session, and logs in. *)
Definition wants_tls (self : SendHTMLEmail) : bool :=
  default false (smtp_starttls self).
Definition has_credentials (self : SendHTMLEmail) : bool :=
  opt_truthy (smtp_user self) && opt_truthy (smtp_password self).

(** The events and the log entries of a session in which nothing fails. *)
Definition session_events (self : SendHTMLEmail) (timeout : Z)
    (m : EmailMessage) (recipients : list string) : list event :=
  (if PyStr.truthy (smtp_host self)
   then [NetConnect (smtp_host self) (smtp_port self) timeout] else [])
  ++ (if wants_tls self then [NetStartTLS] else [])
  ++ (if has_credentials self
      then [NetLogin (default "" (smtp_user self))
                     (default "" (smtp_password self))] else [])
  ++ [NetSendMessage m recipients; NetQuit].

Definition session_logs (self : SendHTMLEmail) (timeout : Z)
    (recipients : list string) : list log_entry :=
  [LogWillSend timeout]
  ++ (if wants_tls self then [LogWillStartTLS] else [])
  ++ (if has_credentials self then [LogWillLogin; LogDidLogin] else [])
  ++ [LogDidSend (length recipients)].

(** A command with one attachment read from a file and one given inline. *)
Definition report_command : SendHTMLEmail :=
  {| smtp_host := "mail.example"; smtp_port := 587;
     smtp_user := Some "user"; smtp_password := Some "secret";
     smtp_starttls := Some true;
     email_subject := "Report"; email_body := "See attachments.";
     email_body_html := Some "<p>See attachments.</p>";
     email_to := "a@x; b@y"; email_cc := None; email_bcc := Some "a@x";
     email_from := "noreply@x"; email_reply_to := None;
     attachments :=
       [ {[ "filename" := PStr " a.txt "; "path" := PStr "/attachments/a.txt" ]};
         {[ "filename" := PStr "b.bin"; "content_base64" := PStr "YWJj";
            "content_type" := PStr "application/x-b" ]} ] |}.

(** A host like [sim_host] whose SMTP server refuses the connection. *)
Definition connection_refused : exn :=
  Exn (LibraryError "ConnectionRefusedError")
      (LibraryMessage "[Errno 111] Connection refused").

Definition refusing_host (files : gmap string (list Z)) : Host :=
  {| environ := ∅;
     int_max_str_digits := 4300;
     realpath := realpath (sim_host 4300 ∅ files);
     isfile := isfile (sim_host 4300 ∅ files);
     getsize := getsize (sim_host 4300 ∅ files);
     read_bytes := read_bytes (sim_host 4300 ∅ files);
     guess_type := λ _, None;
     header_factory := λ _ _, None;
     net_connect := λ _ _ _, Some connection_refused;
     net_starttls := None;
     net_login := λ _ _, None;
     net_send_message := λ _ _, None;
     net_quit := None |}.

(** The file-system events of [report_command] on a host that has its
    file. *)
Definition report_command_reads : list event :=
  [FsIsFile "/attachments/a.txt"; FsGetSize "/attachments/a.txt";
   FsRead "/attachments/a.txt"].

(** ** Decimal numerals *)

(** The value of the digits [d] read after the value [acc]. *)
Fixpoint horner (acc : Z) (d : Decimal.uint) : Z :=
  match d with
  | Decimal.Nil => acc
  | Decimal.D0 l => horner (10 * acc + 0) l
  | Decimal.D1 l => horner (10 * acc + 1) l
  | Decimal.D2 l => horner (10 * acc + 2) l
  | Decimal.D3 l => horner (10 * acc + 3) l
  | Decimal.D4 l => horner (10 * acc + 4) l
  | Decimal.D5 l => horner (10 * acc + 5) l
  | Decimal.D6 l => horner (10 * acc + 6) l
  | Decimal.D7 l => horner (10 * acc + 7) l
  | Decimal.D8 l => horner (10 * acc + 8) l
  | Decimal.D9 l => horner (10 * acc + 9) l
  end.

(** ** Order of the events of a session *)

Definition is_login (ev : event) : bool :=
  match ev with NetLogin _ _ => true | _ => false end.

Definition is_send (ev : event) : bool :=
  match ev with NetSendMessage _ _ => true | _ => false end.

(** Every send in [evs] comes after a login; [seen] tells whether a login
    has been seen already. *)
Fixpoint sends_after_login (seen : bool) (evs : list event) : bool :=
  match evs with
  | [] => true
  | ev :: evs' =>
      (negb (is_send ev) || seen)
      && sends_after_login (seen || is_login ev) evs'
  end.

(** * Properties *)

(** ** The builtins on examples *)

Example split_keeps_empty_pieces :
  PyStr.split "," ",a,,b," = [""; "a"; ""; "b"; ""].
Proof. reflexivity. Qed.

Example split_of_empty : PyStr.split "," "" = [""].
Proof. reflexivity. Qed.

Example split_ws_runs : PyStr.split_ws "  ab   c d " = ["ab"; "c"; "d"].
Proof. reflexivity. Qed.

Example strip_both_ends : PyStr.strip "  a b  " = "a b".
Proof. reflexivity. Qed.

Example endswith_suffix :
  PyStr.endswith "YQ==" "==" = true ∧ PyStr.endswith "YWI=" "==" = false.
Proof. split; reflexivity. Qed.

Example int_accepts :
  PyInt.int 4300 " +1_000 " = Ok 1000 ∧ PyInt.int 4300 "-007" = Ok (-7).
Proof. split; reflexivity. Qed.

Example int_refuses :
  PyInt.int 4300 "1__0" = Err PyInt.invalid_literal ∧
  PyInt.int 4300 "_1" = Err PyInt.invalid_literal ∧
  PyInt.int 4300 "1.5" = Err PyInt.invalid_literal ∧
  PyInt.int 4300 "+" = Err PyInt.invalid_literal.
Proof. repeat split; reflexivity. Qed.

Example commonpath_of_siblings :
  PosixPath.commonpath "/attachments" "/attachments-evil/x" = Ok "/" ∧
  PosixPath.commonpath "/attachments" "/attachments/a/b" = Ok "/attachments" ∧
  PosixPath.commonpath "/a/b/c" "/a/b/d" = Ok "/a/b".
Proof. repeat split; reflexivity. Qed.

Example lexical_realpath_steps :
  PosixPath.lexical_realpath [] "/attachments/./a//b/../c"
    = Ok "/attachments/a/c" ∧
  PosixPath.lexical_realpath [] "/../x" = Ok "/x" ∧
  PosixPath.lexical_realpath ["srv"; "app"] "../data" = Ok "/srv/data".
Proof. repeat split; reflexivity. Qed.

Example b64decode_examples :
  Base64.b64decode "YWJj" = Ok [97; 98; 99] ∧
  Base64.b64decode "YWI=" = Ok [97; 98] ∧
  Base64.b64decode "YQ==" = Ok [97] ∧
  Base64.b64decode "YWJj=" = Ok [97; 98; 99] ∧
  Base64.b64decode "YWJj========" = Ok [97; 98; 99] ∧
  Base64.b64decode "YQ=" = Err Base64.incorrect_padding ∧
  Base64.b64decode "YQ===" = Err Base64.excess_data ∧
  Base64.b64decode "YQ=a" = Err Base64.discontinuous_padding ∧
  Base64.b64decode "=" = Err Base64.leading_padding ∧
  Base64.b64decode "YW Jj" = Err Base64.only_base64 ∧
  Base64.b64decode "YWJjY" = Err (Base64.one_more 5).
Proof. repeat split; reflexivity. Qed.

Example splitlines_examples :
  PyStr.splitlines "a" = ["a"] ∧
  PyStr.splitlines (String "a" (String "010" "")) = ["a"] ∧
  PyStr.splitlines (String "a" (String "010" "b")) = ["a"; "b"] ∧
  PyStr.splitlines (String "a" (String "013" (String "010" "b"))) = ["a"; "b"] ∧
  PyStr.splitlines (String "010" (String "010" "")) = [""; ""] ∧
  PyStr.splitlines "" = [].
Proof. repeat split; reflexivity. Qed.

Example _formatparam_examples :
  Email._formatparam "filename" "a.txt"
    = "filename=" +:+ String "034" ("a.txt" +:+ String "034" "") ∧
  Email._formatparam "filename" (String "233" ".txt")
    = "filename*=utf-8''%C3%A9.txt".
Proof. split; reflexivity. Qed.

(** ** Strings *)

Module PyStrFacts.
Import PyStr.

Lemma lstrip_empty_iff s : lstrip s = "" ↔ blank s = true.
Proof.
  induction s as [|c s IH]; simpl; [done|].
  destruct (isspace c); simpl; [done|]. split; discriminate.
Qed.

Lemma rstrip_empty_iff s : rstrip s = "" ↔ blank s = true.
Proof.
  induction s as [|c s IH]; simpl; [done|].
  destruct (rstrip s) eqn:Hr.
  - destruct (isspace c); simpl.
    + split; [intros _; by apply IH | done].
    + split; discriminate.
  - split; [discriminate|]. intros [_ Hb]%andb_prop.
    apply IH in Hb. discriminate.
Qed.

Lemma blank_lstrip s : blank (lstrip s) = blank s.
Proof.
  induction s as [|c s IH]; simpl; [done|].
  destruct (isspace c) eqn:Hc; simpl; [done|]. by rewrite Hc.
Qed.

Lemma strip_empty_iff s : strip s = "" ↔ blank s = true.
Proof. unfold strip. by rewrite rstrip_empty_iff, blank_lstrip. Qed.

Lemma lstrip_no_leading_space s : no_leading_space (lstrip s).
Proof.
  induction s as [|c s IH]; simpl; [done|].
  destruct (isspace c) eqn:Hc; simpl; done.
Qed.

Lemma lstrip_id s : no_leading_space s → lstrip s = s.
Proof. destruct s as [|c s]; simpl; [done|]. by intros ->. Qed.

Lemma rstrip_no_leading_space s :
  no_leading_space s → no_leading_space (rstrip s).
Proof.
  destruct s as [|c s]; simpl; [done|]. intros Hc.
  destruct (rstrip s); simpl; [by rewrite Hc|done].
Qed.

Lemma rstrip_idem s : rstrip (rstrip s) = rstrip s.
Proof.
  induction s as [|c s IH]; simpl; [done|].
  destruct (rstrip s) as [|d r] eqn:Hr.
  - destruct (isspace c) eqn:Hc; simpl; [done|]. by rewrite Hc.
  - simpl in *. destruct (rstrip r) eqn:Hr'.
    + destruct (isspace d); [discriminate|]. by rewrite IH.
    + by rewrite IH.
Qed.

Lemma strip_idem s : strip (strip s) = strip s.
Proof.
  unfold strip. rewrite lstrip_id, rstrip_idem; [done|].
  apply rstrip_no_leading_space, lstrip_no_leading_space.
Qed.

Lemma truthy_false s : truthy s = false ↔ s = "".
Proof.
  unfold truthy. destruct (String.eqb_spec s ""); simpl; split; congruence.
Qed.

Lemma truthy_true s : truthy s = true ↔ s ≠ "".
Proof.
  unfold truthy. destruct (String.eqb_spec s ""); simpl; split; congruence.
Qed.

End PyStrFacts.

Lemma int_strip n s : PyInt.int n (PyStr.strip s) = PyInt.int n s.
Proof. unfold PyInt.int. by rewrite PyStrFacts.strip_idem. Qed.

(** ** Limit resolver *)

Lemma _env_int_configured h name dflt :
  _env_int h name dflt = Ok (default dflt (configured h name)).
Proof.
  unfold _env_int, configured. destruct (environ h !! name) as [raw|]; [|done].
  destruct (String.eqb_spec (PyStr.strip raw) "") as [He|He].
  - apply PyStrFacts.strip_empty_iff in He. by rewrite He.
  - destruct (blank raw) eqn:Hb.
    { by apply PyStrFacts.strip_empty_iff in Hb. }
    rewrite int_strip.
    by destruct (PyInt.int (int_max_str_digits h) raw).
Qed.

Lemma _get_attachments_limit_bytes_eq h :
  _get_attachments_limit_bytes h =
    Ok (Z.min (requested h ATTACHMENTS_LIMIT_ENV 100) 100 * 1024 * 1024).
Proof.
  unfold _get_attachments_limit_bytes, requested.
  rewrite _env_int_configured. simpl.
  unfold DEFAULT_ATTACHMENTS_LIMIT_MB, HARD_ATTACHMENTS_LIMIT_MB.
  by destruct (configured h ATTACHMENTS_LIMIT_ENV).
Qed.

Lemma _get_smtp_timeout_seconds_eq h :
  _get_smtp_timeout_seconds h = Ok (requested h SMTP_TIMEOUT_ENV 30).
Proof.
  unfold _get_smtp_timeout_seconds, requested.
  rewrite _env_int_configured. simpl. unfold DEFAULT_SMTP_TIMEOUT_SECONDS.
  by destruct (configured h SMTP_TIMEOUT_ENV).
Qed.

Lemma requested_pos h name dflt : 0 < dflt → 0 < requested h name dflt.
Proof.
  intros Hd. unfold requested. destruct (configured h name) as [v|]; [|done].
  destruct (Z.leb_spec v 0); lia.
Qed.

(** C6. Limit resolution never raises.  The attachment cap is the requested
    number of megabytes (default 100; the default again when the setting is
    absent, blank, not numeric, or not above zero), cut at 100 MB; the SMTP
    timeout is the requested number of seconds (default 30) under the same
    rule.  Both results are above zero. *)
Theorem limit_resolution_total (h : Host) :
  ∃ cap timeout,
    _get_attachments_limit_bytes h = Ok cap ∧
    _get_smtp_timeout_seconds h = Ok timeout ∧
    cap = Z.min (requested h ATTACHMENTS_LIMIT_ENV 100 * (1024 * 1024))
                (100 * (1024 * 1024)) ∧
    timeout = requested h SMTP_TIMEOUT_ENV 30 ∧
    0 < cap ∧ 0 < timeout.
Proof.
  eexists _, _. split; [apply _get_attachments_limit_bytes_eq|].
  split; [apply _get_smtp_timeout_seconds_eq|].
  pose proof (requested_pos h ATTACHMENTS_LIMIT_ENV 100).
  pose proof (requested_pos h SMTP_TIMEOUT_ENV 30).
  repeat split; lia.
Qed.

(** *** The timeout has no ceiling *)

Lemma digits_zeros n acc count :
  PyInt.digits acc count true (zeros n) =
    Some (acc * 10 ^ Z.of_nat n, (count + n)%nat).
Proof.
  revert acc count. induction n as [|n IH]; intros acc count.
  - simpl. do 2 f_equal; lia.
  - cbn [zeros PyInt.digits]. change (Ascii.eqb "0" "_") with false.
    change (PyInt.digit "0") with (Some 0). cbv iota. rewrite IH.
    rewrite Nat2Z.inj_succ, Z.pow_succ_r by lia. do 2 f_equal; lia.
Qed.

Lemma rstrip_one_zeros n :
  PyStr.rstrip (String "1" (zeros n)) = String "1" (zeros n).
Proof.
  assert (Hz : ∀ m, PyStr.rstrip (zeros (S m)) = zeros (S m)).
  { induction m as [|m IH]; [done|].
    change (zeros (S (S m))) with (String "0" (zeros (S m))).
    cbn [PyStr.rstrip]. rewrite IH. done. }
  destruct n as [|n]; [done|].
  cbn [PyStr.rstrip]. by rewrite Hz.
Qed.

Lemma int_power_of_ten n :
  PyInt.int 0 (String "1" (zeros n)) = Ok (10 ^ Z.of_nat n).
Proof.
  unfold PyInt.int, PyStr.strip. change (PyStr.lstrip (String "1" (zeros n)))
    with (String "1" (zeros n)).
  rewrite rstrip_one_zeros. cbn [PyInt.digits].
  change (Ascii.eqb "1" "_") with false.
  change (PyInt.digit "1") with (Some 1). cbv iota.
  rewrite digits_zeros. simpl. f_equal. lia.
Qed.

Lemma timeout_power_of_ten n :
  _get_smtp_timeout_seconds
    (sim_host 0 {[ SMTP_TIMEOUT_ENV := String "1" (zeros n) ]} ∅)
  = Ok (10 ^ Z.of_nat n).
Proof.
  rewrite _get_smtp_timeout_seconds_eq. f_equal.
  unfold requested, configured. simpl. rewrite lookup_singleton_eq.
  change (blank (String "1" (zeros n))) with false. cbv iota.
  rewrite int_power_of_ten.
  assert (0 < 10 ^ Z.of_nat n) by (apply Z.pow_pos_nonneg; lia).
  destruct (Z.leb_spec (10 ^ Z.of_nat n) 0); [lia|done].
Qed.

(** C7, as stated, fails for the timeout: whatever ceiling is proposed, some
    configuration makes the resolver return a larger timeout. *)
Lemma timeout_has_no_ceiling :
  ¬ ∃ ceiling : Z, ∀ h timeout,
      _get_smtp_timeout_seconds h = Ok timeout → timeout ≤ ceiling.
Proof.
  intros [ceiling Hc].
  specialize (Hc _ _ (timeout_power_of_ten (Z.to_nat ceiling))).
  assert (Z.of_nat (Z.to_nat ceiling) < 10 ^ Z.of_nat (Z.to_nat ceiling))
    by (apply Z.pow_gt_lin_r; lia).
  lia.
Qed.

(** C7, amended.  The attachment cap never exceeds the hard maximum of
    100 MB.  The timeout is not cut: every configured value above zero is
    returned as it is. *)
Theorem cap_clamped_timeout_passed_through (h : Host) :
  (∃ cap, _get_attachments_limit_bytes h = Ok cap ∧
          cap ≤ HARD_ATTACHMENTS_LIMIT_MB * 1024 * 1024) ∧
  (∀ v, configured h SMTP_TIMEOUT_ENV = Some v → 0 < v →
        _get_smtp_timeout_seconds h = Ok v).
Proof.
  split.
  - eexists. split; [apply _get_attachments_limit_bytes_eq|].
    unfold HARD_ATTACHMENTS_LIMIT_MB. lia.
  - intros v Hv Hpos. rewrite _get_smtp_timeout_seconds_eq.
    unfold requested. rewrite Hv. destruct (Z.leb_spec v 0); [lia|done].
Qed.

Example timeout_one_day_at_default_digit_limit :
  _get_smtp_timeout_seconds
    (sim_host 4300 {[ SMTP_TIMEOUT_ENV := "86400" ]} ∅) = Ok 86400.
Proof. vm_compute. reflexivity. Qed.

Lemma cap_clamped_timeout_passed_through_witness :
  _get_smtp_timeout_seconds
    (sim_host 4300 {[ SMTP_TIMEOUT_ENV := "45" ]} ∅) = Ok 45.
Proof.
  apply (proj2 (cap_clamped_timeout_passed_through
                  (sim_host 4300 {[ SMTP_TIMEOUT_ENV := "45" ]} ∅)) 45).
  - vm_compute. reflexivity.
  - lia.
Defined.

(** ** Recipient resolver *)

Lemma split_replace_semicolon s :
  PyStr.split "," (PyStr.replace ";" "," s) =
    split_on (λ c, Ascii.eqb c "," || Ascii.eqb c ";") s.
Proof.
  induction s as [|c s IH]; [done|].
  cbn [PyStr.replace PyStr.split split_on]. rewrite IH.
  destruct (Ascii.eqb_spec c ";") as [->|Hsemi]; [done|].
  by rewrite orb_false_r.
Qed.

Lemma _split_recipients_tokens field :
  _split_recipients field = field_tokens field.
Proof.
  unfold _split_recipients, field_tokens.
  destruct field as [value|]; [|done]. simpl.
  destruct (PyStr.truthy value) eqn:Hv; simpl.
  - by rewrite split_replace_semicolon.
  - apply PyStrFacts.truthy_false in Hv as ->. done.
Qed.

Lemma dedupe_loop_unseen seen out items :
  dedupe_loop seen out items = out ++ unseen seen items.
Proof.
  revert seen out. induction items as [|x items IH]; intros seen out; simpl.
  - by rewrite app_nil_r.
  - destruct (decide (x ∈ seen)); [apply IH|].
    rewrite IH. by rewrite <- app_assoc.
Qed.

Lemma _dedupe_keep_order_unseen items :
  _dedupe_keep_order items = unseen ∅ items.
Proof. unfold _dedupe_keep_order. by rewrite dedupe_loop_unseen. Qed.

Lemma elem_of_unseen seen items x :
  x ∈ unseen seen items ↔ x ∈ items ∧ x ∉ seen.
Proof.
  revert seen. induction items as [|y items IH]; intros seen; simpl.
  - set_solver.
  - destruct (decide (y ∈ seen)).
    + rewrite IH. set_solver.
    + rewrite elem_of_cons, IH, elem_of_cons.
      destruct (decide (x = y)); set_solver.
Qed.

Lemma NoDup_unseen seen items : NoDup (unseen seen items).
Proof.
  revert seen. induction items as [|y items IH]; intros seen; simpl.
  - constructor.
  - destruct (decide (y ∈ seen)); [apply IH|].
    constructor; [|apply IH]. rewrite elem_of_unseen. set_solver.
Qed.

Lemma unseen_app seen l1 l2 :
  unseen seen (l1 ++ l2) =
    unseen seen l1 ++ unseen (list_to_set l1 ∪ seen) l2.
Proof.
  revert seen. induction l1 as [|y l1 IH]; intros seen; simpl.
  - f_equal. set_solver.
  - destruct (decide (y ∈ seen)).
    + rewrite IH. do 2 f_equal. set_solver.
    + simpl. rewrite IH. do 3 f_equal. set_solver.
Qed.

Lemma unseen_drop_seen seen l1 l2 x :
  x ∈ seen → unseen seen (l1 ++ x :: l2) = unseen seen (l1 ++ l2).
Proof.
  intros Hx. rewrite !unseen_app. f_equal. simpl.
  destruct (decide (x ∈ list_to_set l1 ∪ seen)); [done|set_solver].
Qed.

Lemma dedupe_nil : _dedupe_keep_order [] = [].
Proof. done. Qed.

Lemma dedupe_snoc l x :
  _dedupe_keep_order (l ++ [x]) =
    if decide (x ∈ l) then _dedupe_keep_order l
    else _dedupe_keep_order l ++ [x].
Proof.
  rewrite !_dedupe_keep_order_unseen, unseen_app. simpl.
  destruct (decide (x ∈ list_to_set l ∪ ∅)) as [Hin|Hin];
    destruct (decide (x ∈ l)) as [Hl|Hl].
  - by rewrite app_nil_r.
  - set_solver.
  - set_solver.
  - done.
Qed.

Lemma dedupe_later_duplicate l1 l2 l3 x :
  x ∈ l1 →
  _dedupe_keep_order (l1 ++ l2 ++ x :: l3) =
    _dedupe_keep_order (l1 ++ l2 ++ l3).
Proof.
  intros Hx. rewrite !_dedupe_keep_order_unseen.
  rewrite (unseen_app _ l1 (l2 ++ x :: l3)), (unseen_app _ l1 (l2 ++ l3)).
  f_equal. apply unseen_drop_seen. set_solver.
Qed.

Lemma dedupe_idempotent l :
  _dedupe_keep_order (_dedupe_keep_order l) = _dedupe_keep_order l.
Proof.
  rewrite !_dedupe_keep_order_unseen.
  assert (H : ∀ l seen, NoDup l → (∀ x, x ∈ l → x ∉ seen) →
                        unseen seen l = l).
  { clear. induction l as [|y l IH]; intros seen Hnd Hs; [done|]. simpl.
    apply NoDup_cons in Hnd as [Hy Hnd].
    destruct (decide (y ∈ seen)); [set_solver|].
    f_equal. apply IH; [done|]. set_solver. }
  apply H; [apply NoDup_unseen|]. set_solver.
Qed.

Lemma envelope_recipients_tokens self :
  envelope_recipients self =
    _dedupe_keep_order
      (field_tokens (Some (email_to self)) ++ field_tokens (email_cc self)
       ++ field_tokens (email_bcc self)).
Proof.
  unfold envelope_recipients. by rewrite !_split_recipients_tokens.
Qed.

Lemma elem_of_envelope_recipients self x :
  x ∈ envelope_recipients self ↔
  x ∈ field_tokens (Some (email_to self)) ++ field_tokens (email_cc self)
      ++ field_tokens (email_bcc self).
Proof.
  rewrite envelope_recipients_tokens, _dedupe_keep_order_unseen,
    elem_of_unseen.
  set_solver.
Qed.

(** C8. The envelope is the tokens of To, then Cc, then Bcc (each field
    split on [,] and [;], trimmed, empty tokens dropped), with every token
    kept at its first occurrence only: no token twice, the same tokens, in
    the order the loop meets them.  An entry that repeats an earlier one
    changes nothing, wherever it stands;
    [("a@x,a@x", "a@x", "")] resolves to [["a@x"]]. *)
Theorem envelope_resolution (self : SendHTMLEmail) :
  let tokens := field_tokens (Some (email_to self))
                ++ field_tokens (email_cc self)
                ++ field_tokens (email_bcc self) in
  envelope_recipients self = _dedupe_keep_order tokens ∧
  NoDup (envelope_recipients self) ∧
  (∀ x, x ∈ envelope_recipients self ↔ x ∈ tokens) ∧
  _dedupe_keep_order [] = [] ∧
  (∀ l x, _dedupe_keep_order (l ++ [x]) =
          if decide (x ∈ l) then _dedupe_keep_order l
          else _dedupe_keep_order l ++ [x]) ∧
  (∀ l1 l2 l3 x, x ∈ l1 →
     _dedupe_keep_order (l1 ++ l2 ++ x :: l3) =
       _dedupe_keep_order (l1 ++ l2 ++ l3)) ∧
  _dedupe_keep_order
    (_split_recipients (Some "a@x,a@x") ++ _split_recipients (Some "a@x")
     ++ _split_recipients (Some "")) = ["a@x"].
Proof.
  intros tokens.
  split; [apply envelope_recipients_tokens|].
  split.
  { rewrite envelope_recipients_tokens, _dedupe_keep_order_unseen.
    apply NoDup_unseen. }
  split; [apply elem_of_envelope_recipients|].
  split; [done|].
  split; [apply dedupe_snoc|].
  split; [apply dedupe_later_duplicate|].
  vm_compute. reflexivity.
Qed.

Lemma envelope_resolution_witness :
  _dedupe_keep_order (["a@x"] ++ ["b@y"] ++ "a@x" :: ["c@z"]) =
    _dedupe_keep_order (["a@x"] ++ ["b@y"] ++ ["c@z"]).
Proof.
  apply (envelope_resolution sample_command).
  apply list_elem_of_here.
Defined.

(** ** What the stages do to the state *)

Ltac unfold_M :=
  unfold call, emit, log, update_message, get_message, raise, lift,
    mbind, M_bind, mret, M_ret in *.

Ltac step_M := repeat (case_match; simplify_eq/=; try done).

(** Closes [∃ xs, l ++ ... = l ++ xs ∧ Forall P xs] for explicit lists. *)
Ltac solve_extension :=
  rewrite <- ?app_assoc;
  first [ by (exists []; split; [by rewrite app_nil_r | constructor])
        | by (eexists; split; [reflexivity | repeat constructor]) ].

(** The loader touches neither the log nor the message, and only the file
    system. *)
Lemma _read_attachment_bytes_state h att i limit st r st' :
  _read_attachment_bytes h att i limit st = (r, st') →
  logs st' = logs st ∧ message_of st' = message_of st ∧
  ∃ evs, trace st' = trace st ++ evs ∧ fs_only evs.
Proof.
  unfold _read_attachment_bytes, filename_of, fs_only. unfold_M. intros H.
  step_M; (split; [done|]; split; [done|]); solve_extension.
Qed.

(** What the loader returns does not depend on the state it starts in. *)
Lemma _read_attachment_bytes_result h att i limit st1 st2 :
  (_read_attachment_bytes h att i limit st1).1 =
  (_read_attachment_bytes h att i limit st2).1.
Proof.
  unfold _read_attachment_bytes, filename_of. unfold_M. step_M.
Qed.

Lemma attachment_step_refl st : attachment_step st st.
Proof.
  split; [done|].
  split; exists []; (split; [by rewrite app_nil_r | constructor]).
Qed.

Lemma attachment_step_trans st1 st2 st3 :
  attachment_step st1 st2 → attachment_step st2 st3 → attachment_step st1 st3.
Proof.
  intros (Hh1 & (ls1 & Hl1 & Hf1) & (ev1 & Ht1 & Hn1))
         (Hh2 & (ls2 & Hl2 & Hf2) & (ev2 & Ht2 & Hn2)).
  split; [congruence|]. split.
  - exists (ls1 ++ ls2). rewrite Hl2, Hl1, app_assoc. split; [done|].
    by apply Forall_app.
  - exists (ev1 ++ ev2). rewrite Ht2, Ht1, app_assoc. split; [done|].
    by apply Forall_app.
Qed.

(** [message[name] = value] either raises and leaves the message as it is,
    or appends the header. *)
Lemma set_header_run h name value st :
  set_header h name value st =
    match Email.header_store_parse h name value with
    | Ok _ => (Ok tt, {| logs := logs st;
                         message_of := with_header name value (message_of st);
                         trace := trace st |})
    | Err e => (Err e, st)
    end.
Proof.
  unfold set_header. unfold_M.
  by destruct (Email.header_store_parse h name value) as [[]|].
Qed.

Lemma add_attachment_run h p st :
  add_attachment h p st =
    match Email.store_headers h (Email.part_headers p) with
    | Ok _ => (Ok tt, {| logs := logs st;
                         message_of := attach p (message_of st);
                         trace := trace st |})
    | Err e => (Err e, st)
    end.
Proof.
  unfold add_attachment. unfold_M.
  by destruct (Email.store_headers h (Email.part_headers p)) as [[]|].
Qed.

Lemma attach_loop_state h limit atts i st r st' :
  attach_loop h limit i atts st = (r, st') → attachment_step st st'.
Proof.
  revert i st. induction atts as [|att atts IH]; intros i st H.
  - cbn in H. unfold_M. simplify_eq. apply attachment_step_refl.
  - cbn [attach_loop] in H. unfold mbind, M_bind in H.
    destruct (_read_attachment_bytes h att i limit st)
      as [[[[filename payload] ct]|e] st1] eqn:Hload;
      apply _read_attachment_bytes_state in Hload
        as (Hl & Hm & evs & Ht & Hfs).
    + destruct (_guess_content_type h filename ct) as [maintype subtype].
      rewrite add_attachment_run in H.
      destruct (Email.store_headers h _) as [[]|e].
      * unfold_M. apply IH in H. eapply attachment_step_trans; [|exact H].
        split; [simpl; by rewrite Hm|]. split; simpl.
        -- eexists. rewrite Hl. split; [done|]. by repeat constructor.
        -- by exists evs.
      * simplify_eq. split; [by rewrite Hm|].
        split; [exists []; split; [by rewrite app_nil_r|constructor]
               |by exists evs].
    + simplify_eq. split; [by rewrite Hm|].
      split; [exists []; split; [by rewrite app_nil_r|constructor]
             |by exists evs].
Qed.

Lemma attachment_stage_state h self limit st r st' :
  attachment_stage h self limit st = (r, st') → attachment_step st st'.
Proof.
  unfold attachment_stage. unfold_M.
  destruct (realpath h (ALLOWED_ATTACHMENTS_DIR h)) as [allowed|e]; intros H.
  - apply attach_loop_state in H. eapply attachment_step_trans; [|exact H].
    split; [done|]. split; simpl.
    + rewrite <- app_assoc. eexists. split; [done|]. by repeat constructor.
    + exists []. split; [by rewrite app_nil_r|constructor].
  - simplify_eq. apply attachment_step_refl.
Qed.

(** What the delivery stage may do: keep the message, and send nothing but
    that message to the given recipients. *)
Lemma delivery_stage_state h self timeout recipients st r st' :
  delivery_stage h self timeout recipients st = (r, st') →
  message_of st' = message_of st ∧
  ∃ evs, trace st' = trace st ++ evs ∧
    Forall (λ ev, ∀ m to_addrs, ev = NetSendMessage m to_addrs →
                    m = message_of st ∧ to_addrs = recipients) evs.
Proof.
  unfold delivery_stage, with_SMTP, then_quit. unfold_M. intros H.
  step_M; (split; [done|]); rewrite <- ?app_assoc;
    (eexists; split; [reflexivity|]);
    repeat (constructor; [by intros ?? [= <- <-] || by intros ?? [=]|]);
    constructor.
Qed.

(** ** [execute] *)

(** One turn of the loop: the attachment is processed and attached, or its
    exception ends the loop. *)
Lemma attach_loop_step h limit a atts i st :
  (∃ p st1,
     attach_result h a i limit = Ok p ∧
     logs st1 = logs st ++ [attached_log p] ∧
     message_of st1 = attach p (message_of st) ∧
     (∃ evs, trace st1 = trace st ++ evs ∧ fs_only evs) ∧
     attach_loop h limit i (a :: atts) st
       = attach_loop h limit (S i) atts st1) ∨
  (∃ e st1,
     attach_result h a i limit = Err e ∧
     attach_loop h limit i (a :: atts) st = (Err e, st1)).
Proof.
  cbn [attach_loop]. unfold mbind, M_bind, attach_result, load_result.
  rewrite (_read_attachment_bytes_result _ _ _ _ blank_state st).
  destruct (_read_attachment_bytes h a i limit st)
    as [[[[filename payload] ct]|e] st1] eqn:Hload; cbn [fst rbind].
  2: { right. by eexists _, _. }
  apply _read_attachment_bytes_state in Hload as (Hl & Hm & evs & Ht & Hfs).
  destruct (_guess_content_type h filename ct) as [maintype subtype].
  rewrite add_attachment_run.
  destruct (Email.store_headers h _) as [[]|e]; cbn [rbind].
  2: { right. by eexists _, _. }
  left. unfold_M.
  set (p := {| part_payload := payload; part_maintype := maintype;
               part_subtype := subtype; part_filename := filename |}).
  exists p, {| logs := logs st1 ++ [attached_log p];
               message_of := attach p (message_of st1);
               trace := trace st1 |}.
  cbn. rewrite Hl, Hm. split; [done|]. split; [done|]. split; [done|].
  split; [|done]. by exists evs.
Qed.

Lemma attach_loop_fails h limit atts :
  ∀ i0 st k att e,
    atts !! k = Some att →
    attach_result h att (i0 + k) limit = Err e →
    ∃ exc st',
      attach_loop h limit i0 atts st = (Err exc, st') ∧
      ((∀ j att', (j < k)%nat → atts !! j = Some att' →
                  is_Ok (attach_result h att' (i0 + j) limit)) → exc = e).
Proof.
  induction atts as [|a atts IH]; intros i0 st k att e Hk He; [done|].
  destruct (attach_loop_step h limit a atts i0 st)
    as [(p & st1 & Hp & _ & _ & _ & ->)|(e0 & st1 & He0 & ->)].
  - destruct k as [|k].
    { simplify_eq/=. rewrite Nat.add_0_r in He. congruence. }
    simpl in Hk.
    replace (i0 + S k)%nat with (S i0 + k)%nat in He by lia.
    edestruct (IH (S i0) st1) as (exc & st' & Hrun & Hfirst); [done..|].
    eexists _, _. split; [exact Hrun|]. intros Hprev. apply Hfirst.
    intros j att' Hj Hatt'.
    replace (S i0 + j)%nat with (i0 + S j)%nat by lia.
    apply (Hprev (S j)); [lia|done].
  - eexists _, _. split; [done|]. intros Hprev.
    destruct k as [|k].
    + simplify_eq/=. rewrite Nat.add_0_r in He. congruence.
    + specialize (Hprev 0%nat a ltac:(lia) eq_refl).
      rewrite Nat.add_0_r, He0 in Hprev. done.
Qed.

Lemma attachment_log_not_will_send l :
  attachment_log l →
  (∀ t, l ≠ LogWillSend t) ∧
  PyStr.startswith (log_prefix l) "will send" = false.
Proof. destruct l; simpl; try done; intros _; split; done. Qed.

Lemma attachment_stage_fails h self limit st i att e :
  attachments self !! i = Some att →
  attach_result h att i limit = Err e →
  ∃ exc st',
    attachment_stage h self limit st = (Err exc, st') ∧
    (is_Ok (realpath h (ALLOWED_ATTACHMENTS_DIR h)) →
     (∀ j att', (j < i)%nat → attachments self !! j = Some att' →
                is_Ok (attach_result h att' j limit)) → exc = e).
Proof.
  intros Hi He. unfold attachment_stage. unfold_M.
  destruct (realpath h (ALLOWED_ATTACHMENTS_DIR h)) as [allowed|e0].
  - edestruct (attach_loop_fails h limit (attachments self) 0)
      as (exc & st' & Hrun & Hfirst); [exact Hi|exact He|].
    eexists _, _. split; [exact Hrun|]. intros _ Hprev. by apply Hfirst.
  - eexists _, _. split; [done|]. by intros [].
Qed.

Lemma fs_only_no_connect evs host port timeout :
  fs_only evs → NetConnect host port timeout ∉ evs.
Proof.
  intros Hfs Hin. unfold fs_only in Hfs. rewrite Forall_forall in Hfs.
  by apply Hfs in Hin.
Qed.

(** *** Assembling the message *)

Ltac build_step :=
  first
    [ rewrite set_header_run
    | match goal with
      | |- context [Email.header_store_parse ?h ?n ?v] =>
          destruct (Email.header_store_parse h n v) as [[]|?] eqn:?
      end
    | match goal with
      | |- context [opt_truthy ?o] => destruct (opt_truthy o) eqn:?
      end ].

(** Lines 263-277 store the headers in order and stop at the first one the
    package refuses; the exception is that header's.  They write no log
    entry and cause no event. *)
Lemma build_message_cases h self :
  (headers_accepted h self ∧
   build_message h self blank_state = (Ok tt, initial_state self)) ∨
  (¬ headers_accepted h self ∧
   ∃ e m name value,
     build_message h self blank_state
       = (Err e, {| logs := []; message_of := m; trace := [] |}) ∧
     headers m `prefix_of` expected_headers self ∧
     parts m = [] ∧
     (name, value) ∈ expected_headers self ∧
     Email.header_store_parse h name value = Err e).
Proof.
  unfold build_message, headers_accepted, initial_state, assembled_message,
    blank_state.
  unfold expected_headers, mbind, M_bind, mret, M_ret, update_message.
  repeat build_step; cbn.
  all: first
    [ left; split; [by repeat constructor|reflexivity]
    | right; split;
      [ rewrite ?Forall_app, ?Forall_cons; cbn; intros ?; destruct_and!;
        congruence
      | eexists _, _, _, _; split; [reflexivity|]; cbn;
        split; [by eexists|]; split; [done|]; split; [|eassumption];
        set_solver ] ].
Qed.

Lemma build_message_accepted h self :
  headers_accepted h self →
  build_message h self blank_state = (Ok tt, initial_state self).
Proof.
  intros Hacc.
  by destruct (build_message_cases h self) as [[_ ?]|[Hnot _]].
Qed.

Lemma build_message_with_bcc h self bcc :
  build_message h (with_bcc bcc self) = build_message h self.
Proof. reflexivity. Qed.

(** *** The ways through [execute] *)

(** The headers are refused and [execute] raises; the attachment stage
    fails; it succeeds and there is no recipient; it succeeds and the
    delivery stage runs. *)
Lemma execute_cases h self :
  ∃ limit timeout,
    _get_attachments_limit_bytes h = Ok limit ∧
    _get_smtp_timeout_seconds h = Ok timeout ∧
    ((¬ headers_accepted h self ∧
      ∃ e m name value,
        execute h self
          = (Err e, {| logs := []; message_of := m; trace := [] |}) ∧
        headers m `prefix_of` expected_headers self ∧
        (name, value) ∈ expected_headers self ∧
        Email.header_store_parse h name value = Err e) ∨
     (headers_accepted h self ∧
      ∃ r2 st2,
        attachment_stage h self limit (initial_state self) = (r2, st2) ∧
        match r2 with
        | Err exc =>
            execute h self =
              (Ok (response (Some (error_of exc))
                     (logs st2 ++ [LogAttachmentError (exn_message exc)])),
               {| logs := logs st2 ++ [LogAttachmentError (exn_message exc)];
                  message_of := message_of st2; trace := trace st2 |})
        | Ok _ =>
            match envelope_recipients self with
            | [] =>
                execute h self =
                  (Ok (response (Some no_recipients_error) (logs st2)), st2)
            | _ :: _ =>
                ∃ r3 st3,
                  delivery_stage h self timeout (envelope_recipients self) st2
                    = (r3, st3) ∧
                  execute h self =
                    match r3 with
                    | Ok _ => (Ok (response None (logs st3)), st3)
                    | Err exc =>
                        (Ok (response (Some (error_of exc))
                               (logs st3 ++ [LogDidError (exn_message exc)])),
                         {| logs := logs st3
                                    ++ [LogDidError (exn_message exc)];
                            message_of := message_of st3;
                            trace := trace st3 |})
                    end
            end
        end)).
Proof.
  exists (Z.min (requested h ATTACHMENTS_LIMIT_ENV 100) 100 * 1024 * 1024),
    (requested h SMTP_TIMEOUT_ENV 30).
  split; [apply _get_attachments_limit_bytes_eq|].
  split; [apply _get_smtp_timeout_seconds_eq|].
  unfold execute.
  rewrite _get_attachments_limit_bytes_eq, _get_smtp_timeout_seconds_eq.
  destruct (build_message_cases h self)
    as [[Hacc ->]|[Hnot (e & m & name & value & -> & Hpre & _ & Hin & He)]].
  2: { left. split; [done|]. by eexists _, _, _, _. }
  right. split; [done|].
  destruct (attachment_stage h self
              (Z.min (requested h ATTACHMENTS_LIMIT_ENV 100) 100 * 1024 * 1024)
              (initial_state self)) as [r2 st2] eqn:Hstage.
  exists r2, st2. split; [done|].
  destruct r2 as [[]|exc]; [|reflexivity].
  destruct (envelope_recipients self) as [|x rcpts]; [reflexivity|].
  destruct (delivery_stage h self (requested h SMTP_TIMEOUT_ENV 30)
              (x :: rcpts) st2) as [[[]|exc] st3] eqn:Hd;
    by eexists _, _.
Qed.

(** No log entry of any invocation before the delivery stage is a "will
    send", and no event before it is a network event. *)
Lemma execute_accepted h self limit r2 st2 :
  _get_attachments_limit_bytes h = Ok limit →
  headers_accepted h self →
  attachment_stage h self limit (initial_state self) = (r2, st2) →
  execute h self =
    match r2 with
    | Err exc =>
        (Ok (response (Some (error_of exc))
               (logs st2 ++ [LogAttachmentError (exn_message exc)])),
         {| logs := logs st2 ++ [LogAttachmentError (exn_message exc)];
            message_of := message_of st2; trace := trace st2 |})
    | Ok _ =>
        match envelope_recipients self with
        | [] => (Ok (response (Some no_recipients_error) (logs st2)), st2)
        | _ :: _ =>
            match delivery_stage h self (requested h SMTP_TIMEOUT_ENV 30)
                    (envelope_recipients self) st2 with
            | (Err exc, st3) =>
                (Ok (response (Some (error_of exc))
                       (logs st3 ++ [LogDidError (exn_message exc)])),
                 {| logs := logs st3 ++ [LogDidError (exn_message exc)];
                    message_of := message_of st3; trace := trace st3 |})
            | (Ok _, st3) => (Ok (response None (logs st3)), st3)
            end
        end
    end.
Proof.
  intros Hlimit Hacc Hstage. unfold execute.
  rewrite Hlimit, _get_smtp_timeout_seconds_eq,
    (build_message_accepted _ _ Hacc), Hstage.
  destruct r2 as [[]|exc]; [|reflexivity].
  by destruct (envelope_recipients self).
Qed.

(** C5. When the processing of some attachment fails, in the loader or in
    [add_attachment], no delivery is attempted: the log of the invocation
    has no "will send" entry and the invocation has touched the network not
    at all, so no SMTP connection is opened.  The attachments are processed
    once lines 263-277 have stored the headers of the message; then
    [execute] returns a response that carries the error of the attachment
    stage (the error of that attachment when the ones before it are
    attached), and its log ends with the attachment error. *)
Theorem attachment_failure_aborts (h : Host) (self : SendHTMLEmail)
    (limit : Z) (i : nat) (att : gmap string pyval) (e : exn) :
  _get_attachments_limit_bytes h = Ok limit →
  attachments self !! i = Some att →
  attach_result h att i limit = Err e →
  ((∀ l, l ∈ logs (execute h self).2 →
         (∀ t, l ≠ LogWillSend t) ∧
         PyStr.startswith (log_prefix l) "will send" = false) ∧
   fs_only (trace (execute h self).2) ∧
   (∀ host port timeout,
      NetConnect host port timeout ∉ trace (execute h self).2)) ∧
  (headers_accepted h self →
   ∃ exc resp st,
     execute h self = (Ok resp, st) ∧
     error resp = Some (error_of exc) ∧
     spiff__logs resp = logs st ∧
     last (spiff__logs resp) = Some (LogAttachmentError (exn_message exc)) ∧
     (is_Ok (realpath h (ALLOWED_ATTACHMENTS_DIR h)) →
      (∀ j att', (j < i)%nat → attachments self !! j = Some att' →
                 is_Ok (attach_result h att' j limit)) → exc = e)).
Proof.
  intros Hlimit Hi He.
  destruct (attachment_stage_fails h self limit (initial_state self) i att e)
    as (exc & st2 & Hstage & Hfirst); [done..|].
  pose proof (attachment_stage_state _ _ _ _ _ _ Hstage)
    as (_ & (ls & Hls & Hatt) & (evs & Hevs & Hfs)).
  simpl in Hls, Hevs.
  assert (Hquiet :
    (∀ l, l ∈ logs (execute h self).2 →
          (∀ t, l ≠ LogWillSend t) ∧
          PyStr.startswith (log_prefix l) "will send" = false) ∧
    fs_only (trace (execute h self).2)).
  { destruct (build_message_cases h self)
      as [[Hacc _]|[_ (e0 & m & _ & _ & Hrun & _)]].
    - rewrite (execute_accepted _ _ _ _ _ Hlimit Hacc Hstage). simpl.
      split; [|by rewrite Hevs].
      intros l. rewrite Hls, elem_of_app, list_elem_of_singleton.
      intros [Hl| ->]; [|done].
      apply attachment_log_not_will_send.
      rewrite Forall_forall in Hatt. by apply Hatt.
    - unfold execute.
      rewrite Hlimit, _get_smtp_timeout_seconds_eq, Hrun. simpl.
      split; [by intros l ?%elem_of_nil|constructor]. }
  destruct Hquiet as [Hlogs Hnet].
  split.
  { split; [done|]. split; [done|].
    intros host port timeout. by apply fs_only_no_connect. }
  intros Hacc. rewrite (execute_accepted _ _ _ _ _ Hlimit Hacc Hstage).
  eexists exc, _, _. split; [reflexivity|]. simpl.
  split; [done|]. split; [done|]. split; [by rewrite last_snoc|done].
Qed.

Example scenario_B_result :
  execute (sim_host 4300 ∅ {[ "/etc/passwd" := [114; 111; 111; 116] ]})
          scenario_B =
  (Ok (response
         (Some {| error_code := "ValueError";
                  error_message := OutsideRoot "/attachments" "/etc/passwd" |})
         [LogAllowedDir "/attachments"; LogSizeLimit 104857600;
          LogAttachmentError (OutsideRoot "/attachments" "/etc/passwd")]),
   {| logs := [LogAllowedDir "/attachments"; LogSizeLimit 104857600;
               LogAttachmentError (OutsideRoot "/attachments" "/etc/passwd")];
      message_of := assembled_message scenario_B;
      trace := [] |}).
Proof. vm_compute. reflexivity. Qed.

(** A content type of two lines: the loader succeeds, [add_attachment]
    raises, and the error is reported as an attachment error. *)
Example line_break_in_content_type :
  (execute (sim_host 4300 ∅ two_byte_file)
     {| smtp_host := "mail.example"; smtp_port := 25;
        smtp_user := None; smtp_password := None; smtp_starttls := None;
        email_subject := "Report"; email_body := "See attachment.";
        email_body_html := None;
        email_to := "a@x"; email_cc := None; email_bcc := None;
        email_from := "noreply@x"; email_reply_to := None;
        attachments :=
          [ {[ "filename" := PStr "a.txt";
               "path" := PStr "/attachments/a.txt";
               "content_type" :=
                 PStr ("text/plain" +:+ String "010" "x") ]} ] |}) =
  (Ok (response
         (Some {| error_code := "ValueError";
                  error_message := exn_message Email.line_break_error |})
         [LogAllowedDir "/attachments"; LogSizeLimit 104857600;
          LogAttachmentError (exn_message Email.line_break_error)]),
   {| logs := [LogAllowedDir "/attachments"; LogSizeLimit 104857600;
               LogAttachmentError (exn_message Email.line_break_error)];
      message_of :=
        {| headers := [("Subject", "Report"); ("From", "noreply@x");
                       ("To", "a@x")];
           content := "See attachment."; alternatives := []; parts := [] |};
      trace := [FsIsFile "/attachments/a.txt"; FsGetSize "/attachments/a.txt";
                FsRead "/attachments/a.txt"] |}).
Proof. vm_compute. reflexivity. Qed.

Lemma sim_host_accepts_headers n env files self :
  Forall (λ nv, (length (PyStr.splitlines nv.2) ≤ 1)%nat)
         (expected_headers self) →
  headers_accepted (sim_host n env files) self.
Proof.
  unfold headers_accepted. intros Hlines.
  eapply Forall_impl; [exact Hlines|]. intros [name value] Hone.
  unfold Email.header_store_parse. simpl in *.
  destruct (Nat.ltb_spec 1 (length (PyStr.splitlines value))); [lia|done].
Qed.

Lemma attachment_failure_aborts_witness :
  let h := sim_host 4300 ∅ {[ "/etc/passwd" := [114; 111; 111; 116] ]} in
  let exc := Exn ValueError (OutsideRoot "/attachments" "/etc/passwd") in
  ((∀ l, l ∈ logs (execute h scenario_B).2 →
         (∀ t, l ≠ LogWillSend t) ∧
         PyStr.startswith (log_prefix l) "will send" = false) ∧
   fs_only (trace (execute h scenario_B).2) ∧
   (∀ host port timeout,
      NetConnect host port timeout ∉ trace (execute h scenario_B).2)) ∧
  ∃ resp st,
    execute h scenario_B = (Ok resp, st) ∧
    error resp = Some (error_of exc) ∧
    spiff__logs resp = logs st ∧
    last (spiff__logs resp) = Some (LogAttachmentError (exn_message exc)).
Proof.
  intros h exc.
  destruct (attachment_failure_aborts h scenario_B 104857600 0
              {[ "filename" := PStr "passwd"; "path" := PStr "/etc/passwd" ]}
              exc)
    as [Hquiet Hresponse].
  - vm_compute. reflexivity.
  - reflexivity.
  - vm_compute. reflexivity.
  - split; [exact Hquiet|].
    destruct Hresponse as (exc' & resp & st & Hrun & Herr & Hlogs & Hlast & Hexc).
    { vm_compute. repeat constructor. }
    assert (Heq : exc' = exc).
    { apply Hexc; [exact I|]. intros j att' Hj. lia. }
    rewrite Heq in Herr, Hlast. by exists resp, st.
Defined.

(** *** No recipients *)

Example no_recipients_missing_file_result :
  envelope_recipients no_recipients_missing_file = [] ∧
  (execute (sim_host 4300 ∅ ∅) no_recipients_missing_file).1 =
    Ok (response
          (Some {| error_code := "FileNotFoundError";
                   error_message := NoSuchFile "/attachments/report.pdf" |})
          [LogAllowedDir "/attachments"; LogSizeLimit 104857600;
           LogAttachmentError (NoSuchFile "/attachments/report.pdf")]).
Proof. vm_compute. done. Qed.

(** A To of white space around a line feed names no recipient, and the
    package refuses it as a header: [execute] raises, on every host. *)
Example no_recipients_header_refused h :
  envelope_recipients (line_break_in_to no_recipients_command) = [] ∧
  ∃ e st, execute h (line_break_in_to no_recipients_command) = (Err e, st).
Proof.
  split; [by vm_compute|].
  destruct (execute_cases h (line_break_in_to no_recipients_command))
    as (limit & timeout & _ & _ &
        [[_ (e & m & _ & _ & Hexec & _)]|[Hacc _]]).
  { by eexists _, _. }
  exfalso. unfold headers_accepted in Hacc. rewrite Forall_forall in Hacc.
  specialize (Hacc ("To", String " " (String "010" " "))).
  discriminate Hacc. vm_compute. set_solver.
Qed.

(** C4, as stated, fails: with To, Cc and Bcc all empty, an attachment that
    cannot be loaded makes the invocation fail with the attachment's error,
    not with [NoRecipients]. *)
Lemma no_recipients_error_can_be_preceded :
  ¬ ∀ h self, envelope_recipients self = [] →
      ∃ resp st, execute h self = (Ok resp, st) ∧
                 error resp = Some no_recipients_error.
Proof.
  intros Hclaim.
  destruct (Hclaim (sim_host 4300 ∅ ∅) no_recipients_missing_file)
    as (resp & st & Hrun & Herr); [by vm_compute|].
  vm_compute in Hrun. injection Hrun as <- <-. discriminate Herr.
Qed.

Lemma empty_fields_no_recipients self :
  email_to self = "" →
  email_cc self = None ∨ email_cc self = Some "" →
  email_bcc self = None ∨ email_bcc self = Some "" →
  envelope_recipients self = [].
Proof.
  unfold envelope_recipients. by intros -> [-> | ->] [-> | ->].
Qed.

(** C4, amended.  When To, Cc and Bcc yield no recipient (as when all three
    are empty), the package accepts the headers of the message and the
    attachment stage has raised nothing, [execute] returns the
    [NoRecipients] error with the log of the attachment stage, and has not
    touched the network. *)
Theorem no_recipients_after_attachments (h : Host) (self : SendHTMLEmail)
    (limit : Z) (st : State) :
  _get_attachments_limit_bytes h = Ok limit →
  headers_accepted h self →
  attachment_stage h self limit (initial_state self) = (Ok tt, st) →
  envelope_recipients self = [] →
  execute h self = (Ok (response (Some no_recipients_error) (logs st)), st) ∧
  (∀ l, l ∈ logs st → ∀ t, l ≠ LogWillSend t) ∧
  fs_only (trace st).
Proof.
  intros Hlimit Hacc Hstage Henv.
  pose proof (attachment_stage_state _ _ _ _ _ _ Hstage)
    as (_ & (ls & Hls & Hatt) & (evs & Hevs & Hfs)).
  simpl in Hls, Hevs.
  rewrite (execute_accepted _ _ _ _ _ Hlimit Hacc Hstage), Henv.
  split; [done|]. split; [|by rewrite Hevs].
  intros l. rewrite Hls. intros Hl.
  apply attachment_log_not_will_send.
  rewrite Forall_forall in Hatt. by apply Hatt.
Qed.

Lemma no_recipients_after_attachments_witness :
  let st := {| logs := [LogAllowedDir "/attachments"; LogSizeLimit 104857600];
               message_of := assembled_message no_recipients_command;
               trace := [] |} in
  execute (sim_host 4300 ∅ ∅) no_recipients_command =
    (Ok (response (Some no_recipients_error) (logs st)), st) ∧
  (∀ l, l ∈ logs st → ∀ t, l ≠ LogWillSend t) ∧
  fs_only (trace st).
Proof.
  apply (no_recipients_after_attachments (sim_host 4300 ∅ ∅)
           no_recipients_command 104857600).
  - vm_compute. reflexivity.
  - vm_compute. repeat constructor.
  - vm_compute. reflexivity.
  - vm_compute. reflexivity.
Defined.

(** *** Headers and envelope *)

Lemma expected_headers_names self :
  fst <$> expected_headers self ⊆ ["Subject"; "From"; "To"; "Cc"; "Reply-To"].
Proof.
  unfold expected_headers.
  destruct (opt_truthy (email_cc self)), (opt_truthy (email_reply_to self));
    simpl; set_solver.
Qed.

(** The stages after the assembly leave the headers as they are. *)
Lemma execute_headers_built h self :
  headers (message_of (execute h self).2)
  = headers (message_of (build_message h self blank_state).2).
Proof.
  unfold execute.
  rewrite _get_attachments_limit_bytes_eq, _get_smtp_timeout_seconds_eq.
  destruct (build_message h self blank_state) as [[[]|e] st1]; [|done].
  destruct (attachment_stage _ _ _ _) as [[[]|exc] st2] eqn:Hstage;
    pose proof (attachment_stage_state _ _ _ _ _ _ Hstage) as (Hh & _ & _).
  - destruct (envelope_recipients self) as [|x rcpts]; [done|].
    destruct (delivery_stage _ _ _ _ _) as [[[]|exc] st3] eqn:Hdel;
      apply delivery_stage_state in Hdel as (Hm & _); simpl; by rewrite Hm.
  - done.
Qed.

Lemma execute_headers h self :
  headers (message_of (execute h self).2) `prefix_of` expected_headers self ∧
  (∀ resp, (execute h self).1 = Ok resp →
     headers (message_of (execute h self).2) = expected_headers self) ∧
  ∀ m to_addrs, NetSendMessage m to_addrs ∈ trace (execute h self).2 →
    headers m = expected_headers self ∧ to_addrs = envelope_recipients self.
Proof.
  destruct (execute_cases h self)
    as (limit & timeout & _ & _ &
        [[_ (e & m0 & _ & _ & Hexec & Hpre & _)]|[_ (r2 & st2 & Hstage & Hexec)]]).
  { rewrite Hexec. simpl. split; [done|]. split; [done|].
    by intros m to_addrs ?%elem_of_nil. }
  pose proof (attachment_stage_state _ _ _ _ _ _ Hstage)
    as (Hh & _ & (evs & Hevs & Hfs)).
  simpl in Hh, Hevs.
  assert (Hquiet : ∀ m to_addrs, NetSendMessage m to_addrs ∉ trace st2).
  { intros m to_addrs Hin. rewrite Hevs in Hin.
    unfold fs_only in Hfs. rewrite Forall_forall in Hfs.
    by apply Hfs in Hin. }
  destruct r2 as [[]|exc].
  - destruct (envelope_recipients self) as [|x rcpts] eqn:Henv.
    + rewrite Hexec. simpl. rewrite Hh. split; [done|]. split; [done|].
      intros m to_addrs Hin. by destruct (Hquiet m to_addrs).
    + destruct Hexec as (r3 & st3 & Hdel & Hexec).
      apply delivery_stage_state in Hdel as (Hm & evs' & Hevs' & Hsend).
      assert (Hstate : message_of (execute h self).2 = message_of st3 ∧
                       trace (execute h self).2 = trace st3).
      { rewrite Hexec. by destruct r3 as [[]|]. }
      destruct Hstate as [-> ->]. rewrite Hm, Hh.
      split; [done|]. split; [done|].
      intros m to_addrs. rewrite Hevs', elem_of_app. intros [Hin|Hin].
      { by destruct (Hquiet m to_addrs). }
      rewrite Forall_forall in Hsend.
      destruct (Hsend _ Hin m to_addrs eq_refl) as [-> ->]. by rewrite Hh.
  - rewrite Hexec. simpl. rewrite Hh. split; [done|]. split; [done|].
    intros m to_addrs Hin. by destruct (Hquiet m to_addrs).
Qed.

Lemma bcc_tokens_in_envelope self :
  field_tokens (email_bcc self) ⊆ envelope_recipients self.
Proof.
  intros x Hx. apply elem_of_envelope_recipients. set_solver.
Qed.

(** C9. The message [execute] assembles has the header fields Subject,
    From, To and, when given, Cc and Reply-To, in this order, and exactly
    these when [execute] returns a response (it stops at a header the
    package refuses): never Bcc.  The headers are the same whatever
    [email_bcc] is.  Whenever a message is sent, it is sent with these
    headers to the envelope recipients, and every address of Bcc is among
    them. *)
Theorem bcc_only_in_envelope (h : Host) (self : SendHTMLEmail) :
  let st := (execute h self).2 in
  headers (message_of st) `prefix_of` expected_headers self ∧
  (∀ resp, (execute h self).1 = Ok resp →
     headers (message_of st) = expected_headers self) ∧
  header_names (message_of st) ⊆ ["Subject"; "From"; "To"; "Cc"; "Reply-To"] ∧
  ("Bcc" ∉ header_names (message_of st)) ∧
  (∀ bcc, headers (message_of (execute h (with_bcc bcc self)).2) =
          headers (message_of st)) ∧
  (∀ m to_addrs, NetSendMessage m to_addrs ∈ trace st →
     headers m = expected_headers self ∧
     ("Bcc" ∉ header_names m) ∧
     to_addrs = envelope_recipients self ∧
     field_tokens (email_bcc self) ⊆ to_addrs) ∧
  (∀ bcc m to_addrs m' to_addrs',
     NetSendMessage m to_addrs ∈ trace st →
     NetSendMessage m' to_addrs' ∈ trace (execute h (with_bcc bcc self)).2 →
     headers m = headers m').
Proof.
  intros st. subst st.
  destruct (execute_headers h self) as (Hprefix & Hheaders & Hsent).
  pose proof (expected_headers_names self) as Hnames.
  assert (Hbcc : "Bcc" ∉ fst <$> expected_headers self).
  { intros Hin. apply Hnames in Hin. set_solver. }
  assert (Hsub : header_names (message_of (execute h self).2)
                 ⊆ fst <$> expected_headers self).
  { destruct Hprefix as [rest ->]. unfold header_names.
    rewrite fmap_app. set_solver. }
  split; [done|]. split; [done|]. split; [set_solver|]. split; [set_solver|].
  split; [|split].
  - intros bcc. by rewrite !execute_headers_built, build_message_with_bcc.
  - intros m to_addrs Hin. destruct (Hsent _ _ Hin) as [Hm ->].
    unfold header_names. rewrite Hm.
    split; [done|]. split; [done|]. split; [done|].
    apply bcc_tokens_in_envelope.
  - intros bcc m to_addrs m' to_addrs' Hin Hin'.
    destruct (Hsent _ _ Hin) as [-> _].
    destruct (execute_headers h (with_bcc bcc self)) as (_ & _ & Hsent').
    by destruct (Hsent' _ _ Hin') as [-> _].
Qed.

Example sample_command_sends_to_bcc :
  trace (execute (sim_host 4300 ∅ ∅) sample_command).2 =
    [NetConnect "mail.example" 587 30; NetStartTLS; NetLogin "user" "secret";
     NetSendMessage
       {| headers := [("Subject", "Report"); ("From", "noreply@x");
                      ("To", "a@x,a@x"); ("Cc", "a@x")];
          content := "See attachment."; alternatives := []; parts := [] |}
       ["a@x"; "b@y"];
     NetQuit].
Proof. vm_compute. reflexivity. Qed.

Lemma bcc_only_in_envelope_witness :
  let m := {| headers := [("Subject", "Report"); ("From", "noreply@x");
                          ("To", "a@x,a@x"); ("Cc", "a@x")];
              content := "See attachment."; alternatives := [];
              parts := [] |} in
  headers m = expected_headers sample_command ∧
  ("Bcc" ∉ header_names m) ∧
  ["a@x"; "b@y"] = envelope_recipients sample_command ∧
  field_tokens (email_bcc sample_command) ⊆ ["a@x"; "b@y"].
Proof.
  apply (bcc_only_in_envelope (sim_host 4300 ∅ ∅) sample_command).
  rewrite sample_command_sends_to_bcc. set_solver.
Defined.

(** ** Attachment loader *)

Lemma dict_get_insert_ne (att : gmap string pyval) k k' v :
  k ≠ k' → dict_get (<[k := v]> att) k' = dict_get att k'.
Proof. intros Hne. unfold dict_get. by rewrite lookup_insert_ne. Qed.

Lemma dict_get_delete_ne (att : gmap string pyval) k k' :
  k ≠ k' → dict_get (delete k att) k' = dict_get att k'.
Proof. intros Hne. unfold dict_get. by rewrite lookup_delete_ne. Qed.

Lemma dict_get_delete (att : gmap string pyval) k :
  dict_get (delete k att) k = PNone.
Proof. unfold dict_get. by rewrite lookup_delete_eq. Qed.

(** *** The size estimate *)

Lemma append_cons c s1 s2 : String c s1 +:+ s2 = String c (s1 +:+ s2).
Proof. reflexivity. Qed.

Lemma append_nil_l s : "" +:+ s = s.
Proof. reflexivity. Qed.

Lemma append_nil_r s : s +:+ "" = s.
Proof.
  induction s as [|c s IH]; [done|]. by rewrite append_cons, IH.
Qed.

Lemma append_assoc s1 s2 s3 : (s1 +:+ s2) +:+ s3 = s1 +:+ s2 +:+ s3.
Proof.
  induction s1 as [|c s1 IH]; [done|]. by rewrite !append_cons, IH.
Qed.

Lemma join_empty_cons w l : PyStr.join "" (w :: l) = w +:+ PyStr.join "" l.
Proof.
  unfold PyStr.join. destruct l as [|w' l]; simpl; [by rewrite append_nil_r|].
  done.
Qed.

Lemma join_empty_app l1 l2 :
  PyStr.join "" (l1 ++ l2) = PyStr.join "" l1 +:+ PyStr.join "" l2.
Proof.
  induction l1 as [|w l1 IH]; [done|].
  rewrite <- app_comm_cons, !join_empty_cons, IH. by rewrite append_assoc.
Qed.

Lemma join_split_ws_go cur s :
  PyStr.join "" (PyStr.split_ws_go cur s) =
    default "" cur +:+ remove_whitespace s.
Proof.
  revert cur. induction s as [|c s IH]; intros cur; simpl.
  - destruct cur; simpl; by rewrite ?append_nil_r.
  - destruct (PyStr.isspace c).
    + rewrite join_empty_app, IH. destruct cur; simpl; by rewrite ?append_nil_l.
    + rewrite IH. simpl. by rewrite append_assoc.
Qed.

Lemma join_split_ws s :
  PyStr.join "" (PyStr.split_ws s) = remove_whitespace s.
Proof. unfold PyStr.split_ws. by rewrite join_split_ws_go. Qed.

Lemma _estimated_base64_decoded_size_eq s :
  _estimated_base64_decoded_size s =
    (PyStr.len (remove_whitespace s) * 3) `div` 4
    - padding_count (remove_whitespace s).
Proof.
  unfold _estimated_base64_decoded_size. rewrite join_split_ws.
  destruct (PyStr.truthy (remove_whitespace s)) eqn:Ht; [done|].
  apply PyStrFacts.truthy_false in Ht as ->. done.
Qed.

Lemma value_not_space c v :
  Base64.value c = Some v →
  PyStr.isspace c = false ∧ Ascii.eqb c "=" = false.
Proof.
  destruct c as [[] [] [] [] [] [] [] []]; vm_compute; intros H;
    first [discriminate H | done].
Qed.

Lemma endswith_cons a s p :
  PyStr.endswith (String a s) p =
    String.eqb (String a s) p || PyStr.endswith s p.
Proof. reflexivity. Qed.

Lemma padding_count_cons a s v :
  Base64.value a = Some v → padding_count (String a s) = padding_count s.
Proof.
  intros [_ Ha]%value_not_space. unfold padding_count.
  rewrite !endswith_cons. cbn [String.eqb]. by rewrite Ha.
Qed.

Lemma len_cons a s : PyStr.len (String a s) = 1 + PyStr.len s.
Proof. unfold PyStr.len. cbn [String.length]. lia. Qed.

Lemma remove_whitespace_cons a s v :
  Base64.value a = Some v →
  remove_whitespace (String a s) = String a (remove_whitespace s).
Proof. intros [Ha _]%value_not_space. simpl. by rewrite Ha. Qed.

Lemma is_data_value c : is_data c = true ↔ ∃ v, Base64.value c = Some v.
Proof.
  unfold is_data. destruct (Base64.value c) as [v|].
  - split; [by eauto|done].
  - split; [done|by intros [? ?]].
Qed.

(** *** What the strict decoder accepts *)

(** After a padding character only padding characters follow, and the
    data end where they complete the group. *)
Lemma a2b_loop_padding s :
  ∀ q l pads out payload,
    (2 ≤ q → q + pads < 4)%nat →
    Base64.a2b_loop s q l pads true out = Ok payload →
    payload = out ∧
    ∃ p, s = pad_chars p ∧ (q = 0 ∨ (2 ≤ q ∧ q + pads + p = 4))%nat.
Proof.
  induction s as [|c s IH]; intros q l pads out payload Hq Hrun.
  - cbn in Hrun. destruct q as [|[|q]]; simplify_eq.
    split; [done|]. exists 0%nat. split; [done|]. by left.
  - cbn [Base64.a2b_loop] in Hrun.
    destruct (Ascii.eqb_spec c "=") as [->|Hc].
    2: { by destruct (Base64.value c). }
    destruct (Nat.leb_spec 2 q) as [H2|H2].
    + destruct (Nat.leb_spec 4 (q + S pads)) as [H4|H4].
      * destruct (String.eqb_spec s "") as [->|]; [|done].
        simpl in Hrun. simplify_eq. split; [done|].
        exists 1%nat. split; [done|]. right. lia.
      * apply IH in Hrun as [-> (p & -> & Hp)]; [|lia].
        split; [done|]. exists (S p). split; [done|]. right. lia.
    + apply IH in Hrun as [-> (p & -> & Hp)]; [|lia].
      split; [done|]. exists (S p). split; [done|]. left. lia.
Qed.

(** The characters of the alphabet come first, in groups of four of which
    the last may have two or three; then the padding.  Each group of four
    gives three bytes, a group of two one and a group of three two. *)
Lemma a2b_loop_data s :
  ∀ q l out payload,
    (q < 4)%nat →
    Base64.a2b_loop s q l 0 false out = Ok payload →
    ∃ data p,
      s = data +:+ pad_chars p ∧
      all_chars is_data data = true ∧
      let t := Z.of_nat q + PyStr.len data in
      (t `mod` 4 = 0 ∨ (t `mod` 4 = 2 ∧ p = 2%nat)
       ∨ (t `mod` 4 = 3 ∧ p = 1%nat)) ∧
      Z.of_nat (length payload)
      = Z.of_nat (length out) + decoded_length t
        - decoded_length (Z.of_nat q).
Proof.
  induction s as [|c s IH]; intros q l out payload Hq Hrun.
  - cbn in Hrun. destruct q as [|[|q]]; simplify_eq.
    exists "", 0%nat. split; [done|]. split; [done|].
    change (Z.of_nat 0 + PyStr.len "") with 0. change (Z.of_nat 0) with 0.
    cbn zeta. split; [by left|lia].
  - destruct (Ascii.eqb_spec c "=") as [->|Hc].
    + assert (Hpad : Base64.a2b_loop (String "=" s) q l 0 true out
                     = Ok payload) by exact Hrun.
      apply a2b_loop_padding in Hpad as [-> (p & Hs & Hp)]; [|lia].
      exists "", p. rewrite append_nil_l. split; [done|]. split; [done|].
      change (PyStr.len "") with 0. cbn zeta. rewrite Z.add_0_r.
      split; [|lia].
      destruct Hp as [-> | [H2 H4]]; [by left|].
      assert (q = 2 ∨ q = 3)%nat as [-> | ->] by lia.
      * right; left. split; [done|lia].
      * right; right. split; [done|lia].
    + cbn [Base64.a2b_loop] in Hrun.
      apply Ascii.eqb_neq in Hc. rewrite Hc in Hrun.
      destruct (Base64.value c) as [v|] eqn:Hv; [|done].
      assert (Hdata : is_data c = true) by (apply is_data_value; by eauto).
      assert (Hnn : ∀ d, 0 ≤ PyStr.len d) by (intros d; unfold PyStr.len; lia).
      assert (q = 0 ∨ q = 1 ∨ q = 2 ∨ q = 3)%nat
        as [-> | [-> | [-> | ->]]] by lia;
        apply IH in Hrun as (data & p & -> & Hall & Hmod & Hsize); try lia;
        exists (String c data), p; rewrite append_cons;
        (split; [done|]); (split; [by cbn; rewrite Hdata|]);
        cbn zeta in *; rewrite len_cons;
        rewrite ?length_app in Hsize; cbn [length] in Hsize;
        change (Z.of_nat 0) with 0 in *; change (Z.of_nat 1) with 1 in *;
        change (Z.of_nat 2) with 2 in *; change (Z.of_nat 3) with 3 in *;
        specialize (Hnn data);
        unfold decoded_length in *;
        generalize dependent (PyStr.len data); intros k Hmod Hsize Hk;
        (split; [|rewrite Hsize]);
        Z.div_mod_to_equations; lia.
Qed.

(** What [b64decode] accepts: characters of the alphabet, then padding; a
    number of characters that is a multiple of four takes any padding
    (none when there is no character), two over it take [==] and three
    over it [=]. *)
Lemma b64decode_shape s payload :
  Base64.b64decode s = Ok payload →
  ∃ data p,
    s = data +:+ pad_chars p ∧
    all_chars is_data data = true ∧
    (PyStr.len data `mod` 4 = 0 ∨ (PyStr.len data `mod` 4 = 2 ∧ p = 2%nat)
     ∨ (PyStr.len data `mod` 4 = 3 ∧ p = 1%nat)) ∧
    (data = "" → p = 0%nat) ∧
    Z.of_nat (length payload) = decoded_length (PyStr.len data).
Proof.
  unfold Base64.b64decode, Base64.a2b_base64.
  destruct (Base64.is_ascii s); [|done]. cbn [negb].
  intros Hrun.
  assert (Hloop : Base64.a2b_loop s 0 0 0 false [] = Ok payload ∧
                  PyStr.startswith s "=" = false).
  { destruct s as [|c s]; [done|].
    destruct (Ascii.eqb_spec c "=") as [->|Hc]; [done|].
    split; destruct c as [[] [] [] [] [] [] [] []];
      first [done | by destruct Hc]. }
  destruct Hloop as [Hloop Hlead].
  apply a2b_loop_data in Hloop as (data & p & -> & Hall & Hmod & Hsize);
    [|lia].
  exists data, p. cbn zeta in *.
  change (Z.of_nat 0) with 0 in *.
  change (0 + PyStr.len data) with (PyStr.len data) in *.
  split; [done|]. split; [done|]. split; [done|]. split.
  - intros ->. rewrite append_nil_l in Hlead. by destruct p.
  - rewrite Hsize. change (decoded_length 0) with 0.
    change (Z.of_nat (length [])) with 0. lia.
Qed.

(** *** The estimate of an accepted text *)

Lemma all_data_no_space data :
  all_chars is_data data = true → remove_whitespace data = data.
Proof.
  induction data as [|c data IH]; [done|]. cbn.
  intros [Hc Hd]%andb_prop. apply is_data_value in Hc as [v Hv].
  apply value_not_space in Hv as [-> _]. by rewrite IH.
Qed.

Lemma remove_whitespace_app a b :
  remove_whitespace (a +:+ b) = remove_whitespace a +:+ remove_whitespace b.
Proof.
  induction a as [|c a IH]; [done|]. rewrite append_cons. cbn.
  destruct (PyStr.isspace c); by rewrite IH.
Qed.

Lemma remove_whitespace_pad_chars p :
  remove_whitespace (pad_chars p) = pad_chars p.
Proof. induction p as [|p IH]; [done|]. cbn. by rewrite IH. Qed.

Lemma len_app a b : PyStr.len (a +:+ b) = PyStr.len a + PyStr.len b.
Proof.
  induction a as [|c a IH]; [by rewrite append_nil_l|].
  rewrite append_cons, !len_cons, IH. lia.
Qed.

Lemma len_pad_chars p : PyStr.len (pad_chars p) = Z.of_nat p.
Proof.
  induction p as [|p IH]; [done|].
  cbn [pad_chars]. rewrite len_cons, IH. lia.
Qed.

Lemma padding_count_pad_chars p :
  padding_count (pad_chars p) = Z.min (Z.of_nat p) 2.
Proof.
  destruct p as [|[|p]]; [done..|].
  assert (Hend : PyStr.endswith (pad_chars (S (S p))) "==" = true).
  { induction p as [|p IH]; [done|].
    change (pad_chars (S (S (S p)))) with (String "=" (pad_chars (S (S p)))).
    rewrite endswith_cons, IH. by rewrite orb_true_r. }
  unfold padding_count. rewrite Hend. lia.
Qed.

Lemma padding_count_data data s :
  all_chars is_data data = true →
  padding_count (data +:+ s) = padding_count s.
Proof.
  induction data as [|c data IH]; [done|]. cbn [all_chars].
  intros [Hc Hd]%andb_prop. apply is_data_value in Hc as [v Hv].
  rewrite append_cons, (padding_count_cons _ _ _ Hv). by apply IH.
Qed.

Lemma count_pad_data data s :
  all_chars is_data data = true → count_pad (data +:+ s) = count_pad s.
Proof.
  induction data as [|c data IH]; [done|]. cbn [all_chars].
  intros [Hc Hd]%andb_prop. apply is_data_value in Hc as [v Hv].
  apply value_not_space in Hv as [_ Heq].
  rewrite append_cons. cbn [count_pad]. rewrite Heq. by apply IH.
Qed.

Lemma count_pad_pad_chars p : count_pad (pad_chars p) = p.
Proof. induction p as [|p IH]; [done|]. cbn. by rewrite IH. Qed.

(** The estimate of a text the decoder accepts against the number of bytes
    it decodes to: never more than one below; the same with correct
    padding; at most one off with no more than two padding characters. *)
Lemma estimate_of_accepted s payload :
  Base64.b64decode s = Ok payload →
  remove_whitespace s = s ∧
  Z.of_nat (length payload) - 1 ≤ _estimated_base64_decoded_size s ∧
  (correctly_padded s →
   _estimated_base64_decoded_size s = Z.of_nat (length payload)) ∧
  ((count_pad s ≤ 2)%nat →
   Z.abs (_estimated_base64_decoded_size s - Z.of_nat (length payload)) ≤ 1).
Proof.
  intros (data & p & -> & Hall & Hmod & _ & Hsize)%b64decode_shape.
  assert (Hclean : remove_whitespace (data +:+ pad_chars p)
                   = data +:+ pad_chars p).
  { by rewrite remove_whitespace_app, all_data_no_space,
      remove_whitespace_pad_chars. }
  split; [done|].
  rewrite _estimated_base64_decoded_size_eq, Hclean, len_app, len_pad_chars,
    padding_count_data, padding_count_pad_chars by done.
  unfold correctly_padded.
  rewrite len_app, len_pad_chars, count_pad_data, count_pad_pad_chars by done.
  rewrite Hsize. unfold decoded_length.
  assert (0 ≤ PyStr.len data) by (unfold PyStr.len; lia).
  generalize dependent (PyStr.len data). intros k Hmod Hsize Hk.
  split; [|split].
  - destruct Hmod as [Hm | [[Hm ->] | [Hm ->]]];
      Z.div_mod_to_equations; lia.
  - intros [Hfour Hp].
    destruct Hmod as [Hm | [[Hm ->] | [Hm ->]]];
      Z.div_mod_to_equations; lia.
  - intros Hp.
    destruct Hmod as [Hm | [[Hm ->] | [Hm ->]]];
      Z.div_mod_to_equations; lia.
Qed.

Lemma estimate_exact s payload :
  Base64.b64decode s = Ok payload → correctly_padded s →
  _estimated_base64_decoded_size s = Z.of_nat (length payload).
Proof. intros H. by apply (estimate_of_accepted s payload H). Qed.

Lemma remove_whitespace_idemp s :
  remove_whitespace (remove_whitespace s) = remove_whitespace s.
Proof.
  induction s as [|c s IH]; simpl; [done|].
  destruct (PyStr.isspace c) eqn:Hc; [done|]. simpl. by rewrite Hc, IH.
Qed.

Lemma estimate_cleaned s :
  _estimated_base64_decoded_size (remove_whitespace s)
  = _estimated_base64_decoded_size s.
Proof.
  by rewrite !_estimated_base64_decoded_size_eq, remove_whitespace_idemp.
Qed.

Example estimate_below_and_above :
  Base64.b64decode "YWJj=" = Ok [97; 98; 99] ∧
  _estimated_base64_decoded_size "YWJj=" = 2 ∧
  Base64.b64decode "YWJj========" = Ok [97; 98; 99] ∧
  _estimated_base64_decoded_size "YWJj========" = 7.
Proof. repeat split; reflexivity. Qed.

Lemma _enforce_attachment_limit_ok name size limit :
  _enforce_attachment_limit name size limit = Ok tt ↔ size ≤ limit.
Proof.
  unfold _enforce_attachment_limit. destruct (Z.ltb_spec limit size).
  - split; [done|lia].
  - split; [lia|done].
Qed.

Lemma _enforce_attachment_limit_err name size limit e :
  _enforce_attachment_limit name size limit = Err e ↔
  limit < size ∧ e = Exn ValueError (AttachmentTooLarge name size limit).
Proof.
  unfold _enforce_attachment_limit. destruct (Z.ltb_spec limit size).
  - split; [by intros [= <-]|by intros [_ ->]].
  - split; [done|lia].
Qed.

(** C2. The estimate is [floor(len * 3 / 4) - paddingCount] of the text
    without its whitespace.  Take a text whose cleaned form the strict
    decoder accepts.  With correct padding the estimate is the decoded
    length itself; with no more than two padding characters it is within
    one byte of it; and it is never more than one byte below it.  So a text
    whose estimate passes the limit decodes to no more than one byte over
    the limit, and, with correct padding, to no more than the limit. *)
Theorem base64_estimate :
  (∀ s, _estimated_base64_decoded_size s =
          (PyStr.len (remove_whitespace s) * 3) `div` 4
          - padding_count (remove_whitespace s)) ∧
  (∀ s payload,
     Base64.b64decode (remove_whitespace s) = Ok payload →
     (correctly_padded (remove_whitespace s) →
      _estimated_base64_decoded_size s = Z.of_nat (length payload)) ∧
     ((count_pad (remove_whitespace s) ≤ 2)%nat →
      Z.abs (_estimated_base64_decoded_size s - Z.of_nat (length payload)) ≤ 1) ∧
     Z.of_nat (length payload) - 1 ≤ _estimated_base64_decoded_size s) ∧
  (∀ s payload,
     Base64.b64decode s = Ok payload →
     correctly_padded s →
     _estimated_base64_decoded_size s = Z.of_nat (length payload)) ∧
  (∀ name s payload limit,
     Base64.b64decode (remove_whitespace s) = Ok payload →
     _enforce_attachment_limit name (_estimated_base64_decoded_size s) limit
       = Ok tt →
     Z.of_nat (length payload) ≤ limit + 1 ∧
     (correctly_padded (remove_whitespace s) →
      Z.of_nat (length payload) ≤ limit)).
Proof.
  split; [apply _estimated_base64_decoded_size_eq|].
  split; [|split].
  - intros s payload H. rewrite <- estimate_cleaned.
    destruct (estimate_of_accepted _ _ H) as (_ & Hlow & Hexact & Hnear).
    done.
  - intros s payload H. by apply (estimate_of_accepted s payload H).
  - intros name s payload limit H Hok.
    apply _enforce_attachment_limit_ok in Hok.
    rewrite <- estimate_cleaned in Hok.
    destruct (estimate_of_accepted _ _ H) as (_ & Hlow & Hexact & _).
    split; [lia|]. intros Hpad. rewrite (Hexact Hpad) in Hok. done.
Qed.

Lemma base64_estimate_witness :
  let payload := [97; 98; 99; 100; 101; 102; 103; 104] in
  _estimated_base64_decoded_size " YWJjZGVm Z2g= "
    = Z.of_nat (length payload) ∧
  Z.abs (_estimated_base64_decoded_size " YWJjZGVm Z2g= "
         - Z.of_nat (length payload)) ≤ 1 ∧
  Z.of_nat (length payload) - 1
    ≤ _estimated_base64_decoded_size " YWJjZGVm Z2g= ".
Proof.
  intros payload.
  destruct (proj1 (proj2 base64_estimate) " YWJjZGVm Z2g= " payload)
    as (Hexact & Hnear & Hlow).
  - vm_compute. reflexivity.
  - split; [|split; [|exact Hlow]].
    + apply Hexact. split; [reflexivity|]. vm_compute. lia.
    + apply Hnear. vm_compute. lia.
Defined.

(** *** The size limit *)

Lemma _enforce_attachment_limit_cases name size limit :
  (limit < size ∧
   _enforce_attachment_limit name size limit = Err (too_large name size limit))
  ∨ (size ≤ limit ∧ _enforce_attachment_limit name size limit = Ok tt).
Proof.
  unfold _enforce_attachment_limit. destruct (Z.ltb_spec limit size); auto.
Qed.

Lemma loaded_within_limit h att i limit st filename payload ct st' :
  _read_attachment_bytes h att i limit st = (Ok (filename, payload, ct), st') →
  Z.of_nat (length payload) ≤ limit.
Proof.
  unfold _read_attachment_bytes. unfold_M. intros H.
  step_M;
    repeat match goal with u : () |- _ => destruct u end;
    by eapply _enforce_attachment_limit_ok.
Qed.

Lemma load_path h att i limit st safe size :
  PyStr.truthy (filename_of att) = true →
  truthy (dict_get att "path") = true →
  _resolve_and_validate_attachment_path h (py_str (dict_get att "path"))
    = Ok safe →
  isfile h safe = true →
  getsize h safe = Ok size →
  (limit < size →
   _read_attachment_bytes h att i limit st =
     (Err (too_large (filename_of att) size limit),
      after_events st [FsIsFile safe; FsGetSize safe])) ∧
  (size ≤ limit → ∀ payload, read_bytes h safe = Ok payload →
   (limit < Z.of_nat (length payload) →
    _read_attachment_bytes h att i limit st =
      (Err (too_large (filename_of att) (Z.of_nat (length payload)) limit),
       after_events st [FsIsFile safe; FsGetSize safe; FsRead safe])) ∧
   (Z.of_nat (length payload) ≤ limit →
    _read_attachment_bytes h att i limit st =
      (Ok (filename_of att, payload, content_type_of att),
       after_events st [FsIsFile safe; FsGetSize safe; FsRead safe]))).
Proof.
  intros Hname Hpath Hsafe Hfile Hsize.
  unfold _read_attachment_bytes, after_events. unfold_M.
  rewrite Hname, Hpath, Hsafe. cbn. rewrite Hfile, Hsize. cbn.
  split.
  - intros Hbig.
    destruct (_enforce_attachment_limit_cases (filename_of att) size limit)
      as [[_ ->]|[? _]]; [|lia].
    by rewrite <- app_assoc.
  - intros Hsmall payload Hread.
    destruct (_enforce_attachment_limit_cases (filename_of att) size limit)
      as [[? _]|[_ ->]]; [lia|].
    rewrite Hread. cbn. rewrite <- !app_assoc. cbn.
    split; intros Hlen;
      destruct (_enforce_attachment_limit_cases (filename_of att)
                  (Z.of_nat (length payload)) limit)
        as [[? ->]|[? ->]]; done || lia.
Qed.

(** Inline content that decodes: the estimate is checked first, then the
    decoded length. *)
Lemma load_inline h att i limit st payload :
  PyStr.truthy (filename_of att) = true →
  truthy (dict_get att "path") = false →
  truthy (dict_get att "content_base64") = true →
  Base64.b64decode (py_str (dict_get att "content_base64")) = Ok payload →
  let est :=
    _estimated_base64_decoded_size (py_str (dict_get att "content_base64")) in
  (limit < est →
   _read_attachment_bytes h att i limit st =
     (Err (too_large (filename_of att) est limit), st)) ∧
  (est ≤ limit → limit < Z.of_nat (length payload) →
   _read_attachment_bytes h att i limit st =
     (Err (too_large (filename_of att) (Z.of_nat (length payload)) limit),
      st)) ∧
  (est ≤ limit → Z.of_nat (length payload) ≤ limit →
   _read_attachment_bytes h att i limit st =
     (Ok (filename_of att, payload, content_type_of att), st)).
Proof.
  intros Hname Hpath Hb64 Hdec est.
  unfold _read_attachment_bytes. unfold_M.
  rewrite Hname, Hpath, Hb64, Hdec. fold est. cbn.
  destruct (_enforce_attachment_limit_cases (filename_of att) est limit)
    as [[? He]|[? He]];
    destruct (_enforce_attachment_limit_cases (filename_of att)
                (Z.of_nat (length payload)) limit)
      as [[? Hl]|[? Hl]];
    rewrite He, ?Hl; repeat split; intros; done || lia.
Qed.

(** Inline content that does not decode, when its estimate has passed. *)
Lemma load_inline_invalid h att i limit st e :
  PyStr.truthy (filename_of att) = true →
  truthy (dict_get att "path") = false →
  truthy (dict_get att "content_base64") = true →
  Base64.b64decode (py_str (dict_get att "content_base64")) = Err e →
  _estimated_base64_decoded_size (py_str (dict_get att "content_base64"))
    ≤ limit →
  _read_attachment_bytes h att i limit st =
    (Err (match exn_class e with
          | BinasciiError =>
              Exn ValueError (InvalidBase64 (filename_of att) (exn_message e))
          | _ => e
          end), st).
Proof.
  intros Hname Hpath Hb64 Hdec Hest.
  unfold _read_attachment_bytes. unfold_M.
  rewrite Hname, Hpath, Hb64, Hdec. cbn.
  destruct (_enforce_attachment_limit_cases (filename_of att)
              (_estimated_base64_decoded_size
                 (py_str (dict_get att "content_base64"))) limit)
    as [[? _]|[_ ->]]; [lia|].
  cbn. by destruct (exn_class e).
Qed.

(** C3, as stated, fails for inline content: the text [YWJj========] is
    three bytes, which is within a limit of five bytes, and it is refused
    as too large, because its estimate is seven. *)
Lemma size_within_limit_can_be_refused :
  ¬ ∀ (h : Host) (att : gmap string pyval) (i : nat) (limit : Z) (st : State)
      (payload : list Z),
      0 < limit ≤ HARD_ATTACHMENTS_LIMIT_MB * 1024 * 1024 →
      PyStr.truthy (filename_of att) = true →
      truthy (dict_get att "path") = false →
      Base64.b64decode (py_str (dict_get att "content_base64")) = Ok payload →
      Z.of_nat (length payload) ≤ limit →
      ∀ size, (_read_attachment_bytes h att i limit st).1
              ≠ Err (too_large (filename_of att) size limit).
Proof.
  intros Hclaim.
  apply (Hclaim (sim_host 4300 ∅ ∅)
           {[ "filename" := PStr "a.bin";
              "content_base64" := PStr "YWJj========" ]}
           0%nat 5 blank_state [97; 98; 99]) with (size := 7);
    by vm_compute.
Qed.

(** C3, amended.  The size check raises [AttachmentTooLarge] exactly when
    the size exceeds the limit; a size equal to the limit passes.  Nothing
    is loaded that is larger than the limit.  For a path attachment the
    size reported by [getsize] is checked before the file is read, and the
    length of what was read is checked again.  Inline content that decodes
    to more than the limit is refused as too large, on its estimate or on
    its decoded length; content that decodes to no more than the limit is
    accepted when its estimate is within the limit too, as it is with
    correct padding.  This holds for every limit, those in (0, hard cap]
    among them. *)
Theorem size_limit_enforced (h : Host) (att : gmap string pyval) (i : nat)
    (limit : Z) (st : State) :
  (∀ name size,
     (limit < size →
      _enforce_attachment_limit name size limit
        = Err (too_large name size limit)) ∧
     (size ≤ limit → _enforce_attachment_limit name size limit = Ok tt)) ∧
  (∀ name, _enforce_attachment_limit name limit limit = Ok tt) ∧
  (∀ filename payload ct st',
     _read_attachment_bytes h att i limit st
       = (Ok (filename, payload, ct), st') →
     Z.of_nat (length payload) ≤ limit) ∧
  (∀ safe size,
     PyStr.truthy (filename_of att) = true →
     truthy (dict_get att "path") = true →
     _resolve_and_validate_attachment_path h (py_str (dict_get att "path"))
       = Ok safe →
     isfile h safe = true →
     getsize h safe = Ok size →
     (limit < size →
      _read_attachment_bytes h att i limit st =
        (Err (too_large (filename_of att) size limit),
         after_events st [FsIsFile safe; FsGetSize safe])) ∧
     (size ≤ limit → ∀ payload, read_bytes h safe = Ok payload →
      (limit < Z.of_nat (length payload) →
       _read_attachment_bytes h att i limit st =
         (Err (too_large (filename_of att) (Z.of_nat (length payload)) limit),
          after_events st [FsIsFile safe; FsGetSize safe; FsRead safe])) ∧
      (Z.of_nat (length payload) ≤ limit →
       _read_attachment_bytes h att i limit st =
         (Ok (filename_of att, payload, content_type_of att),
          after_events st [FsIsFile safe; FsGetSize safe; FsRead safe])))) ∧
  (∀ payload,
     PyStr.truthy (filename_of att) = true →
     truthy (dict_get att "path") = false →
     truthy (dict_get att "content_base64") = true →
     Base64.b64decode (py_str (dict_get att "content_base64")) = Ok payload →
     let est :=
       _estimated_base64_decoded_size
         (py_str (dict_get att "content_base64")) in
     (limit < Z.of_nat (length payload) →
      ∃ size, limit < size ∧
        (size = est ∨ size = Z.of_nat (length payload)) ∧
        _read_attachment_bytes h att i limit st =
          (Err (too_large (filename_of att) size limit), st)) ∧
     (limit < est →
      _read_attachment_bytes h att i limit st =
        (Err (too_large (filename_of att) est limit), st)) ∧
     (Z.of_nat (length payload) ≤ limit → est ≤ limit →
      _read_attachment_bytes h att i limit st =
        (Ok (filename_of att, payload, content_type_of att), st)) ∧
     (Z.of_nat (length payload) ≤ limit →
      correctly_padded (py_str (dict_get att "content_base64")) →
      _read_attachment_bytes h att i limit st =
        (Ok (filename_of att, payload, content_type_of att), st))).
Proof.
  split; [|split; [|split; [|split]]].
  - intros name size.
    destruct (_enforce_attachment_limit_cases name size limit)
      as [[? ->]|[? ->]]; split; done || lia.
  - intros name. apply _enforce_attachment_limit_ok. lia.
  - intros filename payload ct st'. apply loaded_within_limit.
  - intros safe size. apply load_path.
  - intros payload Hname Hpath Hb64 Hdec est.
    destruct (load_inline h att i limit st payload Hname Hpath Hb64 Hdec)
      as (Hbig & Hlate & Hok).
    fold est in Hbig, Hlate, Hok.
    split; [|split; [done|split]].
    + intros Hlen. destruct (Z.lt_ge_cases limit est) as [Hest|Hest].
      * exists est. split; [done|]. split; [by left|]. by apply Hbig.
      * exists (Z.of_nat (length payload)). split; [done|].
        split; [by right|]. apply Hlate; [lia|done].
    + intros Hlen Hest. by apply Hok.
    + intros Hlen Hpad. apply Hok; [|done].
      unfold est. by rewrite (estimate_exact _ _ Hdec Hpad).
Qed.

Example two_byte_file_at_the_limit :
  (_read_attachment_bytes (sim_host 4300 ∅ two_byte_file)
     two_byte_attachment 0 2 blank_state).1 = Ok ("a.txt", [104; 105], None).
Proof. vm_compute. reflexivity. Qed.

Lemma size_limit_enforced_witness :
  _read_attachment_bytes (sim_host 4300 ∅ two_byte_file)
    two_byte_attachment 0 1 blank_state =
  (Err (too_large (filename_of two_byte_attachment) 2 1),
   after_events blank_state
     [FsIsFile "/attachments/a.txt"; FsGetSize "/attachments/a.txt"]).
Proof.
  destruct (size_limit_enforced (sim_host 4300 ∅ two_byte_file)
              two_byte_attachment 0 1 blank_state)
    as (_ & _ & _ & Hpath & _).
  apply (Hpath "/attachments/a.txt" 2).
  - vm_compute. reflexivity.
  - vm_compute. reflexivity.
  - vm_compute. reflexivity.
  - vm_compute. reflexivity.
  - vm_compute. reflexivity.
  - lia.
Defined.

(** *** Which source is used *)

(** C10. The source is chosen by truth value, the path first.  When [path]
    is truthy the loader does what it does for the same dictionary with any
    other [content_base64], or with none: the inline content is ignored and
    no error is raised for giving both.  The outcome is then that of the
    path alone: the error of the path guard, the missing-file error, or,
    for a file within the limit, the bytes read from it.  When [path] is
    falsy the loader does what it does without the key and consults no
    file: with truthy inline content that decodes within the limit it
    returns the decoded bytes.  When both are absent or falsy, a dictionary
    with a file name fails with the missing-source error. *)
Theorem source_selection (h : Host) (att : gmap string pyval) (i : nat)
    (limit : Z) :
  (truthy (dict_get att "path") = true →
   (∀ v, _read_attachment_bytes h (<["content_base64" := v]> att) i limit =
         _read_attachment_bytes h att i limit) ∧
   _read_attachment_bytes h (delete "content_base64" att) i limit =
     _read_attachment_bytes h att i limit) ∧
  (truthy (dict_get att "path") = true →
   PyStr.truthy (filename_of att) = true →
   ∀ st,
     (∀ e,
        _resolve_and_validate_attachment_path h (py_str (dict_get att "path"))
          = Err e →
        _read_attachment_bytes h att i limit st = (Err e, st)) ∧
     (∀ safe,
        _resolve_and_validate_attachment_path h (py_str (dict_get att "path"))
          = Ok safe →
        (isfile h safe = false →
         _read_attachment_bytes h att i limit st =
           (Err (Exn FileNotFoundError (NoSuchFile safe)),
            after_events st [FsIsFile safe])) ∧
        (isfile h safe = true →
         ∀ size payload,
           getsize h safe = Ok size → size ≤ limit →
           read_bytes h safe = Ok payload →
           Z.of_nat (length payload) ≤ limit →
           _read_attachment_bytes h att i limit st =
             (Ok (filename_of att, payload, content_type_of att),
              after_events st
                [FsIsFile safe; FsGetSize safe; FsRead safe])))) ∧
  (truthy (dict_get att "path") = false →
   _read_attachment_bytes h att i limit =
     _read_attachment_bytes h (delete "path" att) i limit ∧
   ∀ h', _read_attachment_bytes h' att i limit =
         _read_attachment_bytes h att i limit) ∧
  (truthy (dict_get att "path") = false →
   truthy (dict_get att "content_base64") = true →
   PyStr.truthy (filename_of att) = true →
   ∀ st payload,
     Base64.b64decode (py_str (dict_get att "content_base64")) = Ok payload →
     _estimated_base64_decoded_size (py_str (dict_get att "content_base64"))
       ≤ limit →
     Z.of_nat (length payload) ≤ limit →
     _read_attachment_bytes h att i limit st =
       (Ok (filename_of att, payload, content_type_of att), st)) ∧
  (truthy (dict_get att "path") = false →
   truthy (dict_get att "content_base64") = false →
   PyStr.truthy (filename_of att) = true →
   ∀ st, _read_attachment_bytes h att i limit st =
           (Err (Exn ValueError (MissingSource (filename_of att))), st)).
Proof.
  split; [|split; [|split; [|split]]].
  - intros Hpath. split; [intros v|].
    + unfold _read_attachment_bytes, filename_of, content_type_of.
      rewrite !dict_get_insert_ne by done. by rewrite Hpath.
    + unfold _read_attachment_bytes, filename_of, content_type_of.
      rewrite !dict_get_delete_ne by done. by rewrite Hpath.
  - intros Hpath Hname st. split.
    + intros e Hguard. unfold _read_attachment_bytes. unfold_M.
      by rewrite Hname, Hpath, Hguard.
    + intros safe Hguard. split.
      * intros Hfile. unfold _read_attachment_bytes, after_events. unfold_M.
        rewrite Hname, Hpath, Hguard. cbn. by rewrite Hfile.
      * intros Hfile size payload Hsize Hsmall Hread Hlen.
        destruct (load_path h att i limit st safe size Hname Hpath Hguard
                    Hfile Hsize) as [_ Hload].
        by apply (Hload Hsmall payload Hread).
  - intros Hpath. split.
    + unfold _read_attachment_bytes, filename_of, content_type_of.
      rewrite dict_get_delete, !dict_get_delete_ne by done.
      by rewrite Hpath.
    + intros h'. unfold _read_attachment_bytes. by rewrite Hpath.
  - intros Hpath Hb64 Hname st payload Hdec Hest Hlen.
    by apply (load_inline h att i limit st payload Hname Hpath Hb64 Hdec).
  - intros Hpath Hb64 Hname st. unfold _read_attachment_bytes.
    rewrite Hname, Hpath, Hb64. reflexivity.
Qed.

Example both_sources_uses_path :
  (_read_attachment_bytes
     (sim_host 4300 ∅ {[ "/attachments/a.txt" := [104; 105] ]})
     {[ "filename" := PStr "a.txt"; "path" := PStr "/attachments/a.txt";
        "content_base64" := PStr "YWJj" ]} 0 1000 blank_state).1
  = Ok ("a.txt", [104; 105], None).
Proof. vm_compute. reflexivity. Qed.

Example empty_path_uses_inline_content :
  (_read_attachment_bytes
     (sim_host 4300 ∅ {[ "/attachments/a.txt" := [104; 105] ]})
     {[ "filename" := PStr "a.txt"; "path" := PStr "";
        "content_base64" := PStr "YWJj" ]} 0 1000 blank_state).1
  = Ok ("a.txt", [97; 98; 99], None).
Proof. vm_compute. reflexivity. Qed.

Example no_source_is_refused :
  (_read_attachment_bytes (sim_host 4300 ∅ ∅)
     {[ "filename" := PStr "a.txt"; "path" := PStr "" ]} 0 1000
     blank_state).1
  = Err (Exn ValueError (MissingSource "a.txt")).
Proof. vm_compute. reflexivity. Qed.

Lemma source_selection_witness :
  _read_attachment_bytes (sim_host 4300 ∅ two_byte_file) both_sources 0 1000
    blank_state =
  (Ok (filename_of both_sources, [104; 105], content_type_of both_sources),
   after_events blank_state
     [FsIsFile "/attachments/a.txt"; FsGetSize "/attachments/a.txt";
      FsRead "/attachments/a.txt"]).
Proof.
  destruct (source_selection (sim_host 4300 ∅ two_byte_file) both_sources
              0 1000) as (_ & Hpath & _).
  destruct (Hpath eq_refl eq_refl blank_state) as [_ Hsafe].
  destruct (Hsafe "/attachments/a.txt" eq_refl) as [_ Hfile].
  apply (Hfile eq_refl 2 [104; 105]).
  - vm_compute. reflexivity.
  - lia.
  - vm_compute. reflexivity.
  - simpl. lia.
Defined.

(** ** Path guard *)

(** *** Splitting and joining on the separator *)

Lemma split_not_nil sep s : PyStr.split sep s ≠ [].
Proof.
  destruct s as [|c s]; simpl; [done|].
  destruct (Ascii.eqb c sep); [done|]. by destruct (PyStr.split sep s).
Qed.

Lemma split_pieces sep s :
  Forall (λ p, PyStr.contains sep p = false) (PyStr.split sep s).
Proof.
  induction s as [|c s IH]; simpl; [by repeat constructor|].
  destruct (Ascii.eqb c sep) eqn:Hc; [by constructor|].
  destruct (PyStr.split sep s) as [|p ps].
  - repeat constructor. simpl. by rewrite Hc.
  - apply Forall_cons in IH as [Hp Hps]. constructor; [|done].
    simpl. by rewrite Hc.
Qed.

Lemma split_no_sep sep s :
  PyStr.contains sep s = false → PyStr.split sep s = [s].
Proof.
  induction s as [|c s IH]; simpl; [done|].
  intros [Hc Hs]%orb_false_elim. rewrite Hc, IH; done.
Qed.

Lemma split_app_sep sep a b :
  PyStr.split sep (a +:+ String sep b) =
    PyStr.split sep a ++ PyStr.split sep b.
Proof.
  induction a as [|c a IH].
  - rewrite append_nil_l. simpl. by rewrite Ascii.eqb_refl.
  - rewrite append_cons. cbn [PyStr.split]. rewrite IH.
    destruct (Ascii.eqb c sep); [done|].
    pose proof (split_not_nil sep a).
    by destruct (PyStr.split sep a).
Qed.

Lemma join_cons_cons sep x y l :
  PyStr.join sep (x :: y :: l) = x +:+ sep +:+ PyStr.join sep (y :: l).
Proof. reflexivity. Qed.

Lemma split_join sep l :
  l ≠ [] → Forall (λ p, PyStr.contains sep p = false) l →
  PyStr.split sep (PyStr.join (String sep "") l) = l.
Proof.
  induction l as [|x l IH]; [done|]. intros _ [Hx Hl]%Forall_cons.
  destruct l as [|y l].
  - by apply split_no_sep.
  - rewrite join_cons_cons, append_cons, append_nil_l, split_app_sep.
    rewrite (split_no_sep _ x Hx), IH; done.
Qed.

Lemma join_nil_iff l :
  Forall component_like l → PyStr.join "/" l = "" → l = [].
Proof.
  destruct l as [|x l]; [done|]. intros [[_ Hx] _]%Forall_cons.
  destruct l as [|y l]; [done|]. rewrite join_cons_cons.
  by destruct x.
Qed.

Lemma join_inj l1 l2 :
  Forall component_like l1 → Forall component_like l2 →
  PyStr.join "/" l1 = PyStr.join "/" l2 → l1 = l2.
Proof.
  intros H1 H2 Heq.
  destruct l1 as [|x1 l1].
  { symmetry. by apply join_nil_iff. }
  destruct l2 as [|x2 l2].
  { by apply join_nil_iff in Heq. }
  rewrite <- (split_join "/" (x1 :: l1)), <- (split_join "/" (x2 :: l2));
    [by rewrite Heq|done| |done|].
  - eapply Forall_impl; [exact H2|]. by intros ? [].
  - eapply Forall_impl; [exact H1|]. by intros ? [].
Qed.

Lemma components_like p : Forall component_like (PosixPath.components p).
Proof.
  unfold PosixPath.components. apply Forall_forall. intros c.
  rewrite list_elem_of_filter. intros [[Hne _] Hin].
  pose proof (split_pieces "/" p) as Hp. rewrite Forall_forall in Hp.
  split; [by apply Hp|done].
Qed.

(** *** The common prefix *)

Lemma common_prefix_comm l1 l2 : common_prefix l1 l2 = common_prefix l2 l1.
Proof.
  revert l2. induction l1 as [|x l1 IH]; intros [|y l2]; simpl; try done.
  rewrite String.eqb_sym. destruct (String.eqb_spec y x) as [->|]; [|done].
  by rewrite IH.
Qed.

Lemma common_prefix_idemp l : common_prefix l l = l.
Proof.
  induction l as [|x l IH]; simpl; [done|].
  by rewrite String.eqb_refl, IH.
Qed.

Lemma common_prefix_is_left l1 l2 :
  common_prefix l1 l2 = l1 ↔ l1 `prefix_of` l2.
Proof.
  revert l2. induction l1 as [|x l1 IH]; intros l2.
  - split; [intros _; apply prefix_nil|by destruct l2].
  - destruct l2 as [|y l2]; simpl.
    + split; [done|]. by intros ?%prefix_nil_not.
    + destruct (String.eqb_spec x y) as [->|Hne].
      * split.
        -- intros [= H]. apply prefix_cons. by apply IH.
        -- intros H%prefix_cons_inv_2. f_equal. by apply IH.
      * split; [done|]. by intros ?%prefix_cons_inv_1.
Qed.

Lemma common_prefix_sub l1 l2 x : x ∈ common_prefix l1 l2 → x ∈ l1.
Proof.
  revert l2. induction l1 as [|y l1 IH]; intros [|z l2]; simpl;
    try by intros ?%not_elem_of_nil.
  destruct (String.eqb y z); [|by intros ?%not_elem_of_nil].
  rewrite !elem_of_cons. intros [->|H]; [by left|right; eauto].
Qed.

Lemma string_compare_refl s : String.compare s s = Eq.
Proof.
  induction s as [|c s IH]; simpl; [done|].
  unfold Ascii.compare. by rewrite N.compare_refl.
Qed.

Lemma list_compare_refl l : PosixPath.list_compare l l = Eq.
Proof.
  induction l as [|x l IH]; simpl; [done|]. by rewrite string_compare_refl.
Qed.

Lemma list_compare_antisym l1 l2 :
  PosixPath.list_compare l1 l2 = CompOpp (PosixPath.list_compare l2 l1).
Proof.
  revert l2. induction l1 as [|x l1 IH]; intros [|y l2]; simpl; try done.
  rewrite (String.compare_antisym y x).
  destruct (String.compare x y); simpl; [apply IH|done..].
Qed.

Lemma list_compare_eq l1 l2 :
  PosixPath.list_compare l1 l2 = Eq → l1 = l2.
Proof.
  revert l2. induction l1 as [|x l1 IH]; intros [|y l2]; simpl; try done.
  destruct (String.compare x y) eqn:Hc; try done.
  apply String.compare_eq_iff in Hc as ->. intros H. f_equal. by apply IH.
Qed.

(** When [s1] does not come after [s2], indexing [s2] never fails, and the
    loop leaves the longest common prefix in [common]. *)
Lemma first_mismatch_common_prefix s1 s2 i :
  PosixPath.list_compare s1 s2 ≠ Gt →
  ∃ m, PosixPath.first_mismatch i s1 s2 = Ok m ∧
       match m with
       | Some j => (i ≤ j)%nat ∧ take (j - i) s1 = common_prefix s1 s2
       | None => s1 = common_prefix s1 s2
       end.
Proof.
  revert s2 i. induction s1 as [|x s1 IH]; intros s2 i Hle.
  - exists None. by destruct s2.
  - destruct s2 as [|y s2]; [done|]. simpl in *.
    destruct (String.eqb_spec x y) as [->|Hne].
    + assert (Hc : String.compare y y = Eq) by apply string_compare_refl.
      rewrite Hc in Hle.
      destruct (IH s2 (S i) Hle) as (m & -> & Hm). exists m. split; [done|].
      destruct m as [j|].
      * destruct Hm as [Hj Hm]. split; [lia|].
        replace (j - i)%nat with (S (j - S i)) by lia. simpl. by rewrite Hm.
      * by rewrite <- Hm.
    + exists (Some i). split; [done|]. split; [done|].
      by rewrite Nat.sub_diag.
Qed.

Lemma min2_max2 c1 c2 :
  PosixPath.list_compare (PosixPath.min2 c1 c2) (PosixPath.max2 c1 c2) ≠ Gt ∧
  common_prefix (PosixPath.min2 c1 c2) (PosixPath.max2 c1 c2) =
    common_prefix c1 c2.
Proof.
  unfold PosixPath.min2, PosixPath.max2.
  destruct (PosixPath.list_compare c2 c1) eqn:Hc.
  - apply list_compare_eq in Hc as ->.
    rewrite common_prefix_idemp. split; [|done].
    by rewrite list_compare_refl.
  - split; [by rewrite Hc|apply common_prefix_comm].
  - split; [|done]. by rewrite list_compare_antisym, Hc.
Qed.

(** [commonpath] of two absolute paths never fails and joins the longest
    common prefix of their components. *)
Lemma commonpath_absolute p1 p2 :
  PosixPath.isabs p1 = true → PosixPath.isabs p2 = true →
  PosixPath.commonpath p1 p2 =
    Ok ("/" +:+ PyStr.join "/"
          (common_prefix (PosixPath.components p1) (PosixPath.components p2))).
Proof.
  intros H1 H2. unfold PosixPath.commonpath. rewrite H1, H2. simpl.
  destruct (min2_max2 (PosixPath.components p1) (PosixPath.components p2))
    as [Hle Hcp].
  destruct (first_mismatch_common_prefix _ _ 0 Hle) as (m & -> & Hm).
  simpl. do 3 f_equal. rewrite <- Hcp.
  destruct m as [j|]; [|done]. destruct Hm as [_ Hm].
  by rewrite Nat.sub_0_r in Hm.
Qed.

Lemma commonpath_mixed p1 p2 :
  PosixPath.isabs p1 = true → PosixPath.isabs p2 = false →
  PosixPath.commonpath p1 p2 = Err PosixPath.mixed_paths.
Proof.
  intros H1 H2. unfold PosixPath.commonpath. by rewrite H1, H2.
Qed.

(** *** The guard *)

Lemma canonical_isabs p : canonical p → PosixPath.isabs p = true.
Proof.
  intros H. rewrite H, append_cons, append_nil_l.
  by destruct (PyStr.join _ _).
Qed.

Lemma commonpath_is_root root candidate :
  canonical root →
  PosixPath.commonpath root candidate = Ok root ↔
  equal_or_nested root candidate.
Proof.
  intros Hroot. pose proof (canonical_isabs _ Hroot) as Habs.
  unfold equal_or_nested.
  destruct (PosixPath.isabs candidate) eqn:Hcand.
  - rewrite commonpath_absolute by done.
    rewrite <- common_prefix_is_left. split.
    + intros [= Heq]. split; [done|].
      pose proof (eq_trans Heq Hroot) as Heq'.
      apply (inj (String.app "/")) in Heq'.
      apply join_inj in Heq'; [done| |].
      * apply Forall_forall. intros c Hc%common_prefix_sub.
        pose proof (components_like root) as Hl.
        rewrite Forall_forall in Hl. by apply Hl.
      * apply components_like.
    + intros [_ ->]. by rewrite <- Hroot.
  - rewrite commonpath_mixed by done. split; [done|by intros []].
Qed.

Lemma _resolve_and_validate_attachment_path_ok h root path resolved :
  realpath h (ALLOWED_ATTACHMENTS_DIR h) = Ok root →
  canonical root →
  _resolve_and_validate_attachment_path h path = Ok resolved ↔
  path ≠ "" ∧
  PyStr.contains ":" (PyStr.take 3 path) = false ∧
  PyStr.startswith path "\\" = false ∧
  PosixPath.isabs path = true ∧
  realpath h path = Ok resolved ∧
  equal_or_nested root resolved.
Proof.
  intros Hroot Hcanon. unfold _resolve_and_validate_attachment_path.
  rewrite Hroot. cbn [rbind].
  destruct (PyStr.truthy path) eqn:Htruthy; cbn [negb].
  2: { apply PyStrFacts.truthy_false in Htruthy. by split; [|intros []]. }
  apply PyStrFacts.truthy_true in Htruthy.
  destruct (PyStr.contains ":" (PyStr.take 3 path)); cbn [orb];
    [by split; [|intros (_ & ? & _)]|].
  destruct (PyStr.startswith path "\\");
    [by split; [|intros (_ & _ & ? & _)]|].
  destruct (PosixPath.isabs path); cbn [negb];
    [|by split; [|intros (_ & _ & _ & ? & _)]].
  destruct (realpath h path) as [candidate|e]; cbn [rbind];
    [|by split; [|intros (_ & _ & _ & _ & ? & _)]].
  destruct (PosixPath.commonpath root candidate) as [common|e] eqn:Hcommon;
    cbn [try_except rbind].
  - destruct (String.eqb_spec common root) as [->|Hne]; cbn [negb].
    + apply commonpath_is_root in Hcommon; [|done].
      split; [by intros [= ->]|by intros (_ & _ & _ & _ & [= ->] & _)].
    + split; [done|]. intros (_ & _ & _ & _ & [= ->] & Heq).
      apply commonpath_is_root in Heq; [|done]. congruence.
  - split; [by destruct (is_ValueError (exn_class e))|].
    intros (_ & _ & _ & _ & [= ->] & Heq).
    apply commonpath_is_root in Heq; [|done]. congruence.
Qed.

Lemma relative_path_rejected h path :
  PosixPath.isabs path = false →
  ∃ e, _resolve_and_validate_attachment_path h path = Err e.
Proof.
  intros Hrel. unfold _resolve_and_validate_attachment_path.
  destruct (PyStr.truthy path); cbn [negb]; [|by eexists].
  destruct (realpath h (ALLOWED_ATTACHMENTS_DIR h)); cbn [rbind];
    [|by eexists].
  rewrite Hrel. cbn [negb].
  destruct (PyStr.contains ":" (PyStr.take 3 path) ||
            PyStr.startswith path "\\"); by eexists.
Qed.

Lemma not_ok_is_err {A} (r : result A) : (∀ a, r ≠ Ok a) → ∃ e, r = Err e.
Proof. destruct r as [a|e]; [by intros H; destruct (H a)|by eexists]. Qed.

Lemma sibling_with_root_prefix_rejected h path rest :
  realpath h (ALLOWED_ATTACHMENTS_DIR h) = Ok "/attachments" →
  realpath h path = Ok ("/attachments-evil" +:+ rest) →
  ∃ e, _resolve_and_validate_attachment_path h path = Err e.
Proof.
  intros Hroot Hcand. apply not_ok_is_err. intros resolved Hok.
  apply (_resolve_and_validate_attachment_path_ok h "/attachments") in Hok
    as (_ & _ & _ & _ & Hres & _ & Hpre); [|done..].
  rewrite Hcand in Hres. injection Hres as <-.
  revert Hpre. rewrite !append_cons, append_nil_l.
  unfold PosixPath.components. cbn [PyStr.split Ascii.eqb Bool.eqb].
  pose proof (split_not_nil "/" rest).
  destruct (PyStr.split "/" rest) as [|p ps]; [done|].
  rewrite filter_cons_False by (intros []; done).
  rewrite filter_cons_True by done.
  change (filter _ (PyStr.split "/" "/attachments")) with ["attachments"].
  by intros ?%prefix_cons_inv_1.
Qed.

Lemma join_app sep l1 l2 :
  l1 ≠ [] → l2 ≠ [] →
  PyStr.join sep (l1 ++ l2) = PyStr.join sep l1 +:+ sep +:+ PyStr.join sep l2.
Proof.
  intros H1 H2. induction l1 as [|x l1 IH]; [done|].
  destruct l1 as [|y l1].
  - destruct l2 as [|z l2]; [done|]. reflexivity.
  - rewrite <- !app_comm_cons, !join_cons_cons, app_comm_cons, IH by done.
    by rewrite !append_assoc.
Qed.

Lemma components_app_sep a b :
  PosixPath.components (a +:+ String "/" b) =
    PosixPath.components a ++ PosixPath.components b.
Proof.
  unfold PosixPath.components. by rewrite split_app_sep, filter_app.
Qed.

(** On canonical paths, lying under the root is what it is on the strings:
    the candidate is the root, or the root followed by a separator and
    more (or the root is [/] itself). *)
Lemma equal_or_nested_canonical root candidate :
  canonical root → canonical candidate →
  equal_or_nested root candidate ↔
  candidate = root ∨ root = "/" ∨
  ∃ rest, candidate = root +:+ "/" +:+ rest.
Proof.
  intros Hroot Hcand. unfold equal_or_nested. split.
  - intros [_ [k Hk]]. unfold canonical in Hroot, Hcand.
    destruct k as [|x k].
    { left. rewrite app_nil_r in Hk. rewrite Hk in Hcand.
      by rewrite Hcand. }
    destruct (PosixPath.components root) as [|y cr] eqn:Hcr.
    { right; left. exact Hroot. }
    right; right. exists (PyStr.join "/" (x :: k)).
    rewrite Hk in Hcand. rewrite Hcand, Hroot, join_app by done.
    by rewrite !append_assoc.
  - intros [->|[->|[rest ->]]].
    + split; [by apply canonical_isabs|done].
    + split; [by apply canonical_isabs|]. apply prefix_nil.
    + split; [by apply canonical_isabs|].
      rewrite append_cons, append_nil_l, components_app_sep.
      by apply prefix_app_r.
Qed.

Lemma outside_root_rejected h path resolved :
  realpath h (ALLOWED_ATTACHMENTS_DIR h) = Ok "/attachments" →
  realpath h path = Ok resolved →
  resolved = "/etc/passwd" ∨ resolved = "/attachments-other/x" ∨
    (∃ rest, resolved = "/attachments-evil" +:+ rest) →
  ∃ e, _resolve_and_validate_attachment_path h path = Err e.
Proof.
  intros Hroot Hcand [->|[->|[rest ->]]];
    [| |by eapply sibling_with_root_prefix_rejected].
  all: apply not_ok_is_err; intros resolved Hok.
  all: apply (_resolve_and_validate_attachment_path_ok h "/attachments")
         in Hok as (_ & _ & _ & _ & Hres & _ & Hpre); [|done..].
  all: rewrite Hcand in Hres; injection Hres as <-.
  all: vm_compute in Hpre; by destruct Hpre as [k [=]].
Qed.

(** C1. With the allowed root resolved to a canonical path,
    [_resolve_and_validate_attachment_path] returns a path exactly for a
    non-empty value with no colon among its first three characters and no
    leading double backslash that is absolute and whose resolved path is
    the resolved root or lies under it, component by component (for
    canonical paths: it is the root, or the root followed by a separator
    and more); it then returns that resolved path.  A relative path is
    rejected on every host.
    With the root [/attachments], a value that resolves to [/etc/passwd]
    or to [/attachments-other/x] is rejected, and so is one whose resolved
    path merely continues the text of the root, as [/attachments-evil]
    does; on a host without symbolic links these are the values
    [/attachments/../etc/passwd], [/attachments-other/x] and
    [/attachments-evil] themselves. *)
Theorem path_guard :
  (∀ h root path resolved,
     realpath h (ALLOWED_ATTACHMENTS_DIR h) = Ok root →
     canonical root →
     _resolve_and_validate_attachment_path h path = Ok resolved ↔
     path ≠ "" ∧
     PyStr.contains ":" (PyStr.take 3 path) = false ∧
     PyStr.startswith path "\\" = false ∧
     PosixPath.isabs path = true ∧
     realpath h path = Ok resolved ∧
     equal_or_nested root resolved) ∧
  (∀ root candidate,
     canonical root → canonical candidate →
     equal_or_nested root candidate ↔
     candidate = root ∨ root = "/" ∨
     ∃ rest, candidate = root +:+ "/" +:+ rest) ∧
  (∀ h path,
     PosixPath.isabs path = false →
     ∃ e, _resolve_and_validate_attachment_path h path = Err e) ∧
  (∀ h path resolved,
     realpath h (ALLOWED_ATTACHMENTS_DIR h) = Ok "/attachments" →
     realpath h path = Ok resolved →
     resolved = "/etc/passwd" ∨ resolved = "/attachments-other/x" ∨
       (∃ rest, resolved = "/attachments-evil" +:+ rest) →
     ∃ e, _resolve_and_validate_attachment_path h path = Err e) ∧
  (∀ h cwd path,
     realpath h = PosixPath.lexical_realpath cwd →
     ALLOWED_ATTACHMENTS_DIR h = "/attachments" →
     path ∈ ["/attachments/../etc/passwd"; "/attachments-other/x";
             "/attachments-evil"; "/attachments-evil/x"] →
     ∃ e, _resolve_and_validate_attachment_path h path = Err e).
Proof.
  split; [apply _resolve_and_validate_attachment_path_ok|].
  split; [apply equal_or_nested_canonical|].
  split; [apply relative_path_rejected|].
  split; [apply outside_root_rejected|].
  intros h cwd path Hreal Hallowed Hpath.
  unfold _resolve_and_validate_attachment_path. rewrite Hreal, Hallowed.
  repeat (apply elem_of_cons in Hpath as [->|Hpath]); [..|by inversion Hpath];
    vm_compute; by eexists.
Qed.

Lemma path_guard_witness :
  _resolve_and_validate_attachment_path
    (sim_host 4300 ∅ ∅) "/attachments/reports/../a.txt"
    = Ok "/attachments/a.txt" ↔
  "/attachments/reports/../a.txt" ≠ "" ∧
  PyStr.contains ":" (PyStr.take 3 "/attachments/reports/../a.txt") = false ∧
  PyStr.startswith "/attachments/reports/../a.txt" "\\" = false ∧
  PosixPath.isabs "/attachments/reports/../a.txt" = true ∧
  realpath (sim_host 4300 ∅ ∅) "/attachments/reports/../a.txt"
    = Ok "/attachments/a.txt" ∧
  equal_or_nested "/attachments" "/attachments/a.txt".
Proof.
  apply (proj1 path_guard (sim_host 4300 ∅ ∅) "/attachments").
  - vm_compute. reflexivity.
  - vm_compute. reflexivity.
Defined.

Example path_guard_accepts :
  _resolve_and_validate_attachment_path
    (sim_host 4300 ∅ ∅) "/attachments/reports/../a.txt"
    = Ok "/attachments/a.txt".
Proof. vm_compute. reflexivity. Qed.

(** * Further properties *)

(** ** Content type *)

Lemma split_once_some sep s a b :
  split_once sep s = Some (a, b) →
  s = a +:+ String sep b ∧ PyStr.contains sep a = false.
Proof.
  revert a. induction s as [|c s IH]; intros a; simpl; [done|].
  destruct (Ascii.eqb_spec c sep) as [->|Hne].
  - intros [= <- <-]. done.
  - destruct (split_once sep s) as [[a' b']|]; [|done].
    intros [= <- <-]. destruct (IH a' eq_refl) as [-> Ha].
    split; [done|]. simpl. rewrite Ha.
    by destruct (Ascii.eqb_spec c sep).
Qed.

Lemma split_once_none sep s :
  split_once sep s = None ↔ PyStr.contains sep s = false.
Proof.
  induction s as [|c s IH]; simpl; [done|].
  destruct (Ascii.eqb c sep); simpl; [done|].
  rewrite <- IH. by destruct (split_once sep s) as [[??]|].
Qed.

(** X1. An explicit content type that has a [/] is used, whatever the file
    name would suggest: it is cut at its first [/], so the main type has no
    [/] and main type, [/], subtype spell the explicit type again.  Without
    one, the type guessed from the file name is used in the same way, and
    without that the result is [application/octet-stream]. *)
Theorem content_type_resolution (h : Host) (filename : string)
    (explicit : option string) :
  (∀ e, explicit = Some e → PyStr.contains "/" e = true →
     ∃ maintype subtype,
       _guess_content_type h filename explicit = (maintype, subtype) ∧
       e = maintype +:+ "/" +:+ subtype ∧
       PyStr.contains "/" maintype = false) ∧
  ((∀ e, explicit = Some e → PyStr.contains "/" e = false) →
   (∀ g, guess_type h filename = Some g → PyStr.contains "/" g = true →
      ∃ maintype subtype,
        _guess_content_type h filename explicit = (maintype, subtype) ∧
        g = maintype +:+ "/" +:+ subtype ∧
        PyStr.contains "/" maintype = false) ∧
   ((∀ g, guess_type h filename = Some g → PyStr.contains "/" g = false) →
    _guess_content_type h filename explicit
      = ("application", "octet-stream"))).
Proof.
  unfold _guess_content_type. split.
  - intros e -> He. simpl.
    destruct (split_once "/" e) as [[m s]|] eqn:Hs.
    + apply split_once_some in Hs as [-> Hm]. by exists m, s.
    + apply split_once_none in Hs. congruence.
  - intros Hexp.
    assert (explicit ≫= split_once "/" = None) as ->.
    { destruct explicit as [e|]; [|done]. simpl.
      apply split_once_none. by apply Hexp. }
    split.
    + intros g -> Hg. simpl.
      destruct (split_once "/" g) as [[m s]|] eqn:Hs.
      * apply split_once_some in Hs as [-> Hm]. by exists m, s.
      * apply split_once_none in Hs. congruence.
    + intros Hguess.
      assert (guess_type h filename ≫= split_once "/" = None) as ->; [|done].
      destruct (guess_type h filename) as [g|]; [|done]. simpl.
      apply split_once_none. by apply Hguess.
Qed.

Lemma content_type_resolution_witness :
  ∃ maintype subtype,
    _guess_content_type (sim_host 4300 ∅ ∅) "report.bin"
      (Some "application/vnd.api+json/x") = (maintype, subtype) ∧
    "application/vnd.api+json/x" = maintype +:+ "/" +:+ subtype ∧
    PyStr.contains "/" maintype = false.
Proof.
  apply (proj1 (content_type_resolution (sim_host 4300 ∅ ∅) "report.bin"
                  (Some "application/vnd.api+json/x"))).
  - reflexivity.
  - reflexivity.
Defined.

(** ** Recipients *)

Lemma all_chars_lstrip P s :
  all_chars P s = true → all_chars P (PyStr.lstrip s) = true.
Proof.
  induction s as [|c s IH]; simpl; [done|].
  intros [Hc Hs]%andb_prop. destruct (PyStr.isspace c); [by apply IH|].
  simpl. by rewrite Hc, Hs.
Qed.

Lemma all_chars_rstrip P s :
  all_chars P s = true → all_chars P (PyStr.rstrip s) = true.
Proof.
  induction s as [|c s IH]; simpl; [done|].
  intros [Hc Hs]%andb_prop. specialize (IH Hs).
  destruct (PyStr.rstrip s) as [|d r].
  - destruct (PyStr.isspace c); simpl; [done|]. by rewrite Hc.
  - change (all_chars P (String c (String d r)))
      with (P c && all_chars P (String d r)). by rewrite Hc, IH.
Qed.

Lemma all_chars_strip P s :
  all_chars P s = true → all_chars P (PyStr.strip s) = true.
Proof. intros H. by apply all_chars_rstrip, all_chars_lstrip. Qed.

Lemma split_on_not_nil P s : split_on P s ≠ [].
Proof.
  destruct s as [|c s]; simpl; [done|].
  destruct (P c); [done|]. by destruct (split_on P s).
Qed.

Lemma split_on_pieces P s :
  Forall (λ p, all_chars (λ c, negb (P c)) p = true) (split_on P s).
Proof.
  induction s as [|c s IH]; simpl; [by repeat constructor|].
  destruct (P c) eqn:Hc; [by constructor|].
  destruct (split_on P s) as [|p ps].
  - repeat constructor. simpl. by rewrite Hc.
  - apply Forall_cons in IH as [Hp Hps]. constructor; [|done].
    simpl. by rewrite Hc.
Qed.

Lemma split_on_no_sep P s :
  all_chars (λ c, negb (P c)) s = true → split_on P s = [s].
Proof.
  induction s as [|c s IH]; simpl; [done|].
  intros [Hc Hs]%andb_prop. apply negb_true_iff in Hc.
  by rewrite Hc, IH.
Qed.

Lemma split_on_app_sep P c a b :
  P c = true →
  split_on P (a +:+ String c b) = split_on P a ++ split_on P b.
Proof.
  intros Hc. induction a as [|d a IH].
  - rewrite append_nil_l. simpl. by rewrite Hc.
  - rewrite append_cons. cbn [split_on]. rewrite IH.
    destruct (P d); [done|].
    pose proof (split_on_not_nil P a).
    by destruct (split_on P a).
Qed.

Lemma split_on_join P c l :
  P c = true → l ≠ [] →
  Forall (λ p, all_chars (λ c, negb (P c)) p = true) l →
  split_on P (PyStr.join (String c "") l) = l.
Proof.
  intros Hc. induction l as [|x l IH]; [done|].
  intros _ [Hx Hl]%Forall_cons. destruct l as [|y l].
  - by apply split_on_no_sep.
  - rewrite join_cons_cons, append_cons, append_nil_l,
      split_on_app_sep by done.
    rewrite (split_on_no_sep _ x Hx), IH; done.
Qed.

Lemma elem_of_field_tokens value t :
  t ∈ field_tokens (Some value) ↔
  t ≠ "" ∧ ∃ p, t = PyStr.strip p ∧ p ∈ split_on is_separator value.
Proof.
  unfold field_tokens. rewrite list_elem_of_filter, list_elem_of_fmap.
  reflexivity.
Qed.

(** X2. Every recipient [_split_recipients] returns is not empty, has no
    whitespace at either end, and contains neither [,] nor [;]. *)
Theorem split_recipients_tokens_clean (field : option string) (t : string) :
  t ∈ _split_recipients field →
  t ≠ "" ∧ PyStr.strip t = t ∧
  PyStr.contains "," t = false ∧ PyStr.contains ";" t = false.
Proof.
  rewrite _split_recipients_tokens. destruct field as [value|].
  2: { by intros ?%not_elem_of_nil. }
  rewrite elem_of_field_tokens. intros (Hne & p & -> & Hp).
  split; [done|]. split; [apply PyStrFacts.strip_idem|].
  pose proof (split_on_pieces is_separator value) as Hpieces.
  rewrite Forall_forall in Hpieces. specialize (Hpieces p Hp).
  apply all_chars_strip in Hpieces. revert Hpieces. clear.
  generalize (PyStr.strip p). intros s. induction s as [|c s IH]; [done|].
  simpl. unfold is_separator at 1.
  intros [Hc Hs]%andb_prop. apply negb_true_iff, orb_false_elim in Hc as [-> ->].
  by apply IH.
Qed.

Lemma split_recipients_tokens_clean_witness :
  "b@y" ≠ "" ∧ PyStr.strip "b@y" = "b@y" ∧
  PyStr.contains "," "b@y" = false ∧ PyStr.contains ";" "b@y" = false.
Proof.
  apply (split_recipients_tokens_clean (Some " a@x ;; b@y , ") "b@y").
  vm_compute. set_solver.
Defined.

(** X3. Joining recipients and splitting them again gives them back: for
    tokens that are not empty, trimmed and free of separators, the field
    that lists them with [,] (or with [;]) between them resolves to exactly
    these tokens, in order. *)
Theorem split_recipients_of_join (l : list string) (sep : ascii) :
  is_separator sep = true →
  Forall clean_token l →
  _split_recipients (Some (PyStr.join (String sep "") l)) = l.
Proof.
  intros Hsep Hl. rewrite _split_recipients_tokens.
  destruct l as [|x l]; [done|]. unfold field_tokens.
  change (λ c, Ascii.eqb c "," || Ascii.eqb c ";") with is_separator.
  rewrite split_on_join; [|done|done|].
  2: { eapply Forall_impl; [exact Hl|]. by intros t (_ & _ & ?). }
  assert (PyStr.strip <$> x :: l = x :: l) as ->.
  { clear Hsep. induction Hl as [|y k (_ & Hy & _) _ IH]; [done|].
    rewrite fmap_cons, Hy. by f_equal. }
  clear Hsep. induction Hl as [|y k (Hy & _ & _) _ IH]; [done|].
  rewrite filter_cons_True by done. by f_equal.
Qed.

Lemma split_recipients_of_join_witness :
  _split_recipients (Some (PyStr.join ";" ["a@x"; "b b@y"; "c@z"]))
    = ["a@x"; "b b@y"; "c@z"].
Proof.
  apply (split_recipients_of_join ["a@x"; "b b@y"; "c@z"] ";").
  - reflexivity.
  - repeat constructor; done.
Defined.

Lemma unseen_NoDup_id l seen :
  NoDup l → (∀ x, x ∈ l → x ∉ seen) → unseen seen l = l.
Proof.
  revert seen. induction l as [|y l IH]; intros seen Hnd Hs; [done|]. simpl.
  apply NoDup_cons in Hnd as [Hy Hnd].
  destruct (decide (y ∈ seen)); [set_solver|].
  f_equal. apply IH; [done|]. set_solver.
Qed.

Lemma unseen_sublist seen l : unseen seen l `sublist_of` l.
Proof.
  revert seen. induction l as [|y l IH]; intros seen; simpl; [done|].
  destruct (decide (y ∈ seen)); [by apply sublist_cons|by apply sublist_skip].
Qed.

(** X4. [_dedupe_keep_order] only drops items: its result is a sublist of
    the input.  It changes nothing exactly when the input has no duplicates,
    and applying it twice is the same as applying it once. *)
Theorem dedupe_keep_order_fixpoint (items : list string) :
  _dedupe_keep_order items `sublist_of` items ∧
  (_dedupe_keep_order items = items ↔ NoDup items) ∧
  _dedupe_keep_order (_dedupe_keep_order items) = _dedupe_keep_order items.
Proof.
  rewrite !_dedupe_keep_order_unseen.
  split; [apply unseen_sublist|]. split.
  - split.
    + intros <-. apply NoDup_unseen.
    + intros Hnd. apply unseen_NoDup_id; [done|set_solver].
  - apply unseen_NoDup_id; [apply NoDup_unseen|set_solver].
Qed.

(** ** The size estimate *)

Lemma endswith_length s p :
  PyStr.endswith s p = true → (String.length p ≤ String.length s)%nat.
Proof.
  induction s as [|c s IH]; cbn [PyStr.endswith].
  - rewrite orb_false_r. by intros <-%String.eqb_eq.
  - intros [<-%String.eqb_eq|H]%orb_prop; [done|].
    specialize (IH H). simpl. lia.
Qed.

(** X5. The estimate depends on the text without its whitespace only, lies
    at most two below [floor(len * 3 / 4)] of that text and never above it,
    and is never less than -1 (it is -1 for a text that is only padding). *)
Theorem estimate_bounds (b64_text : string) :
  let n := PyStr.len (remove_whitespace b64_text) in
  _estimated_base64_decoded_size (remove_whitespace b64_text)
    = _estimated_base64_decoded_size b64_text ∧
  (n * 3) `div` 4 - 2 ≤ _estimated_base64_decoded_size b64_text ∧
  _estimated_base64_decoded_size b64_text ≤ (n * 3) `div` 4 ∧
  -1 ≤ _estimated_base64_decoded_size b64_text ∧
  _estimated_base64_decoded_size "=" = -1 ∧
  _estimated_base64_decoded_size "==" = -1.
Proof.
  intros n. split.
  { by rewrite !_estimated_base64_decoded_size_eq, remove_whitespace_idemp. }
  rewrite _estimated_base64_decoded_size_eq. fold n. unfold padding_count.
  assert (0 ≤ n) by (unfold n, PyStr.len; lia).
  destruct (PyStr.endswith _ "==") eqn:H2.
  - apply endswith_length in H2. simpl in H2.
    assert (2 ≤ n) by (unfold n, PyStr.len; lia).
    assert (1 ≤ (n * 3) `div` 4) by (apply Z.div_le_lower_bound; lia).
    repeat split; (done || lia).
  - destruct (PyStr.endswith _ "=") eqn:H1.
    + apply endswith_length in H1. simpl in H1.
      assert (1 ≤ n) by (unfold n, PyStr.len; lia).
      assert (0 ≤ (n * 3) `div` 4) by (apply Z.div_pos; lia).
      repeat split; (done || lia).
    + assert (0 ≤ (n * 3) `div` 4) by (apply Z.div_pos; lia).
      repeat split; (done || lia).
Qed.

(** ** Attachment loader *)

Lemma filename_of_empty att :
  truthy (dict_get att "filename") = false ∨
  blank (py_str (dict_get att "filename")) = true →
  PyStr.truthy (filename_of att) = false.
Proof.
  unfold filename_of. intros [Hv|Hb].
  - by rewrite Hv.
  - apply PyStrFacts.truthy_false.
    destruct (truthy (dict_get att "filename")); [|done].
    by apply PyStrFacts.strip_empty_iff.
Qed.

(** X6. A descriptor whose file name is absent, falsy or only whitespace is
    refused with the missing-file-name error that carries its index, whatever
    its other fields are, and without any access to the file system. *)
Theorem missing_filename_refused (h : Host) (att : gmap string pyval)
    (i : nat) (limit : Z) (st : State) :
  truthy (dict_get att "filename") = false ∨
  blank (py_str (dict_get att "filename")) = true →
  _read_attachment_bytes h att i limit st =
    (Err (Exn ValueError (MissingFilename i)), st).
Proof.
  intros H%filename_of_empty. unfold _read_attachment_bytes. by rewrite H.
Qed.

Lemma missing_filename_refused_witness :
  _read_attachment_bytes (sim_host 4300 ∅ two_byte_file)
    {[ "filename" := PStr "   "; "path" := PStr "/attachments/a.txt" ]}
    3 1000 blank_state =
  (Err (Exn ValueError (MissingFilename 3)), blank_state).
Proof.
  apply (missing_filename_refused (sim_host 4300 ∅ two_byte_file)).
  right. vm_compute. reflexivity.
Defined.

(** What the strict decoder raises is a [binascii.Error], or the
    [ValueError] for a text that is not ASCII. *)
Lemma a2b_loop_error s :
  ∀ q l pads started out e,
    Base64.a2b_loop s q l pads started out = Err e →
    exn_class e = BinasciiError.
Proof.
  induction s as [|c s IH]; intros q l pads started out e Hrun.
  - cbn in Hrun. destruct q as [|[|q]]; by simplify_eq.
  - cbn [Base64.a2b_loop] in Hrun.
    repeat case_match; simplify_eq; try done; by eapply IH.
Qed.

Lemma b64decode_error s e :
  Base64.b64decode s = Err e →
  exn_class e = BinasciiError ∨ exn_class e = ValueError.
Proof.
  unfold Base64.b64decode, Base64.a2b_base64. intros Hrun.
  repeat case_match; simplify_eq; try (by right); try (by left);
    left; by eapply a2b_loop_error.
Qed.

(** X7. Without a truthy [path] the loader never touches the file system
    and every error it raises is a [ValueError].  Inline content that
    contains a whitespace character never loads, although the size estimate
    skips whitespace: decoding is strict. *)
Theorem inline_loading_strict (h : Host) (att : gmap string pyval) (i : nat)
    (limit : Z) (st : State) :
  truthy (dict_get att "path") = false →
  (∀ r st', _read_attachment_bytes h att i limit st = (r, st') →
     st' = st ∧ ∀ e, r = Err e → exn_class e = ValueError) ∧
  (remove_whitespace (py_str (dict_get att "content_base64"))
     ≠ py_str (dict_get att "content_base64") →
   ∃ e, _read_attachment_bytes h att i limit st = (Err e, st)).
Proof.
  intros Hpath. unfold _read_attachment_bytes. rewrite Hpath. unfold_M. split.
  - intros r st'. unfold _enforce_attachment_limit.
    destruct (Base64.b64decode _) as [payload|e0] eqn:Hdec; cbn.
    + intros H. step_M; split; try done; by intros ? [= <-].
    + apply b64decode_error in Hdec as Hclass.
      intros H. step_M; split; try done; intros ? [= <-]; try done;
        by destruct Hclass; simplify_eq.
  - intros Hws.
    destruct (negb (PyStr.truthy (filename_of att))); [by eexists|].
    destruct (truthy (dict_get att "content_base64")); [|by eexists].
    destruct (_enforce_attachment_limit _ _ _); [|by eexists]. cbn.
    destruct (Base64.b64decode _) as [payload|e] eqn:Hdec; cbn.
    + by apply estimate_of_accepted in Hdec as [Hclean _].
    + destruct (exn_class e); by eexists.
Qed.

Lemma inline_loading_strict_witness :
  ∃ e, _read_attachment_bytes (sim_host 4300 ∅ ∅)
         {[ "filename" := PStr "a.txt"; "content_base64" := PStr "YWJj ZGVm" ]}
         0 1000 blank_state = (Err e, blank_state).
Proof.
  apply (inline_loading_strict (sim_host 4300 ∅ ∅)
           {[ "filename" := PStr "a.txt";
              "content_base64" := PStr "YWJj ZGVm" ]} 0 1000 blank_state).
  - vm_compute. reflexivity.
  - vm_compute. discriminate.
Defined.





(** X10. What the loader returns is what the descriptor names: the trimmed,
    non-empty file name, the content type if it is truthy, and as payload
    either the bytes read from the guarded path of a regular file (when
    [path] is truthy) or the strictly decoded inline content. *)
Theorem loaded_attachment (h : Host) (att : gmap string pyval) (i : nat)
    (limit : Z) (st st' : State) (filename : string) (payload : list Z)
    (ct : option string) :
  _read_attachment_bytes h att i limit st = (Ok (filename, payload, ct), st') →
  filename = filename_of att ∧ filename ≠ "" ∧
  PyStr.strip filename = filename ∧
  ct = content_type_of att ∧
  ((truthy (dict_get att "path") = true ∧
    ∃ safe,
      _resolve_and_validate_attachment_path h (py_str (dict_get att "path"))
        = Ok safe ∧
      isfile h safe = true ∧ read_bytes h safe = Ok payload) ∨
   (truthy (dict_get att "path") = false ∧
    truthy (dict_get att "content_base64") = true ∧
    Base64.b64decode (py_str (dict_get att "content_base64")) = Ok payload ∧
    st' = st)).
Proof.
  unfold _read_attachment_bytes. unfold_M. intros H.
  assert (Hstrip : PyStr.strip (filename_of att) = filename_of att)
    by apply PyStrFacts.strip_idem.
  step_M.
  - split; [done|].
    split; [by apply PyStrFacts.truthy_true, negb_false_iff|].
    split; [done|]. split; [done|]. left. split; [done|].
    eexists. split; [done|]. split; [by apply negb_false_iff|done].
  - split; [done|].
    split; [by apply PyStrFacts.truthy_true, negb_false_iff|].
    split; [done|]. split; [done|]. right.
    repeat split; try done.
    match goal with
    | Hd : try_except ?d _ = Ok _ |- _ =>
        destruct d eqn:Hdec; simpl in Hd; [congruence|];
        by destruct (exn_class _)
    end.
Qed.

Lemma loaded_attachment_witness :
  "a.txt" = filename_of two_byte_attachment ∧ "a.txt" ≠ "" ∧
  PyStr.strip "a.txt" = "a.txt" ∧
  None = content_type_of two_byte_attachment ∧
  ((truthy (dict_get two_byte_attachment "path") = true ∧
    ∃ safe,
      _resolve_and_validate_attachment_path (sim_host 4300 ∅ two_byte_file)
        (py_str (dict_get two_byte_attachment "path")) = Ok safe ∧
      isfile (sim_host 4300 ∅ two_byte_file) safe = true ∧
      read_bytes (sim_host 4300 ∅ two_byte_file) safe = Ok [104; 105]) ∨
   (truthy (dict_get two_byte_attachment "path") = false ∧
    truthy (dict_get two_byte_attachment "content_base64") = true ∧
    Base64.b64decode (py_str (dict_get two_byte_attachment "content_base64"))
      = Ok [104; 105] ∧
    after_events blank_state
      [FsIsFile "/attachments/a.txt"; FsGetSize "/attachments/a.txt";
       FsRead "/attachments/a.txt"] = blank_state)).
Proof.
  apply (loaded_attachment (sim_host 4300 ∅ two_byte_file)
           two_byte_attachment 0 2 blank_state).
  vm_compute. reflexivity.
Defined.

(** ** The attachment stage *)

Lemma loader_ok_fields h att i limit st filename payload ct st' :
  _read_attachment_bytes h att i limit st = (Ok (filename, payload, ct), st') →
  filename = filename_of att ∧ ct = content_type_of att.
Proof.
  unfold _read_attachment_bytes. unfold_M. intros H. by step_M.
Qed.

(** A part that has been attached is the part of its descriptor. *)
Lemma attach_result_part h att i limit p :
  attach_result h att i limit = Ok p → part_for h limit i att p.
Proof.
  intros Hp. split; [done|]. revert Hp.
  unfold attach_result, load_result.
  destruct (_read_attachment_bytes h att i limit blank_state)
    as [[[[filename payload] ct]|e] st1] eqn:Hload; [|done].
  pose proof (loader_ok_fields _ _ _ _ _ _ _ _ _ Hload) as [-> ->].
  pose proof (loaded_within_limit _ _ _ _ _ _ _ _ _ Hload) as Hsize.
  cbn [fst rbind].
  destruct (_guess_content_type h (filename_of att) (content_type_of att))
    as [maintype subtype] eqn:Hguess.
  destruct (Email.store_headers h _) as [[]|e]; [|done].
  cbn [rbind]. intros [= <-]. cbn. by rewrite Hguess.
Qed.

Lemma attach_loop_success h limit atts :
  ∀ i st st',
    attach_loop h limit i atts st = (Ok tt, st') →
    ∃ new,
      headers (message_of st') = headers (message_of st) ∧
      content (message_of st') = content (message_of st) ∧
      alternatives (message_of st') = alternatives (message_of st) ∧
      parts (message_of st') = parts (message_of st) ++ new ∧
      logs st' = logs st ++ (attached_log <$> new) ∧
      length new = length atts ∧
      ∀ k att, atts !! k = Some att →
        ∃ p, new !! k = Some p ∧ part_for h limit (i + k) att p.
Proof.
  induction atts as [|a atts IH]; intros i st st' H.
  - cbn in H. unfold_M. simplify_eq. exists [].
    rewrite !app_nil_r. repeat split; done.
  - destruct (attach_loop_step h limit a atts i st)
      as [(p & st1 & Hp & Hl & Hm & _ & Heq)|(e & st1 & _ & Heq)];
      rewrite Heq in H; [|done].
    apply IH in H as (new & Hh & Hc & Ha & Hparts & Hlog & Hlen & Hnew).
    rewrite Hm in Hh, Hc, Ha, Hparts. cbn in Hh, Hc, Ha, Hparts.
    exists (p :: new). rewrite Hh, Hc, Ha, Hparts, Hlog, Hl.
    rewrite <- !app_assoc. repeat split; try done.
    + simpl. by rewrite Hlen.
    + intros [|k] att Hk; simpl in Hk.
      * simplify_eq. exists p. split; [done|].
        rewrite Nat.add_0_r. by apply attach_result_part.
      * destruct (Hnew k att Hk) as (q & Hq & Hpart).
        exists q. split; [done|].
        by replace (i + S k)%nat with (S i + k)%nat by lia.
Qed.

(** X11. When the attachment stage ends without an error, the message holds
    the headers, the plain body and (if given) the HTML alternative as
    assembled before, and exactly one part per descriptor, in the order of
    the descriptors: each part is what the loader returns for its
    descriptor, named by its trimmed file name, typed by
    [_guess_content_type], and no larger than the limit.  The log is the
    allowed directory, the limit, and one entry per part. *)
Theorem attachments_in_order (h : Host) (self : SendHTMLEmail) (limit : Z)
    (st : State) :
  attachment_stage h self limit (initial_state self) = (Ok tt, st) →
  ∃ root,
    realpath h (ALLOWED_ATTACHMENTS_DIR h) = Ok root ∧
    headers (message_of st) = expected_headers self ∧
    content (message_of st) = email_body self ∧
    alternatives (message_of st) =
      (if opt_truthy (email_body_html self)
       then [("html", default "" (email_body_html self))] else []) ∧
    length (parts (message_of st)) = length (attachments self) ∧
    (∀ k att, attachments self !! k = Some att →
       ∃ p, parts (message_of st) !! k = Some p ∧ part_for h limit k att p) ∧
    logs st = LogAllowedDir root :: LogSizeLimit limit
              :: (attached_log <$> parts (message_of st)).
Proof.
  unfold attachment_stage. unfold_M.
  destruct (realpath h (ALLOWED_ATTACHMENTS_DIR h)) as [root|e]; [|done].
  intros H. apply attach_loop_success in H
    as (new & Hh & Hc & Ha & Hp & Hlog & Hlen & Hnew).
  cbn in Hh, Hc, Ha, Hp, Hlog.
  exists root. rewrite Hh, Hc, Ha, Hp, Hlog.
  repeat split; done.
Qed.

Lemma attachments_in_order_witness :
  ∃ root,
    realpath (sim_host 4300 ∅ two_byte_file)
      (ALLOWED_ATTACHMENTS_DIR (sim_host 4300 ∅ two_byte_file)) = Ok root ∧
    headers (message_of
               (attachment_stage (sim_host 4300 ∅ two_byte_file)
                  report_command 1000 (initial_state report_command)).2)
      = expected_headers report_command ∧
    content (message_of
               (attachment_stage (sim_host 4300 ∅ two_byte_file)
                  report_command 1000 (initial_state report_command)).2)
      = email_body report_command ∧
    alternatives (message_of
               (attachment_stage (sim_host 4300 ∅ two_byte_file)
                  report_command 1000 (initial_state report_command)).2) =
      (if opt_truthy (email_body_html report_command)
       then [("html", default "" (email_body_html report_command))] else []) ∧
    length (parts (message_of
               (attachment_stage (sim_host 4300 ∅ two_byte_file)
                  report_command 1000 (initial_state report_command)).2))
      = length (attachments report_command) ∧
    (∀ k att, attachments report_command !! k = Some att →
       ∃ p, parts (message_of
               (attachment_stage (sim_host 4300 ∅ two_byte_file)
                  report_command 1000 (initial_state report_command)).2)
              !! k = Some p ∧
            part_for (sim_host 4300 ∅ two_byte_file) 1000 k att p) ∧
    logs (attachment_stage (sim_host 4300 ∅ two_byte_file)
            report_command 1000 (initial_state report_command)).2
    = LogAllowedDir root :: LogSizeLimit 1000
      :: (attached_log <$>
            parts (message_of
               (attachment_stage (sim_host 4300 ∅ two_byte_file)
                  report_command 1000 (initial_state report_command)).2)).
Proof.
  apply (attachments_in_order (sim_host 4300 ∅ two_byte_file)
           report_command 1000).
  vm_compute. reflexivity.
Defined.

Example report_command_parts :
  parts (message_of
           (attachment_stage (sim_host 4300 ∅ two_byte_file)
              report_command 1000 (initial_state report_command)).2) =
  [ {| part_payload := [104; 105]; part_maintype := "application";
       part_subtype := "octet-stream"; part_filename := "a.txt" |};
    {| part_payload := [97; 98; 99]; part_maintype := "application";
       part_subtype := "x-b"; part_filename := "b.bin" |} ].
Proof. vm_compute. reflexivity. Qed.

(** ** The delivery session *)

(** X12. When the [email] package accepts the header fields, the
    attachment stage succeeds (so every part has been loaded and its
    headers accepted), there is a recipient and the server accepts
    everything, [execute] reports no error, and the session is: connect,
    STARTTLS if requested, login if both a user and a password are given,
    send the assembled message to the envelope, quit; with the log entries
    for these steps, ending in "did send to N recipient(s)". *)
Theorem successful_delivery (h : Host) (self : SendHTMLEmail)
    (limit timeout : Z) (st : State) :
  accepts_everything h →
  headers_accepted h self →
  _get_attachments_limit_bytes h = Ok limit →
  _get_smtp_timeout_seconds h = Ok timeout →
  attachment_stage h self limit (initial_state self) = (Ok tt, st) →
  envelope_recipients self ≠ [] →
  execute h self =
    (Ok (response None
           (logs st ++ session_logs self timeout (envelope_recipients self))),
     {| logs := logs st
                ++ session_logs self timeout (envelope_recipients self);
        message_of := message_of st;
        trace := trace st
                 ++ session_events self timeout (message_of st)
                      (envelope_recipients self) |}).
Proof.
  intros (Hconnect & Htls & Hlogin & Hsend & Hquit) Hacc Hlimit Htimeout
    Hstage Henv.
  rewrite (execute_accepted h self limit (Ok tt) st Hlimit Hacc Hstage).
  rewrite _get_smtp_timeout_seconds_eq in Htimeout.
  injection Htimeout as ->.
  destruct (envelope_recipients self) as [|x rcpts] eqn:Hrcpts; [done|].
  unfold delivery_stage, with_SMTP, then_quit, session_logs, session_events,
    wants_tls, has_credentials.
  unfold_M. rewrite Hconnect, Htls, Hquit.
  destruct (PyStr.truthy (smtp_host self)),
    (default false (smtp_starttls self)),
    (opt_truthy (smtp_user self) && opt_truthy (smtp_password self));
    cbn; rewrite ?Hlogin, ?Hsend; cbn; rewrite ?Hsend, ?Hquit; cbn;
    rewrite <- ?app_assoc; reflexivity.
Qed.

Lemma sim_host_accepts_everything n env files :
  accepts_everything (sim_host n env files).
Proof. by repeat split. Qed.

Lemma successful_delivery_witness :
  execute (sim_host 4300 ∅ two_byte_file) report_command =
    (Ok (response None
           (logs (attachment_stage (sim_host 4300 ∅ two_byte_file)
                    report_command 104857600
                    (initial_state report_command)).2
            ++ session_logs report_command 30
                 (envelope_recipients report_command))),
     {| logs := logs (attachment_stage (sim_host 4300 ∅ two_byte_file)
                        report_command 104857600
                        (initial_state report_command)).2
                ++ session_logs report_command 30
                     (envelope_recipients report_command);
        message_of :=
          message_of (attachment_stage (sim_host 4300 ∅ two_byte_file)
                        report_command 104857600
                        (initial_state report_command)).2;
        trace := trace (attachment_stage (sim_host 4300 ∅ two_byte_file)
                          report_command 104857600
                          (initial_state report_command)).2
                 ++ session_events report_command 30
                      (message_of
                         (attachment_stage (sim_host 4300 ∅ two_byte_file)
                            report_command 104857600
                            (initial_state report_command)).2)
                      (envelope_recipients report_command) |}).
Proof.
  apply (successful_delivery (sim_host 4300 ∅ two_byte_file) report_command
           104857600 30).
  - apply sim_host_accepts_everything.
  - vm_compute. repeat constructor.
  - vm_compute. reflexivity.
  - vm_compute. reflexivity.
  - vm_compute. reflexivity.
  - vm_compute. discriminate.
Defined.

Example report_command_session :
  (execute (sim_host 4300 ∅ two_byte_file) report_command).1 =
  Ok (response None
        [LogAllowedDir "/attachments"; LogSizeLimit 104857600;
         LogAttached "a.txt" "application" "octet-stream" 2;
         LogAttached "b.bin" "application" "x-b" 3;
         LogWillSend 30; LogWillStartTLS; LogWillLogin; LogDidLogin;
         LogDidSend 2]).
Proof. vm_compute. reflexivity. Qed.

Lemma secrets_after_tls_spec evs :
  ∀ upgraded, secrets_after_tls upgraded evs = true →
  ∀ pre ev post, evs = pre ++ ev :: post → carries_secret ev = true →
  upgraded = true ∨ NetStartTLS ∈ pre.
Proof.
  induction evs as [|e evs IH]; intros upgraded Hok pre ev post Heq Hsec.
  { by destruct pre. }
  destruct pre as [|e' pre]; simplify_eq/=.
  - destruct ev; simplify_eq/=; left;
      by destruct upgraded.
  - assert (Hcase : e' = NetStartTLS ∨
              secrets_after_tls upgraded (pre ++ ev :: post) = true).
    { destruct e'; try (by left);
        right; by apply andb_prop in Hok as [_ ?]. }
    destruct Hcase as [->|Hrest].
    + right. apply list_elem_of_here.
    + destruct (IH _ Hrest pre ev post eq_refl Hsec) as [?|?]; [by left|].
      right. by apply list_elem_of_further.
Qed.

(** What a session does, whatever the server answers. *)
Lemma delivery_stage_session h self timeout recipients st r st' :
  delivery_stage h self timeout recipients st = (r, st') →
  ∃ evs ls,
    trace st' = trace st ++ evs ∧
    logs st' = logs st ++ LogWillSend timeout :: ls ∧
    message_of st' = message_of st ∧
    Forall (λ ev, is_network ev = true) evs ∧
    (last evs = Some NetQuit ∨
     ∃ e, net_connect h (smtp_host self) (smtp_port self) timeout = Some e ∧
          evs = [NetConnect (smtp_host self) (smtp_port self) timeout] ∧
          r = Err e) ∧
    Forall (λ ev, ∀ u p, ev = NetLogin u p →
                    smtp_user self = Some u ∧ smtp_password self = Some p ∧
                    u ≠ "" ∧ p ≠ "") evs ∧
    (wants_tls self = true →
     secrets_after_tls false evs = true ∧
     Forall (λ ev, carries_secret ev = true → net_starttls h = None) evs) ∧
    (r = Ok tt →
     last ls = Some (LogDidSend (length recipients)) ∧
     NetSendMessage (message_of st) recipients ∈ evs ∧
     net_send_message h (message_of st) recipients = None ∧
     net_quit h = None).
Proof.
  unfold delivery_stage, with_SMTP, then_quit, wants_tls. unfold_M.
  destruct (smtp_user self) as [u|] eqn:Hu;
    destruct (smtp_password self) as [p|] eqn:Hp; cbn [opt_truthy default].
  all: try (destruct (PyStr.truthy u) eqn:Htu;
            [apply PyStrFacts.truthy_true in Htu|]).
  all: try (destruct (PyStr.truthy p) eqn:Htp;
            [apply PyStrFacts.truthy_true in Htp|]).
  all: cbn [andb]; intros H; step_M.
  all: eexists _, _; rewrite <- ?app_assoc.
  all: (split; [reflexivity|]); (split; [reflexivity|]); (split; [done|]).
  all: (split; [by repeat constructor|]).
  all: (split; [first [by left | right; by eexists]|]).
  all: cbn [app].
  all: (split; [apply Forall_forall; intros ev Hev u0 p0 ->;
                rewrite ?elem_of_cons, ?elem_of_nil in Hev; naive_solver|]).
  all: split;
    [ intros ?; split; [done|]; apply Forall_forall; intros ev Hev;
      rewrite ?elem_of_cons, ?elem_of_nil in Hev;
      intros Hs; destruct ev; try done; naive_solver
    | intros ?; simplify_eq; repeat split; try done; set_solver ].
Qed.

(** ** Settings written as decimal numerals *)

Lemma digits_string_of_uint d :
  ∀ acc count after_digit,
    d ≠ Decimal.Nil ∨ after_digit = true →
    PyInt.digits acc count after_digit (DecimalString.NilEmpty.string_of_uint d)
    = Some (horner acc d, (count + Decimal.nb_digits d)%nat).
Proof.
  induction d; intros acc count after_digit Hd.
  { destruct Hd as [?| ->]; [done|]. simpl. by rewrite Nat.add_0_r. }
  all: cbn [DecimalString.NilEmpty.string_of_uint PyInt.digits
            Decimal.nb_digits horner].
  all: change (Ascii.eqb _ "_") with false; cbv iota.
  all: match goal with
       | |- context [PyInt.digit ?c] =>
           let v := eval vm_compute in (PyInt.digit c) in
           change (PyInt.digit c) with v
       end; cbv iota.
  all: rewrite IHd by (by right); by rewrite Nat.add_succ_r.
Qed.

Lemma horner_pos l : ∀ p, horner (Z.pos p) l = Z.pos (Pos.of_uint_acc l p).
Proof.
  induction l; intros p; simpl; [done|..]; rewrite <- IHl; f_equal; lia.
Qed.

Lemma horner_of_uint d : horner 0 d = Z.of_N (N.of_uint d).
Proof.
  unfold N.of_uint.
  induction d; simpl; [done|exact IHd|..]; by rewrite <- horner_pos.
Qed.

Lemma length_string_of_uint d :
  String.length (DecimalString.NilEmpty.string_of_uint d)
  = Decimal.nb_digits d.
Proof. induction d; simpl; by rewrite ?IHd. Qed.

Lemma to_uint_not_nil n : N.to_uint n ≠ Decimal.Nil.
Proof.
  intros Hnil. pose proof (DecimalN.Unsigned.of_to n) as Hn.
  rewrite Hnil in Hn. simpl in Hn. by subst n.
Qed.

Lemma string_of_uint_no_space d :
  all_chars (λ c, negb (PyStr.isspace c))
    (DecimalString.NilEmpty.string_of_uint d) = true.
Proof. induction d; simpl; [done|..]; exact IHd. Qed.

Lemma strip_no_space s :
  all_chars (λ c, negb (PyStr.isspace c)) s = true → PyStr.strip s = s.
Proof.
  intros Hs. unfold PyStr.strip.
  assert (Hl : PyStr.lstrip s = s).
  { destruct s as [|c s]; [done|]. simpl in *.
    apply andb_prop in Hs as [Hc _]. by destruct (PyStr.isspace c). }
  rewrite Hl. clear Hl.
  induction s as [|c s IH]; [done|]. simpl in *.
  apply andb_prop in Hs as [Hc Hs]. rewrite (IH Hs).
  destruct s; [|done]. by destruct (PyStr.isspace c).
Qed.

Lemma int_decimal max_digits n :
  max_digits = 0%nat ∨ (String.length (decimal n) ≤ max_digits)%nat →
  PyInt.int max_digits (decimal n) = Ok (Z.of_N n).
Proof.
  intros Hfit. unfold PyInt.int, decimal in *.
  rewrite strip_no_space by apply string_of_uint_no_space.
  pose proof (digits_string_of_uint (N.to_uint n) 0 0 false
                (or_introl (to_uint_not_nil n))) as Hdigits.
  rewrite horner_of_uint, DecimalN.Unsigned.of_to in Hdigits.
  rewrite length_string_of_uint in Hfit.
  assert (Hlimit : (0 <? max_digits)%nat
                   && (max_digits <? Decimal.nb_digits (N.to_uint n))%nat
                   = false).
  { destruct Hfit as [-> | Hfit]; [done|].
    apply andb_false_iff. right. apply Nat.ltb_ge. lia. }
  pose proof (to_uint_not_nil n) as Hnil.
  destruct (N.to_uint n) eqn:Hd; [done|..].
  all: cbn [DecimalString.NilEmpty.string_of_uint] in *.
  all: rewrite Hdigits; cbn [Nat.add]; by rewrite Hlimit.
Qed.

(** X13. A setting that holds the decimal numeral of [n], with white space
    around it or not, and within the interpreter's digit limit, is read as
    [n].  The attachment cap is then [n] megabytes, cut at 100, and the
    timeout [n] seconds; for [n = 0] the defaults, 100 MB and 30 s. *)
Theorem decimal_setting (h : Host) (name raw : string) (dflt : Z) (n : N) :
  environ h !! name = Some raw →
  PyStr.strip raw = decimal n →
  int_max_str_digits h = 0%nat
  ∨ (String.length (decimal n) ≤ int_max_str_digits h)%nat →
  _env_int h name dflt = Ok (Z.of_N n) ∧
  (name = ATTACHMENTS_LIMIT_ENV →
   _get_attachments_limit_bytes h
     = Ok ((if (n =? 0)%N then 100 else Z.min (Z.of_N n) 100) * 1024 * 1024)) ∧
  (name = SMTP_TIMEOUT_ENV →
   _get_smtp_timeout_seconds h = Ok (if (n =? 0)%N then 30 else Z.of_N n)).
Proof.
  intros Henv Hraw Hfit.
  assert (Hread : ∀ d, _env_int h name d = Ok (Z.of_N n)).
  { intros d. unfold _env_int. rewrite Henv, Hraw.
    assert (Hne : decimal n ≠ "").
    { unfold decimal. pose proof (to_uint_not_nil n).
      by destruct (N.to_uint n). }
    apply String.eqb_neq in Hne. rewrite Hne.
    by rewrite int_decimal. }
  split; [apply Hread|].
  split; intros ->.
  - unfold _get_attachments_limit_bytes. rewrite Hread. cbn [rbind].
    unfold DEFAULT_ATTACHMENTS_LIMIT_MB, HARD_ATTACHMENTS_LIMIT_MB.
    destruct (N.eqb_spec n 0) as [->|Hn]; [done|].
    destruct (Z.leb_spec (Z.of_N n) 0); [lia|done].
  - unfold _get_smtp_timeout_seconds. rewrite Hread. cbn [rbind].
    unfold DEFAULT_SMTP_TIMEOUT_SECONDS.
    destruct (N.eqb_spec n 0) as [->|Hn]; [done|].
    destruct (Z.leb_spec (Z.of_N n) 0); [lia|done].
Qed.

Lemma decimal_setting_witness :
  _env_int (sim_host 4300 {[ ATTACHMENTS_LIMIT_ENV := " 25 " ]} ∅)
    ATTACHMENTS_LIMIT_ENV 100 = Ok (Z.of_N 25) ∧
  (ATTACHMENTS_LIMIT_ENV = ATTACHMENTS_LIMIT_ENV →
   _get_attachments_limit_bytes
     (sim_host 4300 {[ ATTACHMENTS_LIMIT_ENV := " 25 " ]} ∅)
     = Ok ((if (25 =? 0)%N then 100 else Z.min (Z.of_N 25) 100)
           * 1024 * 1024)) ∧
  (ATTACHMENTS_LIMIT_ENV = SMTP_TIMEOUT_ENV →
   _get_smtp_timeout_seconds
     (sim_host 4300 {[ ATTACHMENTS_LIMIT_ENV := " 25 " ]} ∅)
     = Ok (if (25 =? 0)%N then 30 else Z.of_N 25)).
Proof.
  apply (decimal_setting
           (sim_host 4300 {[ ATTACHMENTS_LIMIT_ENV := " 25 " ]} ∅)
           ATTACHMENTS_LIMIT_ENV " 25 " 100 25).
  - vm_compute. reflexivity.
  - vm_compute. reflexivity.
  - right. vm_compute. lia.
Defined.

(** ** What the path guard raises *)

(** X14. [os.path.realpath] returns absolute paths.  On a host where it does
    so for the allowed root and for the given value, a rejection by
    [_resolve_and_validate_attachment_path] is: the exception [realpath]
    raised, unchanged; or a [ValueError] for an empty value, for a Windows
    or UNC path, for a relative path, or for a path outside the root, the
    checks being made in this order.  The "path is invalid" error of line
    124 is never raised. *)
Theorem guard_rejections (h : Host) (path : string) (e : exn) :
  (∀ r, realpath h (ALLOWED_ATTACHMENTS_DIR h) = Ok r →
        PosixPath.isabs r = true) →
  (∀ r, realpath h path = Ok r → PosixPath.isabs r = true) →
  _resolve_and_validate_attachment_path h path = Err e →
  (path = "" ∧ e = Exn ValueError PathNotAString) ∨
  (path ≠ "" ∧ realpath h (ALLOWED_ATTACHMENTS_DIR h) = Err e) ∨
  ∃ root,
    path ≠ "" ∧ realpath h (ALLOWED_ATTACHMENTS_DIR h) = Ok root ∧
    (((PyStr.contains ":" (PyStr.take 3 path)
       || PyStr.startswith path "\\") = true ∧
      e = Exn ValueError (WindowsOrUNCPath root path)) ∨
     ((PyStr.contains ":" (PyStr.take 3 path)
       || PyStr.startswith path "\\") = false ∧
      ((PosixPath.isabs path = false ∧
        e = Exn ValueError (NotAbsolute root path)) ∨
       (PosixPath.isabs path = true ∧
        (realpath h path = Err e ∨
         ∃ candidate,
           realpath h path = Ok candidate ∧
           PosixPath.commonpath root candidate ≠ Ok root ∧
           e = Exn ValueError (OutsideRoot root path)))))).
Proof.
  intros Hroot Hcand. unfold _resolve_and_validate_attachment_path.
  destruct (PyStr.truthy path) eqn:Htruthy; cbn [negb].
  2: { apply PyStrFacts.truthy_false in Htruthy. intros [= <-]. by left. }
  apply PyStrFacts.truthy_true in Htruthy.
  destruct (realpath h (ALLOWED_ATTACHMENTS_DIR h)) as [root|e0] eqn:Hr;
    cbn [rbind]; [|intros [= <-]; right; by left].
  destruct (PyStr.contains ":" (PyStr.take 3 path)
            || PyStr.startswith path "\\").
  { intros [= <-]. right; right. exists root. by eauto. }
  destruct (PosixPath.isabs path); cbn [negb].
  2: { intros [= <-]. right; right. exists root. by eauto 10. }
  destruct (realpath h path) as [candidate|e1] eqn:Hc; cbn [rbind].
  2: { intros [= <-]. right; right. exists root. by eauto 10. }
  rewrite commonpath_absolute by eauto. cbn [try_except rbind].
  destruct (String.eqb_spec
              ("/" +:+ PyStr.join "/"
                 (common_prefix (PosixPath.components root)
                    (PosixPath.components candidate))) root) as [Heq|Hne];
    cbn [negb]; [done|].
  intros [= <-]. right; right. exists root.
  split; [done|]. split; [done|]. right. split; [done|].
  right. split; [done|]. right. exists candidate.
  split; [done|]. split; [|done].
  rewrite commonpath_absolute by eauto. by intros [=].
Qed.

Lemma guard_rejections_witness :
  ("/attachments/../etc/passwd" = "" ∧
   Exn ValueError (OutsideRoot "/attachments" "/attachments/../etc/passwd")
   = Exn ValueError PathNotAString) ∨
  ("/attachments/../etc/passwd" ≠ "" ∧
   realpath (sim_host 4300 ∅ ∅)
     (ALLOWED_ATTACHMENTS_DIR (sim_host 4300 ∅ ∅))
   = Err (Exn ValueError
            (OutsideRoot "/attachments" "/attachments/../etc/passwd"))) ∨
  ∃ root,
    "/attachments/../etc/passwd" ≠ "" ∧
    realpath (sim_host 4300 ∅ ∅)
      (ALLOWED_ATTACHMENTS_DIR (sim_host 4300 ∅ ∅)) = Ok root ∧
    (((PyStr.contains ":" (PyStr.take 3 "/attachments/../etc/passwd")
       || PyStr.startswith "/attachments/../etc/passwd" "\\") = true ∧
      Exn ValueError (OutsideRoot "/attachments" "/attachments/../etc/passwd")
      = Exn ValueError (WindowsOrUNCPath root "/attachments/../etc/passwd")) ∨
     ((PyStr.contains ":" (PyStr.take 3 "/attachments/../etc/passwd")
       || PyStr.startswith "/attachments/../etc/passwd" "\\") = false ∧
      ((PosixPath.isabs "/attachments/../etc/passwd" = false ∧
        Exn ValueError
          (OutsideRoot "/attachments" "/attachments/../etc/passwd")
        = Exn ValueError (NotAbsolute root "/attachments/../etc/passwd")) ∨
       (PosixPath.isabs "/attachments/../etc/passwd" = true ∧
        (realpath (sim_host 4300 ∅ ∅) "/attachments/../etc/passwd"
         = Err (Exn ValueError
                  (OutsideRoot "/attachments" "/attachments/../etc/passwd")) ∨
         ∃ candidate,
           realpath (sim_host 4300 ∅ ∅) "/attachments/../etc/passwd"
             = Ok candidate ∧
           PosixPath.commonpath root candidate ≠ Ok root ∧
           Exn ValueError
             (OutsideRoot "/attachments" "/attachments/../etc/passwd")
           = Exn ValueError
               (OutsideRoot root "/attachments/../etc/passwd")))))).
Proof.
  apply (guard_rejections (sim_host 4300 ∅ ∅) "/attachments/../etc/passwd").
  - intros r. vm_compute. intros [= <-]. reflexivity.
  - intros r. vm_compute. intros [= <-]. reflexivity.
  - vm_compute. reflexivity.
Defined.

(** ** [execute] as a whole *)

(** The events of an invocation: file-system events, then one session. *)
Lemma execute_session h self :
  ∃ timeout fs evs,
    _get_smtp_timeout_seconds h = Ok timeout ∧
    trace (execute h self).2 = fs ++ evs ∧
    fs_only fs ∧
    Forall (λ ev, is_network ev = true) evs ∧
    (evs = [] ∨ last evs = Some NetQuit ∨
     ∃ e, net_connect h (smtp_host self) (smtp_port self) timeout = Some e ∧
          evs = [NetConnect (smtp_host self) (smtp_port self) timeout] ∧
          ∃ l, (execute h self).1 = Ok (response (Some (error_of e)) l)) ∧
    Forall (λ ev, ∀ u p, ev = NetLogin u p →
                    smtp_user self = Some u ∧ smtp_password self = Some p ∧
                    u ≠ "" ∧ p ≠ "") evs ∧
    (wants_tls self = true →
     secrets_after_tls false evs = true ∧
     Forall (λ ev, carries_secret ev = true → net_starttls h = None) evs).
Proof.
  destruct (execute_cases h self)
    as (limit & timeout & _ & Htimeout &
        [(_ & e & m & name & value & Hexec & _)
        |(_ & r2 & st2 & Hstage & Hexec)]).
  { exists timeout, [], []. rewrite Hexec. simpl.
    repeat split; try done; by left. }
  apply attachment_stage_state in Hstage as (_ & _ & (fs & Hfs & Hfsonly)).
  simpl in Hfs.
  exists timeout, fs.
  destruct r2 as [[]|exc].
  - destruct (envelope_recipients self) as [|x rcpts].
    + exists []. rewrite Hexec, app_nil_r. simpl.
      repeat split; try done; by left.
    + destruct Hexec as (r3 & st3 & Hd & Hexec).
      apply delivery_stage_session in Hd
        as (evs & ls & Ht & _ & _ & Hnet & Hlast & Hlogin & Htls & _).
      exists evs. split; [done|]. split.
      { rewrite Hexec. destruct r3 as [[]|]; simpl; by rewrite Ht, Hfs. }
      split; [done|]. split; [done|]. split; [|done].
      destruct Hlast as [?|(e & ? & ? & ->)]; [by right; left|].
      right; right. exists e. rewrite Hexec. simpl. by eauto.
  - exists []. rewrite Hexec, app_nil_r. simpl.
    repeat split; try done; by left.
Qed.

Lemma secrets_after_tls_fs fs evs :
  fs_only fs → ∀ upgraded,
  secrets_after_tls upgraded (fs ++ evs) = secrets_after_tls upgraded evs.
Proof.
  induction 1 as [|ev fs Hev _ IH]; intros upgraded; [done|].
  simpl. rewrite IH. by destruct ev.
Qed.

Lemma fs_only_not_network fs ev :
  fs_only fs → ev ∈ fs → is_network ev = true → False.
Proof.
  intros Hfs Hin Hnet. eapply Forall_forall in Hfs; [|exact Hin]. congruence.
Qed.

(** X15. When STARTTLS is requested, neither the credentials nor the message
    go to the server before the upgrade: a login or a send is preceded by a
    STARTTLS, and that STARTTLS succeeded. *)
Theorem tls_before_secrets (h : Host) (self : SendHTMLEmail)
    (pre post : list event) (ev : event) :
  wants_tls self = true →
  trace (execute h self).2 = pre ++ ev :: post →
  carries_secret ev = true →
  NetStartTLS ∈ pre ∧ net_starttls h = None.
Proof.
  intros Hwants Htrace Hsecret.
  destruct (execute_session h self)
    as (timeout & fs & evs & _ & Ht & Hfs & _ & _ & _ & Htls).
  destruct (Htls Hwants) as [Hord Hup]. split.
  - assert (Hall : secrets_after_tls false (pre ++ ev :: post) = true).
    { by rewrite <- Htrace, Ht, secrets_after_tls_fs. }
    by destruct (secrets_after_tls_spec _ _ Hall pre ev post eq_refl Hsecret).
  - assert (Hin : ev ∈ fs ++ evs) by (rewrite <- Ht, Htrace; set_solver).
    apply elem_of_app in Hin as [Hin|Hin].
    + exfalso. apply (fs_only_not_network fs ev Hfs Hin). by destruct ev.
    + eapply Forall_forall in Hup; [|exact Hin]. by apply Hup.
Qed.

(** X16. A session that was opened is closed: when the invocation touched
    the network at all, its last event is the QUIT; unless the connection
    itself was refused, and then the connection attempt is the only network
    event and the refusal is the error reported. *)
Theorem session_always_closed (h : Host) (self : SendHTMLEmail) (ev : event) :
  ev ∈ trace (execute h self).2 →
  is_network ev = true →
  last (trace (execute h self).2) = Some NetQuit ∨
  ∃ timeout e fs l,
    _get_smtp_timeout_seconds h = Ok timeout ∧
    net_connect h (smtp_host self) (smtp_port self) timeout = Some e ∧
    trace (execute h self).2
      = fs ++ [NetConnect (smtp_host self) (smtp_port self) timeout] ∧
    fs_only fs ∧
    (execute h self).1 = Ok (response (Some (error_of e)) l).
Proof.
  intros Hin Hnet.
  destruct (execute_session h self)
    as (timeout & fs & evs & Htimeout & Ht & Hfs & _ & Hlast & _ & _).
  rewrite Ht in Hin |- *.
  destruct Hlast as [->|[Hlast|(e & Hrefused & -> & l & Hresp)]].
  - rewrite app_nil_r in Hin.
    destruct (fs_only_not_network fs ev Hfs Hin Hnet).
  - left. apply last_Some in Hlast as [evs' ->].
    by rewrite app_assoc, last_snoc.
  - right. by exists timeout, e, fs, l.
Qed.

(** X17. [execute] logs in only with both a user and a password that are
    not empty, and with exactly these. *)
Theorem login_needs_both (h : Host) (self : SendHTMLEmail) (u p : string) :
  NetLogin u p ∈ trace (execute h self).2 →
  smtp_user self = Some u ∧ smtp_password self = Some p ∧ u ≠ "" ∧ p ≠ "".
Proof.
  intros Hin.
  destruct (execute_session h self)
    as (timeout & fs & evs & _ & Ht & Hfs & _ & _ & Hlogin & _).
  rewrite Ht in Hin. apply elem_of_app in Hin as [Hin|Hin].
  - destruct (fs_only_not_network fs _ Hfs Hin eq_refl).
  - eapply Forall_forall in Hlogin; [|exact Hin]. by apply Hlogin.
Qed.

Lemma last_app_cons {A} (l1 l2 : list A) (x y : A) :
  last l2 = Some y → last (l1 ++ x :: l2) = Some y.
Proof.
  intros [l' ->]%last_Some.
  by rewrite app_comm_cons, app_assoc, last_snoc.
Qed.

Lemma attachment_logs_last ls l :
  Forall attachment_log ls → last ls = Some l → attachment_log l.
Proof.
  intros Hall [l' ->]%last_Some.
  apply Forall_app in Hall as [_ Hl]. by apply Forall_cons in Hl as [? _].
Qed.

(** X18. The response reports no error exactly when its log ends with the
    "did send" entry.  Then there was a recipient, the entry counts the
    envelope, the server accepted the assembled message for the envelope,
    and the session was closed without an error, as its last event. *)
Theorem error_iff_not_sent (h : Host) (self : SendHTMLEmail)
    (resp : ConnectorProxyResponseDict) :
  (execute h self).1 = Ok resp →
  (error resp = None ↔ ∃ n, last (spiff__logs resp) = Some (LogDidSend n)) ∧
  (error resp = None →
   envelope_recipients self ≠ [] ∧
   last (spiff__logs resp)
     = Some (LogDidSend (length (envelope_recipients self))) ∧
   NetSendMessage (message_of (execute h self).2) (envelope_recipients self)
     ∈ trace (execute h self).2 ∧
   net_send_message h (message_of (execute h self).2)
     (envelope_recipients self) = None ∧
   net_quit h = None ∧
   last (trace (execute h self).2) = Some NetQuit).
Proof.
  destruct (execute_cases h self)
    as (limit & timeout & _ & _ &
        [(_ & e & m & name & value & Hexec & _)
        |(_ & r2 & st2 & Hstage & Hexec)]).
  { by rewrite Hexec. }
  apply attachment_stage_state in Hstage as (_ & (ls2 & Hls2 & Hatt) & _).
  simpl in Hls2.
  destruct r2 as [[]|exc].
  - destruct (envelope_recipients self) as [|x rcpts] eqn:Henv.
    + rewrite Hexec. intros [= <-]. simpl. split; [|done].
      split; [done|]. intros [n Hn]. rewrite Hls2 in Hn.
      by destruct (attachment_logs_last _ _ Hatt Hn).
    + destruct Hexec as (r3 & st3 & Hd & ->).
      apply delivery_stage_session in Hd
        as (evs & ls & Ht & Hl & Hm & _ & Hlast & _ & _ & Hok).
      destruct r3 as [[]|exc]; intros [= <-]; simpl.
      * destruct (Hok eq_refl) as (Hdid & Hsent & Haccepted & Hquit).
        assert (Hend : last (logs st3)
                       = Some (LogDidSend (length (x :: rcpts)))).
        { rewrite Hl. by apply last_app_cons. }
        split; [split; [by eauto|done]|]. intros _.
        split; [done|]. split; [done|].
        rewrite Hm, Ht. split; [set_solver|]. split; [done|]. split; [done|].
        destruct Hlast as [Hlast|(e & _ & _ & [=])].
        apply last_Some in Hlast as [evs' ->].
        by rewrite app_assoc, last_snoc.
      * split; [|done]. split; [done|]. intros [n Hn].
        by rewrite last_snoc in Hn.
  - rewrite Hexec. intros [= <-]. simpl. split; [|done].
    split; [done|]. intros [n Hn]. by rewrite last_snoc in Hn.
Qed.

Lemma attachment_stage_parts h self limit st :
  attachment_stage h self limit (initial_state self) = (Ok tt, st) →
  length (parts (message_of st)) = length (attachments self) ∧
  ∀ k att, attachments self !! k = Some att →
    ∃ p, parts (message_of st) !! k = Some p ∧ part_for h limit k att p.
Proof.
  unfold attachment_stage. unfold_M.
  destruct (realpath h (ALLOWED_ATTACHMENTS_DIR h)) as [root|e]; [|done].
  intros H. apply attach_loop_success in H
    as (new & _ & _ & _ & Hp & _ & Hlen & Hnew).
  simpl in Hp. rewrite Hp. by split.
Qed.

(** X19. No partial message leaves: whatever [execute] hands to the server
    is the complete message, with one part per attachment descriptor, in
    their order, each loaded under the resolved limit, and it goes to the
    envelope, which is not empty. *)
Theorem sent_message_complete (h : Host) (self : SendHTMLEmail)
    (m : EmailMessage) (to_addrs : list string) :
  NetSendMessage m to_addrs ∈ trace (execute h self).2 →
  ∃ limit,
    _get_attachments_limit_bytes h = Ok limit ∧
    to_addrs = envelope_recipients self ∧
    to_addrs ≠ [] ∧
    m = message_of (execute h self).2 ∧
    length (parts m) = length (attachments self) ∧
    ∀ k att, attachments self !! k = Some att →
      ∃ p, parts m !! k = Some p ∧ part_for h limit k att p.
Proof.
  destruct (execute_cases h self)
    as (limit & timeout & Hlimit & _ &
        [(_ & e & m0 & name & value & Hexec & _)
        |(_ & r2 & st2 & Hstage & Hexec)]).
  { rewrite Hexec. simpl. by intros ?%elem_of_nil. }
  pose proof (attachment_stage_state _ _ _ _ _ _ Hstage)
    as (_ & _ & (fs & Hfs & Hfsonly)).
  simpl in Hfs. intros Hin. exists limit. split; [done|].
  destruct r2 as [[]|exc].
  - destruct (envelope_recipients self) as [|x rcpts] eqn:Henv.
    + rewrite Hexec in Hin. simpl in Hin. rewrite Hfs in Hin.
      destruct (fs_only_not_network fs _ Hfsonly Hin eq_refl).
    + destruct Hexec as (r3 & st3 & Hd & Hexec).
      apply delivery_stage_state in Hd as (Hm & evs & Ht & Hsends).
      assert (Hin' : NetSendMessage m to_addrs ∈ fs ++ evs).
      { rewrite Hexec in Hin. rewrite <- Hfs, <- Ht.
        by destruct r3 as [[]|]. }
      assert (Hmsg : message_of (execute h self).2 = message_of st2).
      { rewrite Hexec. by destruct r3 as [[]|]. }
      apply elem_of_app in Hin' as [Hin'|Hin'].
      { destruct (fs_only_not_network fs _ Hfsonly Hin' eq_refl). }
      eapply Forall_forall in Hsends; [|exact Hin'].
      destruct (Hsends m to_addrs eq_refl) as [-> ->].
      apply attachment_stage_parts in Hstage as [Hlen Hparts].
      by rewrite Hmsg.
  - rewrite Hexec in Hin. simpl in Hin. rewrite Hfs in Hin.
    destruct (fs_only_not_network fs _ Hfsonly Hin eq_refl).
Qed.

(** X20. A reported error is one of three: the attachment stage raised, and
    the log ends with "attachment error" and the exception's text; there was
    no recipient, which is reported but not logged, so that the log holds
    attachment entries only; or the delivery stage raised, and the log ends
    with "did error" and the exception's text.  The error code is the name
    of the exception's class, the message its text. *)
Theorem reported_errors (h : Host) (self : SendHTMLEmail)
    (resp : ConnectorProxyResponseDict) (err : CommandErrorDict) :
  (execute h self).1 = Ok resp →
  error resp = Some err →
  (∃ exc, err = error_of exc ∧
          last (spiff__logs resp) = Some (LogAttachmentError (exn_message exc)) ∧
          fs_only (trace (execute h self).2)) ∨
  (err = no_recipients_error ∧ envelope_recipients self = [] ∧
   Forall attachment_log (spiff__logs resp) ∧
   fs_only (trace (execute h self).2)) ∨
  (∃ exc, err = error_of exc ∧ envelope_recipients self ≠ [] ∧
          last (spiff__logs resp) = Some (LogDidError (exn_message exc))).
Proof.
  destruct (execute_cases h self)
    as (limit & timeout & _ & _ &
        [(_ & e & m & name & value & Hexec & _)
        |(_ & r2 & st2 & Hstage & Hexec)]).
  { by rewrite Hexec. }
  apply attachment_stage_state
    in Hstage as (_ & (ls2 & Hls2 & Hatt) & (fs & Hfs & Hfsonly)).
  simpl in Hls2, Hfs.
  destruct r2 as [[]|exc].
  - destruct (envelope_recipients self) as [|x rcpts] eqn:Henv.
    + rewrite Hexec. intros [= <-] [= <-]. right; left. simpl.
      by rewrite Hls2, Hfs.
    + destruct Hexec as (r3 & st3 & Hd & ->).
      destruct r3 as [[]|exc]; intros [= <-]; simpl; [done|].
      intros [= <-]. right; right. exists exc. by rewrite last_snoc.
  - rewrite Hexec. intros [= <-] [= <-]. left. exists exc. simpl.
    by rewrite last_snoc, Hfs.
Qed.

(** ** Login before the message *)

Lemma sends_after_login_spec evs :
  ∀ seen, sends_after_login seen evs = true →
  ∀ pre ev post, evs = pre ++ ev :: post → is_send ev = true →
  seen = true ∨ ∃ u p, NetLogin u p ∈ pre.
Proof.
  induction evs as [|e evs IH]; intros seen Hok pre ev post Heq Hsend.
  { by destruct pre. }
  simpl in Hok. apply andb_prop in Hok as [Hhere Hrest].
  destruct pre as [|e' pre]; simplify_eq/=.
  - rewrite Hsend in Hhere. left. by destruct seen.
  - destruct (IH _ Hrest pre ev post eq_refl Hsend) as [Hseen|(u & p & Hin)].
    + apply orb_prop in Hseen as [?|Hlogin]; [by left|].
      right. destruct e'; try done. eexists _, _. apply list_elem_of_here.
    + right. exists u, p. by apply list_elem_of_further.
Qed.

Lemma sends_after_login_fs fs evs :
  fs_only fs → ∀ seen,
  sends_after_login seen (fs ++ evs) = sends_after_login seen evs.
Proof.
  induction 1 as [|ev fs Hev _ IH]; intros seen; [done|].
  simpl. rewrite IH. destruct ev; try done; by rewrite orb_false_r.
Qed.

(** With a user and a password, the session sends only after a login that
    the server accepted. *)
Lemma delivery_stage_login h self timeout recipients st r st' :
  has_credentials self = true →
  delivery_stage h self timeout recipients st = (r, st') →
  ∃ evs,
    trace st' = trace st ++ evs ∧
    sends_after_login false evs = true ∧
    Forall (λ ev, is_send ev = true →
                  net_login h (default "" (smtp_user self))
                    (default "" (smtp_password self)) = None) evs.
Proof.
  unfold has_credentials, delivery_stage, with_SMTP, then_quit.
  intros Hcred. rewrite Hcred. unfold_M. intros H. step_M.
  all: eexists; rewrite <- ?app_assoc; (split; [reflexivity|]).
  all: cbn [app]; (split; [done|]).
  all: repeat (apply List.Forall_cons; [done|]); apply List.Forall_nil.
Qed.

(** X21. When both a user and a password are given, the message goes to the
    server only after a login, with these credentials, that the server
    accepted. *)
Theorem login_before_message (h : Host) (self : SendHTMLEmail)
    (pre post : list event) (m : EmailMessage) (to_addrs : list string) :
  has_credentials self = true →
  trace (execute h self).2 = pre ++ NetSendMessage m to_addrs :: post →
  ∃ u p,
    smtp_user self = Some u ∧ smtp_password self = Some p ∧
    NetLogin u p ∈ pre ∧ net_login h u p = None.
Proof.
  intros Hcred Htrace.
  assert (Hboth : ∃ u p, smtp_user self = Some u ∧ smtp_password self = Some p).
  { unfold has_credentials in Hcred.
    destruct (smtp_user self), (smtp_password self); simpl in Hcred;
      rewrite ?andb_false_r in Hcred; try done; by eauto. }
  destruct Hboth as (u & p & Hu & Hp). exists u, p.
  split; [done|]. split; [done|].
  assert (Hsend : NetSendMessage m to_addrs ∈ trace (execute h self).2).
  { rewrite Htrace. set_solver. }
  destruct (execute_cases h self)
    as (limit & timeout & _ & _ &
        [(_ & e & m0 & name & value & Hexec & _)
        |(_ & r2 & st2 & Hstage & Hexec)]).
  { rewrite Hexec in Hsend. simpl in Hsend. by apply elem_of_nil in Hsend. }
  apply attachment_stage_state in Hstage as (_ & _ & (fs & Hfs & Hfsonly)).
  simpl in Hfs.
  assert (Hquiet : trace (execute h self).2 = fs → False).
  { intros Heq. rewrite Heq in Hsend.
    destruct (fs_only_not_network fs _ Hfsonly Hsend eq_refl). }
  destruct r2 as [[]|exc].
  - destruct (envelope_recipients self) as [|x rcpts].
    + destruct Hquiet. by rewrite Hexec.
    + destruct Hexec as (r3 & st3 & Hd & Hexec).
      apply (delivery_stage_login _ _ _ _ _ _ _ Hcred) in Hd
        as (evs & Ht & Hord & Hacc).
      assert (Hall : trace (execute h self).2 = fs ++ evs).
      { rewrite Hexec, <- Hfs, <- Ht. by destruct r3 as [[]|]. }
      rewrite Hu, Hp in Hacc. simpl in Hacc. split.
      * assert (Hok : sends_after_login false
                        (pre ++ NetSendMessage m to_addrs :: post) = true).
        { by rewrite <- Htrace, Hall, sends_after_login_fs. }
        destruct (sends_after_login_spec _ _ Hok pre _ post eq_refl eq_refl)
          as [?|(u' & p' & Hin)]; [done|].
        assert (Hin' : NetLogin u' p' ∈ trace (execute h self).2).
        { rewrite Htrace. set_solver. }
        destruct (execute_session h self)
          as (_ & fs' & evs' & _ & Ht' & Hfs' & _ & _ & Hlogin & _).
        rewrite Ht' in Hin'. apply elem_of_app in Hin' as [Hin'|Hin'].
        { destruct (fs_only_not_network fs' _ Hfs' Hin' eq_refl). }
        eapply Forall_forall in Hlogin; [|exact Hin'].
        destruct (Hlogin u' p' eq_refl) as (Hu' & Hp' & _).
        by simplify_eq.
      * rewrite Hall in Hsend. apply elem_of_app in Hsend as [Hsend|Hsend].
        { destruct (fs_only_not_network fs _ Hfsonly Hsend eq_refl). }
        eapply Forall_forall in Hacc; [|exact Hsend]. by apply Hacc.
  - destruct Hquiet. by rewrite Hexec.
Qed.

(** ** The properties of [execute] on [report_command] *)

Lemma tls_before_secrets_witness :
  NetStartTLS ∈ report_command_reads
                 ++ [NetConnect "mail.example" 587 30; NetStartTLS] ∧
  net_starttls (sim_host 4300 ∅ two_byte_file) = None.
Proof.
  apply (tls_before_secrets (sim_host 4300 ∅ two_byte_file) report_command
           (report_command_reads
              ++ [NetConnect "mail.example" 587 30; NetStartTLS])
           [NetSendMessage
              (message_of
                 (execute (sim_host 4300 ∅ two_byte_file) report_command).2)
              ["a@x"; "b@y"];
            NetQuit]
           (NetLogin "user" "secret")).
  - reflexivity.
  - vm_compute. reflexivity.
  - reflexivity.
Defined.

Lemma session_always_closed_witness :
  last (trace (execute (refusing_host two_byte_file) report_command).2)
    = Some NetQuit ∨
  ∃ timeout e fs l,
    _get_smtp_timeout_seconds (refusing_host two_byte_file) = Ok timeout ∧
    net_connect (refusing_host two_byte_file) (smtp_host report_command)
      (smtp_port report_command) timeout = Some e ∧
    trace (execute (refusing_host two_byte_file) report_command).2
      = fs ++ [NetConnect (smtp_host report_command)
                 (smtp_port report_command) timeout] ∧
    fs_only fs ∧
    (execute (refusing_host two_byte_file) report_command).1
      = Ok (response (Some (error_of e)) l).
Proof.
  apply (session_always_closed (refusing_host two_byte_file) report_command
           (NetConnect "mail.example" 587 30)).
  - vm_compute. repeat constructor.
  - reflexivity.
Defined.

Example refused_connection :
  execute (refusing_host two_byte_file) report_command =
  (Ok (response
         (Some {| error_code := "ConnectionRefusedError";
                  error_message :=
                    LibraryMessage "[Errno 111] Connection refused" |})
         [LogAllowedDir "/attachments"; LogSizeLimit 104857600;
          LogAttached "a.txt" "application" "octet-stream" 2;
          LogAttached "b.bin" "application" "x-b" 3;
          LogWillSend 30;
          LogDidError (LibraryMessage "[Errno 111] Connection refused")]),
   {| logs := [LogAllowedDir "/attachments"; LogSizeLimit 104857600;
               LogAttached "a.txt" "application" "octet-stream" 2;
               LogAttached "b.bin" "application" "x-b" 3;
               LogWillSend 30;
               LogDidError (LibraryMessage "[Errno 111] Connection refused")];
      message_of :=
        message_of (attachment_stage (refusing_host two_byte_file)
                      report_command 104857600
                      (initial_state report_command)).2;
      trace := report_command_reads ++ [NetConnect "mail.example" 587 30] |}).
Proof. vm_compute. reflexivity. Qed.

Lemma login_needs_both_witness :
  smtp_user report_command = Some "user" ∧
  smtp_password report_command = Some "secret" ∧
  "user" ≠ "" ∧ "secret" ≠ "".
Proof.
  apply (login_needs_both (sim_host 4300 ∅ two_byte_file) report_command).
  vm_compute. repeat constructor.
Defined.

Lemma error_iff_not_sent_witness :
  (error (response None
            (logs (execute (sim_host 4300 ∅ two_byte_file) report_command).2))
     = None ↔
   ∃ n, last (spiff__logs
                (response None
                   (logs (execute (sim_host 4300 ∅ two_byte_file)
                            report_command).2)))
        = Some (LogDidSend n)) ∧
  (error (response None
            (logs (execute (sim_host 4300 ∅ two_byte_file) report_command).2))
     = None →
   envelope_recipients report_command ≠ [] ∧
   last (spiff__logs
           (response None
              (logs (execute (sim_host 4300 ∅ two_byte_file)
                       report_command).2)))
     = Some (LogDidSend (length (envelope_recipients report_command))) ∧
   NetSendMessage
     (message_of (execute (sim_host 4300 ∅ two_byte_file) report_command).2)
     (envelope_recipients report_command)
     ∈ trace (execute (sim_host 4300 ∅ two_byte_file) report_command).2 ∧
   net_send_message (sim_host 4300 ∅ two_byte_file)
     (message_of (execute (sim_host 4300 ∅ two_byte_file) report_command).2)
     (envelope_recipients report_command) = None ∧
   net_quit (sim_host 4300 ∅ two_byte_file) = None ∧
   last (trace (execute (sim_host 4300 ∅ two_byte_file) report_command).2)
     = Some NetQuit).
Proof.
  apply (error_iff_not_sent (sim_host 4300 ∅ two_byte_file) report_command).
  vm_compute. reflexivity.
Defined.

Lemma sent_message_complete_witness :
  ∃ limit,
    _get_attachments_limit_bytes (sim_host 4300 ∅ two_byte_file) = Ok limit ∧
    ["a@x"; "b@y"] = envelope_recipients report_command ∧
    ["a@x"; "b@y"] ≠ [] ∧
    message_of (execute (sim_host 4300 ∅ two_byte_file) report_command).2
      = message_of (execute (sim_host 4300 ∅ two_byte_file) report_command).2 ∧
    length (parts (message_of
                     (execute (sim_host 4300 ∅ two_byte_file)
                        report_command).2))
      = length (attachments report_command) ∧
    ∀ k att, attachments report_command !! k = Some att →
      ∃ p, parts (message_of
                    (execute (sim_host 4300 ∅ two_byte_file)
                       report_command).2) !! k = Some p ∧
           part_for (sim_host 4300 ∅ two_byte_file) limit k att p.
Proof.
  apply (sent_message_complete (sim_host 4300 ∅ two_byte_file) report_command).
  vm_compute. repeat constructor.
Defined.

Lemma reported_errors_witness :
  (∃ exc, error_of connection_refused = error_of exc ∧
          last (spiff__logs
                  (response (Some (error_of connection_refused))
                     (logs (execute (refusing_host two_byte_file)
                              report_command).2)))
            = Some (LogAttachmentError (exn_message exc)) ∧
          fs_only (trace (execute (refusing_host two_byte_file)
                            report_command).2)) ∨
  (error_of connection_refused = no_recipients_error ∧
   envelope_recipients report_command = [] ∧
   Forall attachment_log
     (spiff__logs
        (response (Some (error_of connection_refused))
           (logs (execute (refusing_host two_byte_file) report_command).2))) ∧
   fs_only (trace (execute (refusing_host two_byte_file) report_command).2)) ∨
  (∃ exc, error_of connection_refused = error_of exc ∧
          envelope_recipients report_command ≠ [] ∧
          last (spiff__logs
                  (response (Some (error_of connection_refused))
                     (logs (execute (refusing_host two_byte_file)
                              report_command).2)))
            = Some (LogDidError (exn_message exc))).
Proof.
  apply (reported_errors (refusing_host two_byte_file) report_command).
  - vm_compute. reflexivity.
  - reflexivity.
Defined.

Lemma login_before_message_witness :
  ∃ u p,
    smtp_user report_command = Some u ∧
    smtp_password report_command = Some p ∧
    NetLogin u p ∈ report_command_reads
                   ++ [NetConnect "mail.example" 587 30; NetStartTLS;
                       NetLogin "user" "secret"] ∧
    net_login (sim_host 4300 ∅ two_byte_file) u p = None.
Proof.
  apply (login_before_message (sim_host 4300 ∅ two_byte_file) report_command
           (report_command_reads
              ++ [NetConnect "mail.example" 587 30; NetStartTLS;
                  NetLogin "user" "secret"])
           [NetQuit]
           (message_of
              (execute (sim_host 4300 ∅ two_byte_file) report_command).2)
           ["a@x"; "b@y"]).
  - reflexivity.
  - vm_compute. reflexivity.
Defined.
